(** * Real-time messaging core: socket server and client reconciliation

    A shallow embedding of [backend/config/socket.js] (the Socket.io server:
    authentication middleware, presence table, event handlers) and of the
    message and reaction reducers of the messaging hub component
    (second module of [frontend/src/context/SocketContext.jsx]). *)

From stdpp Require Import gmap strings list fin_maps pretty.
From Stdlib Require Import ZArith Lia Ascii.

Open Scope string_scope.
Open Scope Z_scope.
Open Scope list_scope.

(** ** JavaScript values

    Event payloads are JSON.  Scalars carry decidable equality, so that
    [===], [Map] keys and [Array.prototype.includes] are plain equality
    (numbers are the integers; NaN does not occur in JSON).  A [jsval] is a
    scalar, an array of scalars or an object with scalar fields; an [obj] is
    an object whose fields are [jsval]s.

    A string is held as the bytes of its UTF-8 form (a lone surrogate as
    the three bytes of the generalised form), so equality, concatenation
    and the search for an ASCII text are those of the bytes; lengths and
    positions are counted in UTF-16 code units, as JavaScript counts
    them. *)

Inductive scalar : Type :=
| Undefined
| Null
| Bool (b : bool)
| Num (n : Z)
| Str (s : string).

#[global] Instance scalar_eq_dec : EqDecision scalar.
Proof. solve_decision. Defined.

Definition scalar_code (v : scalar) : (bool + bool) + (Z + string) :=
  match v with
  | Undefined => inl (inl true)
  | Null => inl (inl false)
  | Bool b => inl (inr b)
  | Num n => inr (inl n)
  | Str s => inr (inr s)
  end.

Definition scalar_decode (c : (bool + bool) + (Z + string)) : scalar :=
  match c with
  | inl (inl true) => Undefined
  | inl (inl false) => Null
  | inl (inr b) => Bool b
  | inr (inl n) => Num n
  | inr (inr s) => Str s
  end.

#[global] Instance scalar_countable : Countable scalar.
Proof.
  apply (inj_countable' scalar_code scalar_decode).
  intros []; reflexivity.
Defined.

Inductive jsval : Type :=
| Scalar (v : scalar)
| Arr (xs : list scalar)
| Object (o : gmap string scalar).

#[global] Instance jsval_eq_dec : EqDecision jsval.
Proof. solve_decision. Defined.

Definition jsval_code (v : jsval) : scalar + (list scalar + gmap string scalar) :=
  match v with
  | Scalar s => inl s
  | Arr xs => inr (inl xs)
  | Object o => inr (inr o)
  end.

Definition jsval_decode (c : scalar + (list scalar + gmap string scalar)) : jsval :=
  match c with
  | inl s => Scalar s
  | inr (inl xs) => Arr xs
  | inr (inr o) => Object o
  end.

#[global] Instance jsval_countable : Countable jsval.
Proof.
  apply (inj_countable' jsval_code jsval_decode).
  intros []; reflexivity.
Defined.

Abbreviation obj := (gmap string jsval).

(** *** Strings in UTF-16 code units *)

Definition bytes (l : list nat) : string :=
  foldr (fun n rest => String (ascii_of_nat n) rest) EmptyString l.

(** A byte [10xxxxxx] continues a character; a byte [11110xxx] begins a
    character of four bytes, which JavaScript holds as a surrogate pair. *)
Definition is_continuation (c : ascii) : bool :=
  Nat.leb 128 (nat_of_ascii c) && Nat.ltb (nat_of_ascii c) 192.

Definition is_lead4 (c : ascii) : bool := Nat.leb 240 (nat_of_ascii c).

Definition code_units (c : ascii) : nat :=
  if is_continuation c then 0%nat else if is_lead4 c then 2%nat else 1%nat.

(** [s.length]. *)
Fixpoint utf16_length (s : string) : nat :=
  match s with
  | EmptyString => 0%nat
  | String c rest => (code_units c + utf16_length rest)%nat
  end.

(** The text holds ASCII characters only. *)
Fixpoint is_ascii (s : string) : bool :=
  match s with
  | EmptyString => true
  | String c rest => Nat.ltb (nat_of_ascii c) 128 && is_ascii rest
  end.

(** The high surrogate of the character that begins with the bytes [c],
    [b1], [b2]: [0xD800 + ((cp - 0x10000) >> 10)], in three bytes. *)
Definition high_surrogate (c b1 b2 : ascii) : string :=
  let x := ((nat_of_ascii c mod 8) * 256 + (nat_of_ascii b1 mod 64) * 4
            + (nat_of_ascii b2 mod 64) / 16 - 64)%nat in
  bytes [237%nat; (160 + (x / 64) mod 16)%nat; (128 + x mod 64)%nat].

(** [s.substring(0, n)]: the first [n] code units.  A cut between the two
    surrogates of a character leaves the high surrogate alone. *)
Fixpoint utf16_take (n : nat) (s : string) : string :=
  match s with
  | EmptyString => EmptyString
  | String c rest =>
      if is_continuation c then String c (utf16_take n rest)
      else
        match n with
        | O => EmptyString
        | S n' =>
            if is_lead4 c then
              match n' with
              | O =>
                  match rest with
                  | String b1 (String b2 _) => high_surrogate c b1 b2
                  | _ => EmptyString
                  end
              | S n'' => String c (utf16_take n'' rest)
              end
            else String c (utf16_take n' rest)
        end
  end.

(** The characters of a string in order, as [[...s]] iterates them: the
    continuation bytes at the front of [s], and the characters after
    them. *)
Fixpoint split_chars (s : string) : string * list string :=
  match s with
  | EmptyString => (EmptyString, [])
  | String c rest =>
      let '(front, cs) := split_chars rest in
      if is_continuation c then (String c front, cs)
      else (EmptyString, String c front :: cs)
  end.

(** White space and line terminators of ECMAScript, which
    [String.prototype.trim] strips: U+0009 to U+000D, U+0020, U+00A0,
    U+1680, U+2000 to U+200A, U+2028, U+2029, U+202F, U+205F, U+3000 and
    U+FEFF. *)
Definition white_space : list string :=
  map bytes
    [ [9%nat]; [10%nat]; [11%nat]; [12%nat]; [13%nat]; [32%nat];
      [194%nat; 160%nat];
      [225%nat; 154%nat; 128%nat];
      [226%nat; 128%nat; 128%nat]; [226%nat; 128%nat; 129%nat];
      [226%nat; 128%nat; 130%nat]; [226%nat; 128%nat; 131%nat];
      [226%nat; 128%nat; 132%nat]; [226%nat; 128%nat; 133%nat];
      [226%nat; 128%nat; 134%nat]; [226%nat; 128%nat; 135%nat];
      [226%nat; 128%nat; 136%nat]; [226%nat; 128%nat; 137%nat];
      [226%nat; 128%nat; 138%nat];
      [226%nat; 128%nat; 168%nat]; [226%nat; 128%nat; 169%nat];
      [226%nat; 128%nat; 175%nat];
      [226%nat; 129%nat; 159%nat];
      [227%nat; 128%nat; 128%nat];
      [239%nat; 187%nat; 191%nat] ].

Fixpoint strip_prefix (p s : string) : option string :=
  match p, s with
  | EmptyString, _ => Some s
  | String a p', String b s' => if Ascii.eqb a b then strip_prefix p' s' else None
  | String _ _, EmptyString => None
  end.

(** [s] without the first of [seps] it begins with. *)
Fixpoint strip_any (seps : list string) (s : string) : option string :=
  match seps with
  | [] => None
  | sep :: more =>
      match strip_prefix sep s with
      | Some rest => Some rest
      | None => strip_any more s
      end
  end.

Fixpoint strip_all (fuel : nat) (seps : list string) (s : string) : string :=
  match fuel with
  | O => s
  | S fuel' =>
      match strip_any seps s with
      | Some rest => strip_all fuel' seps rest
      | None => s
      end
  end.

(** [String.prototype.trimStart] and [String.prototype.trim]; the end is
    trimmed on the reversed bytes. *)
Definition trim_start (s : string) : string :=
  strip_all (String.length s) white_space s.

Definition trim (s : string) : string :=
  String.rev
    (strip_all (String.length s) (map String.rev white_space)
       (String.rev (trim_start s))).

(** ToBoolean. *)
Definition truthy_scalar (v : scalar) : bool :=
  match v with
  | Undefined | Null => false
  | Bool b => b
  | Num n => negb (Z.eqb n 0)
  | Str s => negb (String.eqb s "")
  end.

Definition truthy (v : jsval) : bool :=
  match v with
  | Scalar s => truthy_scalar s
  | Arr _ | Object _ => true
  end.

(** [a === b].  Arrays and objects are compared by reference; the values
    compared by the program come from different deserialised payloads, so
    two of them are never the same reference. *)
Definition strict_eq (a b : jsval) : bool :=
  match a, b with
  | Scalar x, Scalar y => bool_decide (x = y)
  | _, _ => false
  end.

(** The scalars whose text is given by [to_string] below: every scalar but
    the numbers from [10^21] on in absolute value, which JavaScript prints
    with an exponent. *)
Definition printable (v : scalar) : Prop :=
  match v with
  | Num n => Z.abs n < 10 ^ 21
  | _ => True
  end.

(** ToString, as a template literal applies it.  A number is printed in
    decimal, which is what JavaScript prints for an integer below [10^21]
    in absolute value; the statements that depend on the text of a number
    are limited to [printable] ones. *)
Definition to_string (v : scalar) : string :=
  match v with
  | Undefined => "undefined"
  | Null => "null"
  | Bool true => "true"
  | Bool false => "false"
  | Num n => pretty n
  | Str s => s
  end.

Definition elem_to_string (v : scalar) : string :=
  match v with
  | Undefined | Null => ""
  | _ => to_string v
  end.

Fixpoint join_comma (l : list string) : string :=
  match l with
  | [] => ""
  | [s] => s
  | s :: rest => s +:+ "," +:+ join_comma rest
  end.

Definition val_to_string (v : jsval) : string :=
  match v with
  | Scalar s => to_string s
  | Arr xs => join_comma (map elem_to_string xs)
  | Object _ => "[object Object]"
  end.

(** [o.k] on an object: a missing property reads as [undefined]. *)
Definition field (o : obj) (k : string) : jsval :=
  default (Scalar Undefined) (o !! k).

Definition sfield (o : gmap string scalar) (k : string) : scalar :=
  default Undefined (o !! k).

(** The argument a client passes with an event: a scalar or an object. *)
Inductive payload : Type :=
| PScalar (v : scalar)
| PObject (o : obj).

(** Parameter destructuring [({a, b}) => ...]: [undefined] and [null] raise
    a TypeError, any other scalar has none of the named properties. *)
Definition destructure (p : payload) : option obj :=
  match p with
  | PScalar Undefined | PScalar Null => None
  | PScalar _ => Some ∅
  | PObject o => Some o
  end.

(** [v.id]: a TypeError on [undefined] and [null]. *)
Definition get_id (v : jsval) : option scalar :=
  match v with
  | Scalar Undefined | Scalar Null => None
  | Scalar _ | Arr _ => Some Undefined
  | Object o => Some (sfield o "id")
  end.

(** [v.forEach(f)]: only arrays have the method. *)
Definition for_each_items (v : jsval) : option (list scalar) :=
  match v with
  | Arr xs => Some xs
  | _ => None
  end.

(** The characters of a string, each as a one-character string. *)
Definition chars (s : string) : list scalar :=
  let '(front, cs) := split_chars s in
  map Str (if String.eqb front "" then cs else front :: cs).

(** [[...v]]: arrays and strings are iterable, nothing else is. *)
Definition spread_items (v : jsval) : option (list scalar) :=
  match v with
  | Arr xs => Some xs
  | Scalar (Str s) => Some (chars s)
  | _ => None
  end.

(** ** The socket server ([backend/config/socket.js]) *)

Abbreviation SocketId := string.

(** A connected socket: [socket.id] and the [socket.userId] the
    authentication middleware stored on it. *)
Record Socket : Type := mkSocket { sock_id : SocketId; userId : scalar }.

(** A row of the [messageReaction] table, keyed by
    [messageId_userId_emoji]. *)
Record ReactionRow : Type :=
  mkReaction { r_messageId : jsval; r_userId : scalar; r_emoji : jsval }.

#[global] Instance ReactionRow_eq_dec : EqDecision ReactionRow.
Proof. solve_decision. Defined.

(** The [data] of [prisma.notification.create]. *)
Record NotificationData : Type := mkNotification {
  n_type : string;
  n_message : string;
  n_senderId : jsval;
  n_receiverId : jsval;
  n_isRead : bool;
  n_messageId : jsval;
  n_conversationId : jsval;
  n_messageText : string;
  n_messageType : jsval
}.

(** Process-wide state: the [connectedUsers] map of the module, the live
    sockets and room membership kept by Socket.io, and the two tables the
    handlers write through Prisma. *)
Record Server : Type := mkServer {
  connectedUsers : gmap scalar SocketId;
  sockets : gmap SocketId scalar;
  rooms : gmap scalar (gset SocketId);
  reactionTable : list ReactionRow;
  notificationTable : list NotificationData
}.

Definition initial_server : Server := mkServer ∅ ∅ ∅ [] [].

Definition set_connectedUsers (f : gmap scalar SocketId → gmap scalar SocketId)
    (st : Server) : Server :=
  mkServer (f (connectedUsers st)) (sockets st) (rooms st)
           (reactionTable st) (notificationTable st).

Definition set_sockets (f : gmap SocketId scalar → gmap SocketId scalar)
    (st : Server) : Server :=
  mkServer (connectedUsers st) (f (sockets st)) (rooms st)
           (reactionTable st) (notificationTable st).

Definition set_rooms (f : gmap scalar (gset SocketId) → gmap scalar (gset SocketId))
    (st : Server) : Server :=
  mkServer (connectedUsers st) (sockets st) (f (rooms st))
           (reactionTable st) (notificationTable st).

Definition set_reactionTable (f : list ReactionRow → list ReactionRow)
    (st : Server) : Server :=
  mkServer (connectedUsers st) (sockets st) (rooms st)
           (f (reactionTable st)) (notificationTable st).

Definition set_notificationTable
    (f : list NotificationData → list NotificationData) (st : Server) : Server :=
  mkServer (connectedUsers st) (sockets st) (rooms st)
           (reactionTable st) (f (notificationTable st)).

(** *** Rooms (Socket.io adapter) *)

(** The rooms named by the argument of [join] and [to]: one room, or an
    array of rooms.  An object names no room another socket can reach. *)
Definition rooms_of (v : jsval) : list scalar :=
  match v with
  | Scalar s => [s]
  | Arr xs => xs
  | Object _ => []
  end.

Definition members (st : Server) (room : scalar) : gset SocketId :=
  default ∅ (rooms st !! room).

Definition join_room (sid : SocketId) (room : scalar)
    (rs : gmap scalar (gset SocketId)) : gmap scalar (gset SocketId) :=
  <[room := {[sid]} ∪ default ∅ (rs !! room)]> rs.

Definition leave_room (sid : SocketId) (room : scalar)
    (rs : gmap scalar (gset SocketId)) : gmap scalar (gset SocketId) :=
  match rs !! room with
  | Some s => <[room := s ∖ {[sid]}]> rs
  | None => rs
  end.

Definition socket_join (sid : SocketId) (v : jsval) (st : Server) : Server :=
  set_rooms (fun rs => foldr (join_room sid) rs (rooms_of v)) st.

(** [socket.leave(room)] takes one room: an array or an object is a room
    name no socket is in. *)
Definition socket_leave (sid : SocketId) (v : jsval) (st : Server) : Server :=
  match v with
  | Scalar room => set_rooms (leave_room sid room) st
  | Arr _ | Object _ => st
  end.

Definition leave_all (sid : SocketId) (st : Server) : Server :=
  set_rooms (fmap (fun s : gset SocketId => s ∖ {[sid]})) st.

(** The personal room [`user_${userId}`]. *)
Definition user_room (uid : jsval) : jsval :=
  Scalar (Str ("user_" +:+ val_to_string uid)).

(** *** Effects of a handler *)

Inductive target : Type :=
| ToRoomExcept (room : jsval) (sender : SocketId)  (* socket.to(room) *)
| ToRoom (room : jsval)                            (* io.to(room) *)
| BroadcastExcept (sender : SocketId).             (* socket.broadcast *)

Inductive out : Type :=
| OutVal (v : jsval)
| OutObj (o : obj).

Inductive effect : Type :=
| Emit (t : target) (event : string) (data : out)
| Log (tag : string)
| LogError (tag : string)
| ConnectError (sid : SocketId) (err : string).  (* connect_error sent to the client *)

(** How a handler ends: it returns, or an exception leaves it uncaught (for
    an [async] handler, its promise is rejected). *)
Inductive completion : Type :=
| Returned
| Threw (err : string).

Record result : Type := mkResult {
  state : Server;
  effects : list effect;
  outcome : completion
}.

Definition type_error (st : Server) (done : list effect) : result :=
  mkResult st done (Threw "TypeError").

Definition is_emit (e : effect) : bool :=
  match e with Emit _ _ _ => true | _ => false end.


Definition emits (r : result) : list effect := List.filter is_emit (effects r).

(** The sockets an emit to [room] reaches: the members of the rooms named;
    with an empty array no room is named, and Socket.io then reaches every
    live socket. *)
Definition in_rooms (st : Server) (room : jsval) : gset SocketId :=
  match room with
  | Arr [] => dom (sockets st)
  | _ => foldr (fun r acc => members st r ∪ acc) ∅ (rooms_of room)
  end.

(** [socket.to(room)] and [socket.broadcast] leave out the sending socket;
    [io.to(room)] does not. *)
Definition recipients (st : Server) (t : target) : gset SocketId :=
  match t with
  | ToRoomExcept room sender => in_rooms st room ∖ {[sender]}
  | ToRoom room => in_rooms st room
  | BroadcastExcept sender => dom (sockets st) ∖ {[sender]}
  end.

(** What one socket receives from a run of effects, in order. *)
Fixpoint deliveries (st : Server) (c : SocketId) (es : list effect)
    : list (string * out) :=
  match es with
  | [] => []
  | Emit t ev d :: rest =>
      if bool_decide (c ∈ recipients st t)
      then (ev, d) :: deliveries st c rest
      else deliveries st c rest
  | _ :: rest => deliveries st c rest
  end.

(** *** Authentication middleware and connection *)

Inductive handshake : Type :=
| Refused (err : string)
| Accepted (uid : scalar).

Inductive connection : Type :=
| Rejected (err : string) (st : Server)
| Established (sock : Socket) (r : result).

(** [io.on('connection')] up to the registration of the listeners: log,
    join the personal room, store the socket id under the user id.
    Socket.io has added the socket to its live sockets before, and to the
    room named by its own id. *)
Definition on_connection (st : Server) (sock : Socket) : result :=
  let st0 := set_sockets <[sock_id sock := userId sock]> st in
  let st1 := socket_join (sock_id sock) (Scalar (Str (sock_id sock))) st0 in
  let st2 := socket_join (sock_id sock) (user_room (Scalar (userId sock))) st1 in
  let st3 := set_connectedUsers <[userId sock := sock_id sock]> st2 in
  mkResult st3 [Log "User connected"] Returned.

Section Authentication.

(** [jwt.verify(token, process.env.SECRET_KEY)] on a string: the decoded
    claims, or [None] when it throws. *)
Variable jwt_verify : string → option (gmap string scalar).

(** [io.use((socket, next) => ...)].  [jwt.verify] throws on a token that
    is not a string; the [catch] turns every throw into the same error. *)
Definition auth_middleware (token : scalar) : handshake :=
  if negb (truthy_scalar token) then Refused "Authentication error"
  else
    match token with
    | Str t =>
        match jwt_verify t with
        | Some decoded => Accepted (sfield decoded "userId")
        | None => Refused "Authentication error"
        end
    | _ => Refused "Authentication error"
    end.

(** A connection attempt: the connection handler runs only when the
    middleware called [next()] without an error. *)
Definition connect (st : Server) (sid : SocketId) (token : scalar) : connection :=
  match auth_middleware token with
  | Refused err => Rejected err st
  | Accepted uid => Established (mkSocket sid uid) (on_connection st (mkSocket sid uid))
  end.

End Authentication.

(** [getReceiverSocketId]: [None] is [undefined]. *)
Definition getReceiverSocketId (st : Server) (uid : scalar) : option SocketId :=
  connectedUsers st !! uid.

(** *** Event handlers *)

Definition on_joinConversation (st : Server) (sock : Socket) (arg : payload) : result :=
  match destructure arg with
  | None => type_error st []
  | Some p =>
      mkResult (socket_join (sock_id sock) (field p "conversationId") st)
               [Log "joined conversation"] Returned
  end.

Definition on_leaveConversation (st : Server) (sock : Socket) (arg : payload) : result :=
  match destructure arg with
  | None => type_error st []
  | Some p =>
      mkResult (socket_leave (sock_id sock) (field p "conversationId") st)
               [Log "left conversation"] Returned
  end.

(** What the awaited calls of the notification block do. *)
Inductive notify_env : Type :=
| NotifyImportFails
| NotifyCreateFails
| NotifyCreated (notification : obj) (disconnect_ok : bool).

(** [messageData.message?.substring(0, 50) +
     (messageData.message?.length > 50 ? '...' : '')]; [None] is the
    TypeError of calling a missing [substring]. *)
Definition message_text (m : jsval) : option string :=
  match m with
  | Scalar Undefined | Scalar Null => Some "undefined"
  | Scalar (Str s) =>
      Some (utf16_take 50 s
            +:+ (if Nat.ltb 50 (utf16_length s) then "..." else ""))
  | _ => None
  end.

Definition or_default (v : jsval) (d : jsval) : jsval :=
  if truthy v then v else d.

Definition notification_data (m : obj) : option NotificationData :=
  match message_text (field m "message") with
  | None => None
  | Some text =>
      Some {| n_type := "message";
              n_message :=
                val_to_string (or_default (field m "senderName") (Scalar (Str "Someone")))
                +:+ " sent you a message";
              n_senderId := field m "senderId";
              n_receiverId := field m "receiverId";
              n_isRead := false;
              n_messageId := field m "id";
              n_conversationId := field m "conversationId";
              n_messageText := text;
              n_messageType := or_default (field m "type") (Scalar (Str "text")) |}
  end.

Definition notify_error : effect := LogError "Error creating message notification:".

(** The [try { ... } catch (error) { console.error(...) }] of [sendMessage]. *)
Definition create_notification (st : Server) (sock : Socket) (m : obj)
    (env : notify_env) : Server * list effect :=
  match env with
  | NotifyImportFails => (st, [notify_error])
  | NotifyCreateFails => (st, [notify_error])
  | NotifyCreated n disconnect_ok =>
      match notification_data m with
      | None => (st, [notify_error])
      | Some d =>
          (set_notificationTable (fun t => t ++ [d]) st,
           Emit (ToRoomExcept (user_room (field m "receiverId")) (sock_id sock))
                "newNotification" (OutObj n)
           :: (if disconnect_ok then [] else [notify_error]))
      end
  end.

Definition notification_wanted (m : obj) : bool :=
  truthy (field m "receiverId")
  && negb (strict_eq (field m "senderId") (field m "receiverId")).

Definition message_fanout (sock : Socket) (m : obj) : list effect :=
  if truthy (field m "conversationId")
  then [Emit (ToRoomExcept (field m "conversationId") (sock_id sock))
             "receiveMessage" (OutObj m);
        Emit (ToRoom (field m "conversationId")) "receiveMessage" (OutObj m)]
  else [].

Definition on_sendMessage (st : Server) (sock : Socket) (messageData : payload)
    (env : notify_env) : result :=
  match destructure messageData with
  | None => type_error st [Log "Socket received message:"]
  | Some m =>
      if notification_wanted m
      then
        let '(st', es) := create_notification st sock m env in
        mkResult st' (Log "Socket received message:" :: message_fanout sock m ++ es)
                 Returned
      else
        mkResult st (Log "Socket received message:" :: message_fanout sock m)
                 Returned
  end.

Definition on_typing (st : Server) (sock : Socket) (arg : payload) : result :=
  match destructure arg with
  | None => type_error st []
  | Some p =>
      mkResult st
        [Emit (ToRoomExcept (field p "conversationId") (sock_id sock)) "userTyping"
              (OutObj {[ "userId" := Scalar (userId sock);
                         "isTyping" := field p "isTyping" ]})]
        Returned
  end.

Definition on_updateStatus (st : Server) (sock : Socket) (arg : payload) : result :=
  match destructure arg with
  | None => type_error st []
  | Some p =>
      mkResult st
        [Emit (BroadcastExcept (sock_id sock)) "userStatusUpdate"
              (OutObj {[ "userId" := Scalar (userId sock);
                         "status" := field p "status" ]})]
        Returned
  end.

Definition on_deleteMessage (st : Server) (sock : Socket) (arg : payload) : result :=
  match destructure arg with
  | None => type_error st []
  | Some p =>
      mkResult st
        [Emit (ToRoomExcept (field p "conversationId") (sock_id sock)) "messageDeleted"
              (OutObj {[ "messageId" := field p "messageId" ]})]
        Returned
  end.

(** *** Reactions *)

(** What the awaited calls of the reaction block do: all resolve, or the
    dynamic import, the write, or [$disconnect] rejects. *)
Inductive db_env : Type :=
| DbOk
| DbImportFails
| DbWriteFails
| DbDisconnectFails.

(** Modelled from the spec: the Prisma schema of the [messageReaction]
    table is not part of the sources; the handler addresses it through the
    compound unique key [messageId_userId_emoji].  An upsert with an empty
    [update] leaves an existing row as it is and creates the row otherwise
    ("repeated add is idempotent (upsert)"); [deleteMany] removes every
    matching row ("remove deletes if present and is a no-op otherwise"). *)
Definition upsert_reaction (row : ReactionRow) (t : list ReactionRow)
    : list ReactionRow :=
  if bool_decide (row ∈ t) then t else t ++ [row].

Definition deleteMany_reaction (row : ReactionRow) (t : list ReactionRow)
    : list ReactionRow :=
  filter (fun r => r ≠ row) t.

Definition is_action (name : string) (action : jsval) : bool :=
  strict_eq action (Scalar (Str name)).

(** The write the handler issues for an action, if any. *)
Definition reaction_write (action : jsval) (row : ReactionRow)
    : option (list ReactionRow → list ReactionRow) :=
  if is_action "add" action then Some (upsert_reaction row)
  else if is_action "remove" action then Some (deleteMany_reaction row)
  else None.

Definition reaction_error : effect := LogError "Error handling reaction in database:".

(** The [try { ... } catch (error) { console.error(...) }] of
    [messageReaction]. *)
Definition persist_reaction (st : Server) (action : jsval) (row : ReactionRow)
    (env : db_env) : Server * list effect :=
  match env with
  | DbImportFails => (st, [reaction_error])
  | DbWriteFails =>
      match reaction_write action row with
      | Some _ => (st, [reaction_error])
      | None => (st, [])
      end
  | DbDisconnectFails =>
      (set_reactionTable (default (fun t => t) (reaction_write action row)) st,
       [reaction_error])
  | DbOk =>
      (set_reactionTable (default (fun t => t) (reaction_write action row)) st, [])
  end.

Definition reaction_row (sock : Socket) (p : obj) : ReactionRow :=
  mkReaction (field p "messageId") (userId sock) (field p "emoji").

Definition reaction_broadcast (sock : Socket) (p : obj) : effect :=
  Emit (ToRoom (field p "conversationId")) "messageReaction"
       (OutObj {[ "messageId" := field p "messageId";
                  "emoji" := field p "emoji";
                  "action" := field p "action";
                  "userId" := Scalar (userId sock) ]}).

Definition on_messageReaction (st : Server) (sock : Socket) (arg : payload)
    (env : db_env) : result :=
  match destructure arg with
  | None => type_error st []
  | Some p =>
      let '(st', es) :=
        persist_reaction st (field p "action") (reaction_row sock p) env in
      mkResult st' (Log "Message reaction:" :: es ++ [reaction_broadcast sock p])
               Returned
  end.

(** *** The reaction handler between its awaits

    [messageReaction] is an [async] listener: it runs up to each [await],
    and listeners of other events run in between.  A [task] is what
    happens atomically: a stretch of the handler that only logs and emits,
    or the write the database executes. *)
Inductive task : Type :=
| TEffects (es : list effect)
| TWrite (w : list ReactionRow → list ReactionRow).

Definition run_task (t : task) (s : Server * list effect) : Server * list effect :=
  match t with
  | TEffects es => (fst s, snd s ++ es)
  | TWrite w => (set_reactionTable w (fst s), snd s)
  end.

Definition run_tasks (ts : list task) (s : Server * list effect) : Server * list effect :=
  foldl (fun acc t => run_task t acc) s ts.

Definition write_task (action : jsval) (row : ReactionRow) : list task :=
  match reaction_write action row with
  | Some w => [TWrite w]
  | None => []
  end.

Definition reaction_tasks (sock : Socket) (p : obj) (env : db_env) : list task :=
  let row := reaction_row sock p in
  let action := field p "action" in
  let start := TEffects [Log "Message reaction:"] in
  let finish := fun es => TEffects (es ++ [reaction_broadcast sock p]) in
  match env with
  | DbImportFails => [start; finish [reaction_error]]
  | DbWriteFails =>
      match reaction_write action row with
      | Some _ => [start; finish [reaction_error]]
      | None => [start; finish []]
      end
  | DbDisconnectFails => start :: write_task action row ++ [finish [reaction_error]]
  | DbOk => start :: write_task action row ++ [finish []]
  end.

(** The schedules of several handlers: each keeps its own order. *)
Inductive interleaving {A : Type} : list (list A) → list A → Prop :=
| interleaving_done (ls : list (list A)) :
    Forall (fun l => l = []) ls → interleaving ls []
| interleaving_step (before : list (list A)) (x : A) (l : list A)
    (after : list (list A)) (rest : list A) :
    interleaving (before ++ l :: after) rest →
    interleaving (before ++ (x :: l) :: after) (x :: rest).

(** One reaction event as it reaches the server: the socket, the payload
    and what the database does. *)
Definition reaction_event : Type := Socket * obj * db_env.

Definition tasks_of (ev : reaction_event) : list task :=
  let '(sock, p, env) := ev in reaction_tasks sock p env.

(** The events handled one after the other. *)
Definition handle_all (st : Server) (evs : list reaction_event) : Server * list effect :=
  foldl (fun acc ev =>
           let '(sock, p, env) := ev in
           let r := on_messageReaction (fst acc) sock (PObject p) env in
           (state r, snd acc ++ effects r))
        (st, []) evs.

(** *** Group events *)

(** [items.forEach(participantId =>
      socket.to(`user_${participantId}`).emit(event, data))]. *)
Definition emit_each (sock : Socket) (items : list jsval) (event : string)
    (data : out) : list effect :=
  map (fun participantId =>
         Emit (ToRoomExcept (user_room participantId) (sock_id sock)) event data)
      items.

Definition on_groupCreated (st : Server) (sock : Socket) (arg : payload) : result :=
  match destructure arg with
  | None => type_error st []
  | Some p =>
      match get_id (field p "group") with
      | None => type_error st []
      | Some _ =>
          match for_each_items (field p "participantIds") with
          | None => type_error st [Log "Group created:"]
          | Some ids =>
              mkResult st
                (Log "Group created:"
                 :: emit_each sock (map Scalar ids) "newGroup" (OutVal (field p "group")))
                Returned
          end
      end
  end.

Definition on_groupUpdated (st : Server) (sock : Socket) (arg : payload) : result :=
  match destructure arg with
  | None => type_error st []
  | Some p =>
      match get_id (field p "group") with
      | None => type_error st []
      | Some _ =>
          match for_each_items (field p "participantIds") with
          | None => type_error st [Log "Group updated:"]
          | Some ids =>
              mkResult st
                (Log "Group updated:"
                 :: emit_each sock (map Scalar ids) "groupUpdate" (OutVal (field p "group")))
                Returned
          end
      end
  end.

Definition on_memberAdded (st : Server) (sock : Socket) (arg : payload) : result :=
  match destructure arg with
  | None => type_error st []
  | Some p =>
      match get_id (field p "group") with
      | None => type_error st []
      | Some _ =>
          match spread_items (field p "participantIds") with
          | None => type_error st [Log "Member added to group:"]
          | Some ids =>
              mkResult st
                (Log "Member added to group:"
                 :: emit_each sock (map Scalar ids ++ [field p "newMemberId"])
                      "groupMemberAdded"
                      (OutObj {[ "group" := field p "group";
                                 "newMemberId" := field p "newMemberId" ]}))
                Returned
          end
      end
  end.

Definition on_memberRemoved (st : Server) (sock : Socket) (arg : payload) : result :=
  match destructure arg with
  | None => type_error st []
  | Some p =>
      match get_id (field p "group") with
      | None => type_error st []
      | Some _ =>
          match for_each_items (field p "participantIds") with
          | None => type_error st [Log "Member removed from group:"]
          | Some ids =>
              mkResult st
                (Log "Member removed from group:"
                 :: emit_each sock (map Scalar ids) "groupMemberRemoved"
                      (OutObj {[ "group" := field p "group";
                                 "removedMemberId" := field p "removedMemberId" ]})
                 ++ [Emit (ToRoomExcept (user_room (field p "removedMemberId"))
                                        (sock_id sock))
                          "removedFromGroup"
                          (OutObj {[ "group" := field p "group" ]})])
                Returned
          end
      end
  end.

Definition on_groupDeleted (st : Server) (sock : Socket) (arg : payload) : result :=
  match destructure arg with
  | None => type_error st []
  | Some p =>
      match for_each_items (field p "participantIds") with
      | None => type_error st [Log "Group deleted:"]
      | Some ids =>
          mkResult st
            (Log "Group deleted:"
             :: emit_each sock (map Scalar ids) "groupDeleted"
                  (OutObj {[ "groupId" := field p "groupId" ]}))
            Returned
      end
  end.

Definition on_adminRoleChanged (st : Server) (sock : Socket) (arg : payload) : result :=
  match destructure arg with
  | None => type_error st []
  | Some p =>
      match get_id (field p "group") with
      | None => type_error st []
      | Some _ =>
          match for_each_items (field p "participantIds") with
          | None => type_error st [Log "Admin role changed:"]
          | Some ids =>
              mkResult st
                (Log "Admin role changed:"
                 :: emit_each sock (map Scalar ids) "groupAdminChanged"
                      (OutObj {[ "group" := field p "group";
                                 "userId" := field p "userId";
                                 "action" := field p "action" ]}))
                Returned
          end
      end
  end.

(** *** Disconnect *)

Definition offline_status (uid : scalar) : out :=
  OutObj {[ "userId" := Scalar uid; "status" := Scalar (Str "offline") ]}.

(** [socket.on('disconnect')].  Socket.io has dropped the socket from its
    live sockets and from every room before the listener runs. *)
Definition on_disconnect (st : Server) (sock : Socket) : result :=
  let st1 := leave_all (sock_id sock) (set_sockets (delete (sock_id sock)) st) in
  mkResult (set_connectedUsers (delete (userId sock)) st1)
           [Log "User disconnected";
            Emit (BroadcastExcept (sock_id sock)) "userStatusUpdate"
                 (offline_status (userId sock))]
           Returned.

(** *** The dispatcher *)

(** What the awaited collaborators do while one event is handled. *)
Record environment : Type := mkEnv { notify : notify_env; db : db_env }.

Definition dispatch (st : Server) (sock : Socket) (name : string) (arg : payload)
    (env : environment) : result :=
  if String.eqb name "joinConversation" then on_joinConversation st sock arg
  else if String.eqb name "leaveConversation" then on_leaveConversation st sock arg
  else if String.eqb name "sendMessage" then on_sendMessage st sock arg (notify env)
  else if String.eqb name "typing" then on_typing st sock arg
  else if String.eqb name "updateStatus" then on_updateStatus st sock arg
  else if String.eqb name "deleteMessage" then on_deleteMessage st sock arg
  else if String.eqb name "messageReaction" then on_messageReaction st sock arg (db env)
  else if String.eqb name "groupCreated" then on_groupCreated st sock arg
  else if String.eqb name "groupUpdated" then on_groupUpdated st sock arg
  else if String.eqb name "memberAdded" then on_memberAdded st sock arg
  else if String.eqb name "memberRemoved" then on_memberRemoved st sock arg
  else if String.eqb name "groupDeleted" then on_groupDeleted st sock arg
  else if String.eqb name "adminRoleChanged" then on_adminRoleChanged st sock arg
  else mkResult st [] Returned.

(** What reaches the server from the network. *)
Inductive client_event : Type :=
| Connect (sid : SocketId) (token : scalar)
| Incoming (sid : SocketId) (name : string) (arg : payload) (env : environment)
| Disconnect (sid : SocketId).

Section Run.

Variable jwt_verify : string → option (gmap string scalar).

(** Listeners exist only on sockets the connection handler has seen;
    packets for any other socket id find no listener. *)
Definition step (st : Server) (ev : client_event) : result :=
  match ev with
  | Connect sid token =>
      match connect jwt_verify st sid token with
      | Rejected err st' => mkResult st' [ConnectError sid err] Returned
      | Established _ r => r
      end
  | Incoming sid name arg env =>
      match sockets st !! sid with
      | Some uid => dispatch st (mkSocket sid uid) name arg env
      | None => mkResult st [] Returned
      end
  | Disconnect sid =>
      match sockets st !! sid with
      | Some uid => on_disconnect st (mkSocket sid uid)
      | None => mkResult st [] Returned
      end
  end.

(** The server along a trace.  Nothing catches an exception that leaves a
    listener: no handler in [socket.js] has a [try] around its body, and
    neither file of the server registers a handler for [uncaughtException]
    or [unhandledRejection], so Node.js ends the process (for the rejected
    promise of an [async] listener, by its default since version 15).  The
    events after it are not handled. *)
Fixpoint run (st : Server) (evs : list client_event) : Server * list effect :=
  match evs with
  | [] => (st, [])
  | ev :: rest =>
      let r := step st ev in
      match outcome r with
      | Returned =>
          let '(st', es) := run (state r) rest in
          (st', effects r ++ es)
      | Threw _ => (state r, effects r)
      end
  end.

End Run.

(** ** The messaging hub (client reconciliation)

    The state and reducers of [UltimateMessagingHub]: the message list of
    the selected conversation, the separate list of the AI conversation,
    the conversation list and the reaction mapping. *)

Record Participant : Type := mkParticipant {
  p_user : option (gmap string scalar);   (* p.user *)
  p_userId : scalar                       (* p.userId *)
}.

Record Conversation : Type := mkConversation {
  c_id : jsval;
  isAI : jsval;
  isGroup : jsval;
  participants : option (list Participant)
}.

(** An entry of the conversation list. *)
Record ConvEntry : Type := mkConvEntry {
  e_id : jsval;
  e_lastMessage : option obj;
  e_updatedAt : jsval;
  e_unreadCount : Z
}.

Record Hub : Type := mkHub {
  selectedConversation : option Conversation;
  messages : list obj;
  aiMessages : list obj;
  conversations : list ConvEntry;
  messageReactions : gmap string (gmap string (list jsval));
  newMessage : string;
  selectedFile : option string;           (* the name of the chosen file *)
  isUploading : bool;
  sent : list obj;                        (* sendMessage events put on the socket *)
  typingUsers : list jsval;
  onlineUsers : gset jsval;
  (* the selectedConversation of the render in which the socket listeners
     were registered; their closures read this one *)
  listener_selection : option Conversation
}.

Definition set_messages (f : list obj → list obj) (h : Hub) : Hub :=
  mkHub (selectedConversation h) (f (messages h)) (aiMessages h) (conversations h)
        (messageReactions h) (newMessage h) (selectedFile h) (isUploading h) (sent h)
        (typingUsers h) (onlineUsers h)
        (listener_selection h).

Definition set_aiMessages (f : list obj → list obj) (h : Hub) : Hub :=
  mkHub (selectedConversation h) (messages h) (f (aiMessages h)) (conversations h)
        (messageReactions h) (newMessage h) (selectedFile h) (isUploading h) (sent h)
        (typingUsers h) (onlineUsers h)
        (listener_selection h).

Definition set_conversations (f : list ConvEntry → list ConvEntry) (h : Hub) : Hub :=
  mkHub (selectedConversation h) (messages h) (aiMessages h) (f (conversations h))
        (messageReactions h) (newMessage h) (selectedFile h) (isUploading h) (sent h)
        (typingUsers h) (onlineUsers h)
        (listener_selection h).

Definition set_messageReactions
    (f : gmap string (gmap string (list jsval)) → gmap string (gmap string (list jsval)))
    (h : Hub) : Hub :=
  mkHub (selectedConversation h) (messages h) (aiMessages h) (conversations h)
        (f (messageReactions h)) (newMessage h) (selectedFile h) (isUploading h) (sent h)
        (typingUsers h) (onlineUsers h)
        (listener_selection h).

Definition set_input (text : string) (file : option string) (h : Hub) : Hub :=
  mkHub (selectedConversation h) (messages h) (aiMessages h) (conversations h)
        (messageReactions h) text file (isUploading h) (sent h)
        (typingUsers h) (onlineUsers h)
        (listener_selection h).

Definition set_isUploading (b : bool) (h : Hub) : Hub :=
  mkHub (selectedConversation h) (messages h) (aiMessages h) (conversations h)
        (messageReactions h) (newMessage h) (selectedFile h) b (sent h)
        (typingUsers h) (onlineUsers h)
        (listener_selection h).

Definition socket_emit (m : obj) (h : Hub) : Hub :=
  mkHub (selectedConversation h) (messages h) (aiMessages h) (conversations h)
        (messageReactions h) (newMessage h) (selectedFile h) (isUploading h)
        (sent h ++ [m]) (typingUsers h) (onlineUsers h)
        (listener_selection h).

Definition set_typingUsers (f : list jsval → list jsval) (h : Hub) : Hub :=
  mkHub (selectedConversation h) (messages h) (aiMessages h) (conversations h)
        (messageReactions h) (newMessage h) (selectedFile h) (isUploading h) (sent h)
        (f (typingUsers h)) (onlineUsers h) (listener_selection h).

Definition set_onlineUsers (f : gset jsval → gset jsval) (h : Hub) : Hub :=
  mkHub (selectedConversation h) (messages h) (aiMessages h) (conversations h)
        (messageReactions h) (newMessage h) (selectedFile h) (isUploading h) (sent h)
        (typingUsers h) (f (onlineUsers h)) (listener_selection h).

(** [conversation?.id] and [conversation?.isAI]. *)
Definition conv_id (c : option Conversation) : jsval :=
  match c with
  | Some c => c_id c
  | None => Scalar Undefined
  end.

Definition conv_isAI (c : option Conversation) : jsval :=
  match c with
  | Some c => isAI c
  | None => Scalar Undefined
  end.

(** [selectedConversation?.id] and [selectedConversation?.isAI] in the
    current render. *)
Definition selected_id (h : Hub) : jsval := conv_id (selectedConversation h).


(** The socket listeners are registered by an effect with the dependencies
    [[socket, user]]: they keep the functions, and with them the
    [selectedConversation], of the render in which the effect ran last. *)
Definition register_listeners (h : Hub) : Hub :=
  mkHub (selectedConversation h) (messages h) (aiMessages h) (conversations h)
        (messageReactions h) (newMessage h) (selectedFile h) (isUploading h) (sent h)
        (typingUsers h) (onlineUsers h) (selectedConversation h).

(** The hub as it is mounted: nothing selected, nothing loaded, no
    listener registered yet. *)
Definition mounted_hub : Hub := mkHub None [] [] [] ∅ "" None false [] [] ∅ None.

Section Reconciliation.

(** [Date.parse] on a string: milliseconds since the epoch, [None] for
    an invalid date. *)
Variable parseDate : string → option Z.

(** The time value of [new Date(v)]; [None] is NaN. *)
Definition date_value (v : jsval) : option Z :=
  match v with
  | Scalar Undefined => None
  | Scalar Null => Some 0
  | Scalar (Bool b) => Some (if b then 1 else 0)
  | Scalar (Num n) => if Z.abs n <=? 8640000000000000 then Some n else None
  | Scalar (Str s) => parseDate s
  | Arr _ | Object _ => parseDate (val_to_string v)
  end.

(** [Math.abs(new Date(a) - new Date(b)) < 5000]; false on NaN. *)
Definition within_window (a b : jsval) : bool :=
  match date_value a, date_value b with
  | Some x, Some y => Z.abs (x - y) <? 5000
  | _, _ => false
  end.

(** The predicate of [prev.find(m => ...)] in [handleNewMessage]. *)
Definition is_duplicate (message m : obj) : bool :=
  strict_eq (field m "id") (field message "id")
  || (truthy (field m "tempId")
      && strict_eq (field m "tempId") (field message "tempId"))
  || (strict_eq (field m "message") (field message "message")
      && strict_eq (field m "senderId") (field message "senderId")
      && within_window (field m "createdAt") (field message "createdAt")).

(** The updater passed to [setMessages]: [find] yields the first match,
    an object and so truthy, or [undefined]. *)
Definition append_unless_duplicate (message : obj) (prev : list obj) : list obj :=
  match List.find (is_duplicate message) prev with
  | Some _ => prev
  | None => prev ++ [message]
  end.

Definition touch_conversation (message : obj) (unread : bool) (conv : ConvEntry)
    : ConvEntry :=
  if strict_eq (e_id conv) (field message "conversationId")
  then mkConvEntry (e_id conv) (Some message) (field message "createdAt")
                   (if unread then e_unreadCount conv + 1 else e_unreadCount conv)
  else conv.

(** [handleNewMessage] of one render, whose [selectedConversation] is
    [selected]; the updaters act on the state as it is when they run. *)
Definition handleNewMessage (selected : option Conversation) (message : obj) (h : Hub)
    : Hub :=
  if truthy (conv_isAI selected) then h
  else if strict_eq (field message "conversationId") (conv_id selected)
          && negb (truthy (conv_isAI selected))
  then set_conversations (map (touch_conversation message false))
         (set_messages (append_unless_duplicate message) h)
  else set_conversations (map (touch_conversation message true)) h.

End Reconciliation.

(** *** Reactions on the client *)

(** [users.includes(userId)]. *)
Definition includes (users : list jsval) (userId : jsval) : bool :=
  existsb (strict_eq userId) users.

Definition without (userId : jsval) (users : list jsval) : list jsval :=
  List.filter (fun id => negb (strict_eq id userId)) users.

(** The reaction mapping is a plain object, and so is each of its
    entries: a key they do not own is looked up in [Object.prototype].
    These are its members; all but [__proto__] are functions, and
    [__proto__] reads as the prototype itself. *)
Definition prototype_members : list string :=
  ["constructor"; "__defineGetter__"; "__defineSetter__"; "hasOwnProperty";
   "__lookupGetter__"; "__lookupSetter__"; "isPrototypeOf"; "propertyIsEnumerable";
   "toString"; "valueOf"; "__proto__"; "toLocaleString"].

Definition inherited (key : string) : bool :=
  existsb (String.eqb key) prototype_members.

(** The own entry [prev[messageId][emoji]], empty when there is none;
    property keys are strings. *)
Definition own_users (prev : gmap string (gmap string (list jsval)))
    (messageId emoji : jsval) : list jsval :=
  default [] (default ∅ (prev !! val_to_string messageId) !! val_to_string emoji).

(** [(prev[messageId] || {})[emoji] || []] as [handleMessageReactionFromSocket]
    goes on to use it.  Under an emoji that names a member of
    [Object.prototype] and that the entry does not own, the value is that
    member: it is truthy and has neither [includes] nor [filter], so the
    updater throws a TypeError ([None]).  For a message id of that kind
    that the mapping does not own, [prev[messageId]] is the member itself
    and what follows depends on its properties: the model stops there
    (also [None]). *)
Definition reaction_users (prev : gmap string (gmap string (list jsval)))
    (messageId emoji : jsval) : option (list jsval) :=
  match prev !! val_to_string messageId with
  | Some reactions =>
      match reactions !! val_to_string emoji with
      | Some users => Some users
      | None => if inherited (val_to_string emoji) then None else Some []
      end
  | None =>
      if inherited (val_to_string messageId) || inherited (val_to_string emoji)
      then None else Some []
  end.

(** [{...prev, [messageId]: {...currentReactions, [emoji]: users}}]. *)
Definition set_reaction_users (prev : gmap string (gmap string (list jsval)))
    (messageId emoji : jsval) (users : list jsval)
    : gmap string (gmap string (list jsval)) :=
  <[val_to_string messageId :=
      <[val_to_string emoji := users]> (default ∅ (prev !! val_to_string messageId))]>
    prev.

(** The three branches of [handleMessageReactionFromSocket]. *)
Definition updated_users (action userId : jsval) (currentEmojiUsers : list jsval)
    : list jsval :=
  if is_action "add" action then
    if includes currentEmojiUsers userId then currentEmojiUsers
    else currentEmojiUsers ++ [userId]
  else if is_action "remove" action then
    without userId currentEmojiUsers
  else
    if includes currentEmojiUsers userId then without userId currentEmojiUsers
    else currentEmojiUsers ++ [userId].

(** The updater of [handleMessageReactionFromSocket]; [None] when it
    throws. *)
Definition apply_reaction (data : obj)
    (prev : gmap string (gmap string (list jsval)))
    : option (gmap string (gmap string (list jsval))) :=
  let messageId := field data "messageId" in
  let emoji := field data "emoji" in
  match reaction_users prev messageId emoji with
  | None => None
  | Some currentEmojiUsers =>
      Some (set_reaction_users prev messageId emoji
              (updated_users (field data "action") (field data "userId")
                 currentEmojiUsers))
  end.

(** A state updater runs while React renders: when it throws, the
    component is unmounted and the hub is gone ([None]). *)
Definition update_messageReactions
    (f : gmap string (gmap string (list jsval))
         → option (gmap string (gmap string (list jsval))))
    (h : Hub) : option Hub :=
  match f (messageReactions h) with
  | Some next => Some (set_messageReactions (fun _ => next) h)
  | None => None
  end.

Definition handleMessageReactionFromSocket (data : obj) (h : Hub) : option Hub :=
  update_messageReactions (apply_reaction data) h.

(** [prev[messageId]?.[emoji] || []] of the optimistic updaters: a message
    the mapping has no entry for reads as no users, whatever the emoji;
    the spread of an inherited member, and [filter] on it, throw. *)
Definition optimistic_users (prev : gmap string (gmap string (list jsval)))
    (messageId emoji : jsval) : option (list jsval) :=
  match prev !! val_to_string messageId with
  | Some reactions =>
      match reactions !! val_to_string emoji with
      | Some users => Some users
      | None => if inherited (val_to_string emoji) then None else Some []
      end
  | None => if inherited (val_to_string messageId) then None else Some []
  end.

(** The optimistic updates of [onAddReaction] and [onRemoveReaction]. *)
Definition onAddReaction_optimistic (user_id messageId emoji : jsval) (h : Hub)
    : option Hub :=
  update_messageReactions
    (fun prev =>
       match optimistic_users prev messageId emoji with
       | Some users => Some (set_reaction_users prev messageId emoji (users ++ [user_id]))
       | None => None
       end) h.

Definition onRemoveReaction_optimistic (user_id messageId emoji : jsval) (h : Hub)
    : option Hub :=
  update_messageReactions
    (fun prev =>
       match optimistic_users prev messageId emoji with
       | Some users =>
           Some (set_reaction_users prev messageId emoji (without user_id users))
       | None => None
       end) h.

(** The event [onAddReaction] and [onRemoveReaction] put on the socket. *)
Definition reaction_request (action : string) (messageId emoji conversationId : jsval)
    : obj :=
  {[ "messageId" := messageId; "emoji" := emoji;
     "action" := Scalar (Str action); "conversationId" := conversationId ]}.

(** [onAddReaction(messageId, emoji)] of the current render: the optimistic
    update, then the event put on the socket when the socket is set. *)
Definition onAddReaction (user : gmap string scalar) (socket_set : bool)
    (messageId emoji : jsval) (h : Hub) : option (Hub * list (string * obj)) :=
  match onAddReaction_optimistic (Scalar (sfield user "id")) messageId emoji h with
  | None => None
  | Some h' =>
      Some (h',
            match selectedConversation h with
            | Some conv =>
                if socket_set
                then [("messageReaction",
                       reaction_request "add" messageId emoji (c_id conv))]
                else []
            | None => []
            end)
  end.

(** *** Sending a message *)

Inductive upload_env : Type :=
| UploadThrows
| UploadDone (success : bool) (file : gmap string scalar).

Inductive send_env : Type :=
| SendThrows
| SendDone (success : bool) (data : obj).

(** What the outside world answers during one [handleSendMessage], and
    what the rest of the hub (a reload, a listener, the user) does to the
    state while the call waits for an answer. *)
Record send_environment : Type := mkSendEnv {
  now : Z;                      (* Date.now() *)
  now_iso : string;             (* new Date().toISOString() *)
  upload : upload_env;          (* messageAPI.uploadFile *)
  send : send_env;              (* messageAPI.sendToConversation *)
  socket_ready : bool;          (* the socket of the context is set *)
  ai_entry : obj;               (* the entry the AI branch appends *)
  during_upload : Hub → Hub;    (* updates queued while uploadFile is awaited *)
  during_send : Hub → Hub       (* ... while sendToConversation or
                                   aiChatAssistant is awaited *)
}.

(** The state after the updates of the others; [sent] keeps listing what
    this call puts on the socket. *)
Definition meanwhile (others : Hub → Hub) (h : Hub) : Hub :=
  mkHub (selectedConversation (others h)) (messages (others h)) (aiMessages (others h))
        (conversations (others h)) (messageReactions (others h)) (newMessage (others h))
        (selectedFile (others h)) (isUploading (others h)) (sent h)
        (typingUsers (others h)) (onlineUsers (others h)) (listener_selection (others h)).

(** Nothing else happens while the call waits. *)
Definition undisturbed (env : send_environment) : Prop :=
  (∀ h, during_upload env h = h) ∧ (∀ h, during_send env h = h).

(** [Date.now().toString()]. *)
Definition temp_id (env : send_environment) : jsval := Scalar (Str (pretty (now env))).

Definition optimistic_message (user : gmap string scalar) (conv : Conversation)
    (env : send_environment) (messageContent : string) (file : option string)
    (fileData : option (gmap string scalar)) : obj :=
  let base : obj :=
    {[ "id" := temp_id env;
       "content" := Scalar (Str (if negb (String.eqb messageContent "")
                                 then messageContent
                                 else default "" file));
       "senderId" := Scalar (sfield user "id");
       "conversationId" := c_id conv;
       "createdAt" := Scalar (Str (now_iso env));
       "sender" := Object {[ "id" := sfield user "id";
                             "username" := sfield user "username";
                             "profilePicture" := sfield user "profilePicture" ]};
       "messageType" := Scalar (Str (match fileData with
                                         | Some _ => "file"
                                         | None => "text"
                                         end)) ]} in
  let with_file : obj :=
    match fileData with
    | Some f =>
        <["fileUrl" := Scalar (sfield f "url")]>
          (<["fileName" := Scalar (sfield f "name")]>
             (<["fileType" := Scalar (sfield f "type")]>
                (<["fileSize" := Scalar (sfield f "size")]> base)))
    | None => base
    end in
  <["isOptimistic" := Scalar (Bool true)]> with_file.

(** [participants?.find(p => (p.user?.id !== user.id) || (p.userId !== user.id))]. *)
Definition p_user_id (p : Participant) : scalar :=
  match p_user p with
  | Some u => sfield u "id"
  | None => Undefined
  end.

Definition other_participant (user : gmap string scalar) (conv : Conversation)
    : option Participant :=
  match participants conv with
  | Some ps =>
      List.find (fun p => negb (bool_decide (p_user_id p = sfield user "id"))
                          || negb (bool_decide (p_userId p = sfield user "id"))) ps
  | None => None
  end.

Definition receiver_id (user : gmap string scalar) (conv : Conversation) : scalar :=
  if truthy (isGroup conv) then Null
  else
    let first := match other_participant user conv with
                 | Some p => p_user_id p
                 | None => Undefined
                 end in
    if truthy_scalar first then first
    else match other_participant user conv with
         | Some p => p_userId p
         | None => Undefined
         end.

(** The object handed to [sendMessage] of the socket context. *)
Definition outgoing (user : gmap string scalar) (conv : Conversation) (data : obj) : obj :=
  <["receiverId" := Scalar (receiver_id user conv)]>
    (<["senderName" := Scalar (sfield user "username")]>
       (<["senderId" := Scalar (sfield user "id")]>
          (<["conversationId" := c_id conv]> data))).

(** The three updaters of the message list. *)
Definition append_optimistic (optimisticMessage : obj) (prev : list obj) : list obj :=
  prev ++ [optimisticMessage].

Definition replace_optimistic (tempId : jsval) (data : obj) (prev : list obj) : list obj :=
  map (fun msg => if strict_eq (field msg "id") tempId
                  then <["isOptimistic" := Scalar (Bool false)]> data
                  else msg) prev.

Definition remove_optimistic (tempId : jsval) (prev : list obj) : list obj :=
  List.filter (fun msg => negb (strict_eq (field msg "id") tempId)) prev.

(** The [catch] and [finally] of [handleSendMessage]. *)
Definition send_failed (tempId : jsval) (messageContent : string) (h : Hub) : Hub :=
  set_isUploading false
    (set_input messageContent (selectedFile h)
       (set_messages (remove_optimistic tempId) h)).

(** [handleSendMessage] reads [selectedConversation], [newMessage],
    [selectedFile] and [user] of its render once; each [await] lets the
    updates of the others in, and what it sets afterwards goes on top of
    them. *)
Definition handleSendMessage (user : gmap string scalar) (env : send_environment)
    (h : Hub) : Hub :=
  match selectedConversation h with
  | None => h
  | Some conv =>
      let messageContent := trim (newMessage h) in
      if String.eqb messageContent "" && negb (bool_decide (is_Some (selectedFile h)))
      then h
      else
        let tempId := temp_id env in
        let h0 := set_isUploading true h in
        let h1 := match selectedFile h with
                  | None => h0
                  | Some _ => meanwhile (during_upload env) h0
                  end in
        let uploaded : option (option (gmap string scalar)) :=
          match selectedFile h with
          | None => Some None
          | Some _ =>
              match upload env with
              | UploadThrows => None
              | UploadDone ok file => Some (if ok then Some file else None)
              end
          end in
        match uploaded with
        | None => send_failed tempId messageContent h1
        | Some fileData =>
            let optimisticMessage :=
              optimistic_message user conv env messageContent (selectedFile h) fileData in
            if truthy (isAI conv) then
              let h2 := set_input "" None
                          (set_aiMessages (append_optimistic optimisticMessage) h1) in
              let h3 := meanwhile (during_send env) h2 in
              set_isUploading false
                (set_aiMessages
                   (fun prev => remove_optimistic tempId prev
                                ++ [optimisticMessage; ai_entry env]) h3)
            else
              let h2 := set_input "" None
                          (set_messages (append_optimistic optimisticMessage) h1) in
              let h3 := meanwhile (during_send env) h2 in
              match send env with
              | SendThrows => send_failed tempId messageContent h3
              | SendDone true data =>
                  let h4 := if socket_ready env
                            then socket_emit (outgoing user conv data) h3 else h3 in
                  set_isUploading false
                    (set_messages (replace_optimistic tempId data) h4)
              | SendDone false _ => set_isUploading false h3
              end
        end
  end.

(** *** Socket listeners *)

(** [handleTyping], reached from the [userTyping] listener with
    [senderId] set to the [userId] of the event. *)
Definition handleTyping (user : gmap string scalar) (senderId isTyping : jsval)
    (h : Hub) : Hub :=
  if strict_eq senderId (Scalar (sfield user "id")) then h
  else
    set_typingUsers
      (fun prev =>
         if truthy isTyping
         then if includes prev senderId then prev else prev ++ [senderId]
         else without senderId prev) h.

(** [handleUserStatusUpdate]: only the status ['online'] adds the user. *)
Definition handleUserStatusUpdate (userId status : jsval) (h : Hub) : Hub :=
  set_onlineUsers
    (fun prev => if is_action "online" status then {[userId]} ∪ prev
                 else prev ∖ {[userId]}) h.

Definition handleMessageDeleted (messageId : jsval) (h : Hub) : Hub :=
  set_messages
    (List.filter (fun msg => negb (strict_eq (field msg "id") messageId))) h.

(** The five listeners the hub registers on the socket; any other event
    finds none.  [receiveMessage] runs the [handleNewMessage] the listener
    closed over.  [None]: an updater threw and the hub is unmounted. *)
Definition on_event (parseDate : string → option Z) (user : gmap string scalar)
    (ev : string * out) (h : Hub) : option Hub :=
  match ev with
  | (name, OutObj o) =>
      if String.eqb name "receiveMessage"
      then Some (handleNewMessage parseDate (listener_selection h) o h)
      else if String.eqb name "userTyping"
      then Some (handleTyping user (field o "userId") (field o "isTyping") h)
      else if String.eqb name "messageReaction" then handleMessageReactionFromSocket o h
      else if String.eqb name "userStatusUpdate"
      then Some (handleUserStatusUpdate (field o "userId") (field o "status") h)
      else if String.eqb name "messageDeleted"
      then Some (handleMessageDeleted (field o "messageId") h)
      else Some h
  | (_, OutVal _) => Some h
  end.

Fixpoint receive (parseDate : string → option Z) (user : gmap string scalar)
    (h : Hub) (evs : list (string * out)) : option Hub :=
  match evs with
  | [] => Some h
  | ev :: rest =>
      match on_event parseDate user ev h with
      | Some h' => receive parseDate user h' rest
      | None => None
      end
  end.

(** ** Vocabulary of the properties and sample runs *)

(** One user on two devices: [u1] connects as [s1], then as [s2]. *)
Definition two_tabs : Server :=
  state (on_connection
           (state (on_connection initial_server (mkSocket "s1" (Str "u1"))))
           (mkSocket "s2" (Str "u1"))).

(** The offline broadcast as the specification words it: emitted only when
    the identity has no other live connection. *)
Definition offline_only_when_last (st : Server) (sock : Socket) : Prop :=
  Emit (BroadcastExcept (sock_id sock)) "userStatusUpdate"
       (offline_status (userId sock)) ∈ effects (on_disconnect st sock) →
  ∀ sid, sid ≠ sock_id sock → sockets st !! sid ≠ Some (userId sock).

(** A verifier that accepts the single token ["tok-u1"], issued to [u1]. *)
Definition sample_verify (t : string) : option (gmap string scalar) :=
  if String.eqb t "tok-u1" then Some {[ "userId" := Str "u1" ]} else None.

(** [u1] on socket [s1] and [u2] on socket [s2], both in conversation [c1]. *)
Definition chat_c1 : Server :=
  let st1 := state (on_connection initial_server (mkSocket "s1" (Str "u1"))) in
  let st2 := state (on_connection st1 (mkSocket "s2" (Str "u2"))) in
  let join := PObject {[ "conversationId" := Scalar (Str "c1") ]} in
  let st3 := state (on_joinConversation st2 (mkSocket "s1" (Str "u1")) join) in
  state (on_joinConversation st3 (mkSocket "s2" (Str "u2")) join).

Definition hi_message : obj :=
  {[ "id" := Scalar (Str "m1");
     "conversationId" := Scalar (Str "c1");
     "senderId" := Scalar (Str "u1");
     "receiverId" := Scalar (Str "u2");
     "message" := Scalar (Str "hi") ]}.

(** The [userId] carried by an emitted object. *)
Definition emitted_userId (e : effect) : option jsval :=
  match e with
  | Emit _ _ (OutObj o) => Some (field o "userId")
  | _ => None
  end.

Definition emitted_userIds (r : result) : list jsval :=
  omap emitted_userId (effects r).





(** The entries of a list that carry a given id. *)
Definition count_id (id : jsval) (l : list obj) : nat :=
  length (List.filter (fun m => strict_eq (field m "id") id) l).

(** The three duplicate criteria, in the words of the specification. *)
Definition same_scalar (a b : jsval) : Prop := ∃ i, a = Scalar i ∧ b = Scalar i.

Definition same_id (message x : obj) : Prop :=
  same_scalar (field x "id") (field message "id").

Definition same_tempId (message x : obj) : Prop :=
  truthy (field x "tempId") = true
  ∧ same_scalar (field x "tempId") (field message "tempId").

Definition heuristic_match (parseDate : string → option Z) (message x : obj) : Prop :=
  same_scalar (field x "message") (field message "message")
  ∧ same_scalar (field x "senderId") (field message "senderId")
  ∧ ∃ a b, date_value parseDate (field x "createdAt") = Some a
           ∧ date_value parseDate (field message "createdAt") = Some b
           ∧ Z.abs (a - b) < 5000.

Definition is_receiveMessage (ev : string * out) : bool :=
  String.eqb (fst ev) "receiveMessage".

(** The second of two messages with the same text, sent by [u1] two
    seconds apart. *)
Definition sample_parseDate (s : string) : option Z :=
  if String.eqb s "2024-01-01T00:00:01.000Z" then Some 1704067201000
  else if String.eqb s "2024-01-01T00:00:03.000Z" then Some 1704067203000
  else None.

Definition ok_first : obj :=
  {[ "id" := Scalar (Str "m1");
     "conversationId" := Scalar (Str "c1");
     "senderId" := Scalar (Str "u1");
     "message" := Scalar (Str "ok");
     "createdAt" := Scalar (Str "2024-01-01T00:00:01.000Z") ]}.

Definition ok_second : obj :=
  {[ "id" := Scalar (Str "m2");
     "conversationId" := Scalar (Str "c1");
     "senderId" := Scalar (Str "u1");
     "message" := Scalar (Str "ok");
     "createdAt" := Scalar (Str "2024-01-01T00:00:03.000Z") ]}.

(** A hub that shows [c1], its listeners registered since. *)
Definition viewing_c1 (msgs : list obj) : Hub :=
  mkHub (Some (mkConversation (Scalar (Str "c1")) (Scalar Undefined) (Scalar Undefined) None))
        msgs [] [] ∅ "" None false [] [] ∅
        (Some (mkConversation (Scalar (Str "c1")) (Scalar Undefined) (Scalar Undefined) None)).

Definition hello_message : obj :=
  {[ "id" := Scalar (Str "m7");
     "conversationId" := Scalar (Str "c1");
     "senderId" := Scalar (Str "u1");
     "message" := Scalar (Str "hello");
     "createdAt" := Scalar (Str "2024-01-01T00:00:03.000Z") ]}.

(** [messageContent || (selectedFile ? selectedFile.name : '')]. *)
Definition sent_content (h : Hub) : string :=
  if negb (String.eqb (trim (newMessage h)) "") then trim (newMessage h)
  else default "" (selectedFile h).

Definition composing_in_c1 (msgs : list obj) (text : string) : Hub :=
  mkHub (Some (mkConversation (Scalar (Str "c1")) (Scalar Undefined) (Scalar Undefined) None))
        msgs [] [] ∅ text None false [] [] ∅ None.

Definition alice : gmap string scalar :=
  {[ "id" := Str "u1"; "username" := Str "alice" ]}.

Definition bob : gmap string scalar :=
  {[ "id" := Str "u2"; "username" := Str "bob" ]}.

Definition server_hi : obj :=
  {[ "id" := Scalar (Str "m1"); "content" := Scalar (Str "hi") ]}.

Definition send_hi_ok : send_environment :=
  mkSendEnv 1700000000000 "2023-11-14T22:13:20.000Z" UploadThrows
            (SendDone true server_hi) true ∅ (fun h => h) (fun h => h).


(** An [add] of emoji [e] on message [mid] by user [u], in conversation
    [conv]. *)
Definition add_event (u : scalar) (mid e conv : jsval) (ev : reaction_event) : Prop :=
  let '(sock, p, _) := ev in
  userId sock = u
  ∧ field p "messageId" = mid
  ∧ field p "emoji" = e
  ∧ field p "conversationId" = conv
  ∧ field p "action" = Scalar (Str "add").

Definition write_resolves (ev : reaction_event) : Prop :=
  let '(_, _, env) := ev in env = DbOk ∨ env = DbDisconnectFails.

Definition add_payload (u : scalar) (mid e : jsval) : obj :=
  {[ "messageId" := mid; "emoji" := e;
     "action" := Scalar (Str "add"); "userId" := Scalar u ]}.

Definition add_broadcast (u : scalar) (mid e conv : jsval) : effect :=
  Emit (ToRoom conv) "messageReaction" (OutObj (add_payload u mid e)).

Definition is_write (t : task) : bool :=
  match t with TWrite _ => true | TEffects _ => false end.

Definition task_effects (t : task) : list effect :=
  match t with TEffects es => es | TWrite _ => [] end.

(** A task of an [add] of [row]: its write, if any, is the upsert of [row],
    and what it emits is the one broadcast [bc]. *)
Definition add_task (row : ReactionRow) (bc : effect) (t : task) : Prop :=
  match t with
  | TWrite w => w = upsert_reaction row
  | TEffects es => Forall (fun e => is_emit e = true → e = bc) es
  end.

Definition total {A : Type} (f : A → nat) (l : list A) : nat := sum_list (map f l).

Definition writes (ts : list task) : nat :=
  total (fun t => if is_write t then 1%nat else 0%nat) ts.

Definition emit_count (t : task) : nat := length (List.filter is_emit (task_effects t)).

(** [u2] reacts to [m1] with a thumbs-up twice at once: the second write
    loses the race on the unique key and is rejected. *)
Definition thumbs_up : obj :=
  {[ "messageId" := Scalar (Str "m1"); "emoji" := Scalar (Str "+1");
     "action" := Scalar (Str "add"); "conversationId" := Scalar (Str "c1") ]}.

Definition two_adds : list reaction_event :=
  [(mkSocket "s2" (Str "u2"), thumbs_up, DbOk);
   (mkSocket "s2" (Str "u2"), thumbs_up, DbWriteFails)].

(** Both handlers start before either write happens. *)
Definition racing_schedule : list task :=
  [TEffects [Log "Message reaction:"];
   TEffects [Log "Message reaction:"];
   TWrite (upsert_reaction (mkReaction (Scalar (Str "m1")) (Str "u2") (Scalar (Str "+1"))));
   TEffects [reaction_error; reaction_broadcast (mkSocket "s2" (Str "u2")) thumbs_up];
   TEffects [reaction_broadcast (mkSocket "s2" (Str "u2")) thumbs_up]].

(** ** Allowed origins ([socket.js] and the server entry file) *)

(** The two environment variables the allow-lists read: a string, or
    [None] when the variable is not set. *)
Record ProcessEnv : Type := mkProcessEnv {
  FRONTEND_URL : option string;
  REPLIT_DEV_DOMAIN : option string
}.

(** [process.env.X || fallback]: unset and empty both give the fallback. *)
Definition env_or (v : option string) (fallback : string) : string :=
  match v with
  | Some s => if String.eqb s "" then fallback else s
  | None => fallback
  end.

(** [`${process.env.X}`]: an unset variable prints as [undefined]. *)
Definition env_text (v : option string) : string := default "undefined" v.

Inductive cors_result : Type :=
| CorsAllowed                   (* callback(null, true) *)
| CorsError (message : string). (* callback(new Error(message)) *)

(** The [allowed] array of the Socket.io server. *)
Definition socket_allowed (env : ProcessEnv) : list string :=
  [ env_or (FRONTEND_URL env) "https://social-media-1-lzs4.onrender.com";
    "https://social-media-pdbl.onrender.com";
    "https://sociogram-1.onrender.com";
    "https://sociogram-n73b.onrender.com";
    "http://localhost:5001";
    "http://localhost:5000";
    "http://127.0.0.1:5000";
    "http://localhost:5176";
    "http://localhost:5175";
    "http://127.0.0.1:5175";
    "http://localhost:8000";
    "http://127.0.0.1:8000";
    "http://localhost:5173";
    "http://127.0.0.1:5173";
    "https://" +:+ env_text (REPLIT_DEV_DOMAIN env);
    "http://" +:+ env_text (REPLIT_DEV_DOMAIN env) ].

(** [ALLOWED_ORIGINS] of the HTTP server. *)
Definition ALLOWED_ORIGINS (env : ProcessEnv) : list string :=
  [ env_or (FRONTEND_URL env) "https://social-media-1-lzs4.onrender.com";
    "https://social-media-pdbl.onrender.com";
    "https://sociogram-1.onrender.com";
    "https://sociogram-n73b.onrender.com";
    "http://localhost:5001";
    "http://localhost:5000";
    "http://127.0.0.1:5000";
    "http://localhost:5176";
    "http://localhost:5175";
    "http://127.0.0.1:5175";
    "http://localhost:8000";
    "http://127.0.0.1:8000";
    "http://localhost:5173";
    "http://127.0.0.1:5173";
    "https://" +:+ env_text (REPLIT_DEV_DOMAIN env);
    "http://" +:+ env_text (REPLIT_DEV_DOMAIN env) ].

(** [allowed.includes(origin)] on strings. *)
Definition list_includes (l : list string) (x : string) : bool :=
  existsb (String.eqb x) l.

(** The [origin] function of the Socket.io [cors] option.  The origin is
    [None] when the request carries none; [!origin] also holds for the
    empty string. *)
Definition socket_cors_origin (env : ProcessEnv) (origin : option string) : cors_result :=
  match origin with
  | None => CorsAllowed
  | Some o =>
      if String.eqb o "" then CorsAllowed
      else if list_includes (socket_allowed env) o then CorsAllowed
      else CorsError "Not allowed by CORS"
  end.

(** The [origin] function of [corsOptions] of the HTTP server. *)
Definition http_cors_origin (env : ProcessEnv) (origin : option string) : cors_result :=
  match origin with
  | None => CorsAllowed
  | Some o =>
      if String.eqb o "" then CorsAllowed
      else if list_includes (ALLOWED_ORIGINS env) o then CorsAllowed
      else CorsError "Not allowed by CORS"
  end.

(** ** The HTTP client ([frontend/src/utils/api.js]) *)

(** [s.includes(sub)] on strings. *)
Fixpoint str_includes (s sub : string) : bool :=
  String.prefix sub s
  || match s with
     | String _ rest => str_includes rest sub
     | EmptyString => false
     end.

(** What the interceptors read and write: [localStorage],
    [window.location.pathname] and the navigation a write to
    [window.location.href] asks for. *)
Record Browser : Type := mkBrowser {
  localStorage : gmap string string;
  pathname : string;
  navigated : option string
}.

(** The request interceptor: [config.headers] with the bearer token of
    [localStorage] when there is a non-empty one. *)
Definition request_interceptor (b : Browser) (headers : gmap string string)
    : gmap string string :=
  match localStorage b !! "token" with
  | Some token =>
      if String.eqb token "" then headers
      else <["Authorization" := "Bearer " +:+ token]> headers
  | None => headers
  end.

(** The error handed to the response interceptor: [error.response?.status]
    and [error.config?.url], [None] where the chain is [undefined]. *)
Record AxiosError : Type := mkAxiosError {
  status : option Z;
  url : option string
}.

(** [localStorage.removeItem('token'); localStorage.removeItem('user')],
    then the redirect unless the path names an auth page. *)
Definition sign_out (b : Browser) : Browser :=
  let storage := delete "user" (delete "token" (localStorage b)) in
  if negb (str_includes (pathname b) "/login")
     && negb (str_includes (pathname b) "/register")
     && negb (str_includes (pathname b) "/")
  then mkBrowser storage (pathname b) (Some "/login")
  else mkBrowser storage (pathname b) (navigated b).

Definition url_includes (u : option string) (sub : string) : bool :=
  match u with
  | Some s => str_includes s sub
  | None => false
  end.

(** The rejected branch of the response interceptor; it always ends in
    [Promise.reject(error)], so the caller sees the error again. *)
Definition response_error_interceptor (err : AxiosError) (b : Browser) : Browser :=
  let b1 := if bool_decide (status err = Some 401) then sign_out b else b in
  if bool_decide (status err = Some 404)
     && url_includes (url err) "/user/profile"
     && negb (url_includes (url err) "/user/profile/")
  then sign_out b1
  else b1.

(** [authAPI.getProfile]: the URL it requests. *)
Definition getProfile_url (userId : scalar) : string :=
  if truthy_scalar userId then "/user/profile/" +:+ to_string userId
  else "/user/profile".

(** [authAPI.getUserByUsername], [getFollowers] and [getFollowing]. *)
Definition getUserByUsername_url (username : scalar) : string :=
  "/user/profile/username/" +:+ to_string username.

(** ** Follow state ([frontend/src/context/FollowContext.jsx]) *)

(** The entry of [followCounts] for one user, [{followers, following}];
    a missing field reads as [undefined]. *)
Abbreviation counts := (gmap string scalar).

Record FollowState : Type := mkFollowState {
  followingUsers : gset scalar;
  followCounts : gmap string counts;
  processingUsers : gset scalar;
  followNotifications : list (gmap string scalar)  (* emitted on the socket *)
}.

Definition initial_follow : FollowState := mkFollowState ∅ ∅ ∅ [].

(** [(v || 0) + k] for an integer [k]: a falsy count is zero, [true]
    counts as one, and a non-empty string is concatenated with [k]. *)
Definition count_plus (v : scalar) (k : Z) : scalar :=
  match v with
  | Num a => Num (a + k)
  | Bool true => Num (1 + k)
  | Str s => if String.eqb s "" then Num k else Str (s +:+ pretty k)
  | Undefined | Null | Bool false => Num k
  end.

(** [v || 0]. *)
Definition or_zero (v : scalar) : scalar :=
  if truthy_scalar v then v else Num 0.

(** [prev[key]?.field]. *)
Definition count_field (prev : gmap string counts) (key : scalar) (f : string) : scalar :=
  match prev !! to_string key with
  | Some c => sfield c f
  | None => Undefined
  end.

(** [{...prev[key]}]. *)
Definition counts_of (prev : gmap string counts) (key : scalar) : counts :=
  default ∅ (prev !! to_string key).

(** [getFollowCounts]: zeros for a user without an entry. *)
Definition getFollowCounts (st : FollowState) (userId : scalar) : counts :=
  default {[ "followers" := Num 0; "following" := Num 0 ]}
          (followCounts st !! to_string userId).

Definition isFollowing (st : FollowState) (userId : scalar) : bool :=
  bool_decide (userId ∈ followingUsers st).

Definition isProcessing (st : FollowState) (userId : scalar) : bool :=
  bool_decide (userId ∈ processingUsers st).

(** A parameter with the default [= 0]: the default replaces [undefined]
    only. *)
Definition default_zero (v : scalar) : scalar :=
  match v with
  | Undefined => Num 0
  | _ => v
  end.

(** [initializeUserFollowState(userId, isFollowing = false,
    followerCount = 0, followingCount = 0)]; [following] is the truthiness
    of [isFollowing]. *)
Definition initializeUserFollowState (userId : scalar) (following : bool)
    (followerCount followingCount : scalar) (st : FollowState) : FollowState :=
  mkFollowState
    (if following then {[userId]} ∪ followingUsers st else followingUsers st)
    (<[to_string userId := {[ "followers" := default_zero followerCount;
                              "following" := default_zero followingCount ]}]>
       (followCounts st))
    (processingUsers st) (followNotifications st).

(** What [authAPI.followUser] answers: it throws, or [response.data]. *)
Inductive follow_env : Type :=
| FollowThrows
| FollowDone (data : gmap string scalar).

(** The value [toggleFollow] resolves to. *)
Record FollowOutcome : Type := mkFollowOutcome {
  fo_success : bool;
  fo_action : scalar;
  fo_isMutualFollow : scalar;
  fo_message : scalar
}.

(** The optimistic update of the following set and its reversal. *)
Definition toggle_member (wasFollowing : bool) (userId : scalar) (prev : gset scalar)
    : gset scalar :=
  if wasFollowing then prev ∖ {[userId]} else {[userId]} ∪ prev.

Definition untoggle_member (wasFollowing : bool) (userId : scalar) (prev : gset scalar)
    : gset scalar :=
  if wasFollowing then {[userId]} ∪ prev else prev ∖ {[userId]}.

(** The optimistic update of the counts.  The object literal names the keys
    [[userId]] and [[user.id]] in this order; [user] is the parameter of
    [toggleFollow], the user to follow, so for a user with an [id] both are
    the same key and the second entry replaces the first. *)
Definition optimistic_counts (user : gmap string scalar) (userId : scalar)
    (wasFollowing : bool) (prev : gmap string counts) : gmap string counts :=
  let k := if wasFollowing then (-1) else 1 in
  <[to_string (sfield user "id") :=
      {[ "followers" := or_zero (count_field prev (sfield user "id") "followers");
         "following" := count_plus (count_field prev (sfield user "id") "following") k ]}]>
    (<[to_string userId :=
         <["followers" := count_plus (count_field prev userId "followers") k]>
           (counts_of prev userId)]> prev).

(** The counts after a successful answer. *)
Definition confirmed_counts (user : gmap string scalar) (userId : scalar)
    (wasFollowing : bool) (data : gmap string scalar) (prev : gmap string counts)
    : gmap string counts :=
  let k := if wasFollowing then (-1) else 1 in
  <[to_string (sfield user "id") :=
      {[ "followers" := or_zero (count_field prev (sfield user "id") "followers");
         "following" := count_plus (count_field prev (sfield user "id") "following") k ]}]>
    (<[to_string userId :=
         {[ "followers" := sfield data "targetUserFollowerCount";
            "following" := or_zero (count_field prev userId "following") ]}]> prev).

(** The reversal of the optimistic count. *)
Definition reverted_counts (userId : scalar) (wasFollowing : bool)
    (prev : gmap string counts) : gmap string counts :=
  let k := if wasFollowing then 1 else (-1) in
  <[to_string userId :=
      <["followers" := count_plus (count_field prev userId "followers") k]>
        (counts_of prev userId)]> prev.

Definition follow_notification (user : gmap string scalar) (userId : scalar)
    : gmap string scalar :=
  {[ "followedUserId" := userId;
     "followerName" := sfield user "username";
     "followerId" := sfield user "id" ]}.

(** [toggleFollow(user)]; [socket_set] tells whether the socket of the
    provider is set. *)
Definition toggleFollow (user : gmap string scalar) (env : follow_env) (socket_set : bool)
    (st : FollowState) : FollowState * FollowOutcome :=
  let userId := if truthy_scalar (sfield user "id") then sfield user "id"
                else sfield user "_id" in
  let wasFollowing := bool_decide (userId ∈ followingUsers st) in
  let processing := {[userId]} ∪ processingUsers st in
  let following1 := toggle_member wasFollowing userId (followingUsers st) in
  let counts1 := optimistic_counts user userId wasFollowing (followCounts st) in
  let failed := fun message =>
    (mkFollowState (untoggle_member wasFollowing userId following1)
                   (reverted_counts userId wasFollowing counts1)
                   (processing ∖ {[userId]}) (followNotifications st),
     mkFollowOutcome false Undefined Undefined message) in
  match env with
  | FollowThrows => failed (Str "Network error occurred")
  | FollowDone data =>
      if truthy_scalar (sfield data "success") then
        (mkFollowState following1
           (confirmed_counts user userId wasFollowing data counts1)
           (processing ∖ {[userId]})
           (if negb wasFollowing && socket_set
            then followNotifications st ++ [follow_notification user userId]
            else followNotifications st),
         mkFollowOutcome true (sfield data "action") (sfield data "isMutualFollow")
                         (sfield data "message"))
      else failed (sfield data "message")
  end.

(** What [profileResponse] holds: no [data], a [data] without a [user]
    object ([undefined] or [null]), or a user with the lengths of its
    [followers] and [following] arrays ([None] for a missing array). *)
Inductive profile_answer : Type :=
| ProfileNoData
| ProfileNoUser
| ProfileUser (followers_length following_length : option Z).

(** What [loadFollowState] gets from the two requests: they throw (or the
    list of followed users cannot be read), or the ids of
    [followingResponse.data.following] and the profile answer. *)
Inductive load_follow_env : Type :=
| LoadFollowThrows
| LoadFollowDone (following : list scalar) (profile : profile_answer).

(** [x?.length || 0]. *)
Definition length_or_zero (n : option Z) : scalar := Num (default 0 n).

(** The following set is stored before the profile is read.  A profile
    answer without [data] raises in the middle, and the [catch] leaves the
    counts.  The fields of [data.user] are read inside the updater handed
    to [setFollowCounts], which React runs while it renders: without a
    user object the updater throws there, outside the [try], and the
    provider is unmounted ([None]). *)
Definition loadFollowState (currentUserId : scalar) (env : load_follow_env)
    (st : FollowState) : option FollowState :=
  match env with
  | LoadFollowThrows => Some st
  | LoadFollowDone following ProfileNoData =>
      Some (mkFollowState (list_to_set following) (followCounts st)
                          (processingUsers st) (followNotifications st))
  | LoadFollowDone following ProfileNoUser => None
  | LoadFollowDone following (ProfileUser followers_length following_length) =>
      let own := <[to_string currentUserId :=
                     {[ "followers" := length_or_zero followers_length;
                        "following" := length_or_zero following_length ]}]>
                   (followCounts st) in
      Some (mkFollowState
              (list_to_set following)
              (foldl (fun prev id =>
                        <[to_string id := {[ "followers" := Num 0;
                                             "following" := Num 0 ]}]> prev)
                     own following)
              (processingUsers st) (followNotifications st))
  end.

(** ** More of the messaging hub *)

(** *** Loading the conversation list *)





(** [uniqueConversations.filter(conv => conv.isGroup)]. *)
Definition groupConversations (convs : list obj) : list obj :=
  List.filter (fun conv => truthy (field conv "isGroup")) convs.

(** *** Selecting a conversation *)

Definition set_selectedConversation (c : option Conversation) (h : Hub) : Hub :=
  mkHub c (messages h) (aiMessages h) (conversations h)
        (messageReactions h) (newMessage h) (selectedFile h) (isUploading h) (sent h)
        (typingUsers h) (onlineUsers h)
        (listener_selection h).








(** The server handling what one socket emitted, in order. *)
Definition server_handles (env : environment) (st : Server) (sock : Socket)
    (evs : list (string * obj)) : Server :=
  foldl (fun acc ev => state (dispatch acc sock (fst ev) (PObject (snd ev)) env))
        st evs.

(** *** File sizes *)



(** ** Traces of the server *)

(** Socket.io gives every connection a socket id no live socket has. *)
Fixpoint fresh_ids (jwt_verify : string → option (gmap string scalar))
    (st : Server) (evs : list client_event) : Prop :=
  match evs with
  | [] => True
  | ev :: rest =>
      match ev with
      | Connect sid _ => sockets st !! sid = None
      | _ => True
      end
      ∧ fresh_ids jwt_verify (state (step jwt_verify st ev)) rest
  end.

(** Every room member is a live socket, and every entry of the
    connected-users table names a live socket of that identity. *)
Definition presence_consistent (st : Server) : Prop :=
  (∀ room sid, sid ∈ members st room → is_Some (sockets st !! sid))
  ∧ (∀ uid sid, connectedUsers st !! uid = Some sid → sockets st !! sid = Some uid).

(** ** Vocabulary and sample runs of the further properties *)


(** The effects that leave out the socket [sid]: logs, and emits that go
    to a room or to everyone except [sid]. *)
Definition spares (sid : SocketId) (e : effect) : Prop :=
  match e with
  | Emit (ToRoomExcept _ s) _ _ | Emit (BroadcastExcept s) _ _ => s = sid
  | Emit (ToRoom _) _ _ => False
  | _ => True
  end.



Definition family_group : obj :=
  {[ "group" := Object {[ "id" := Str "g1" ]};
     "participantIds" := Arr [Str "u2"] ]}.

Definition leave_own_room : obj :=
  {[ "conversationId" := Scalar (Str "user_u2") ]}.

Definition send_hi_throws : send_environment :=
  mkSendEnv 1700000000000 "2023-11-14T22:13:20.000Z" UploadThrows SendThrows true ∅
            (fun h => h) (fun h => h).

Definition send_hi_refused : send_environment :=
  mkSendEnv 1700000000000 "2023-11-14T22:13:20.000Z" UploadThrows
            (SendDone false ∅) true ∅ (fun h => h) (fun h => h).

Definition composing_in_ai (text : string) : Hub :=
  mkHub (Some (mkConversation (Scalar (Str "ai-assistant")) (Scalar (Bool true))
                 (Scalar (Bool false)) None))
        [hello_message] [] [] ∅ text None false [] [] ∅ None.







Definition signed_in_on_feed : Browser :=
  mkBrowser {[ "token" := "abc"; "user" := "{}"; "theme" := "dark" ]} "/feed" None.

Definition bob_known : FollowState :=
  initializeUserFollowState (Str "u2") false (Num 10) (Num 3) initial_follow.

Definition follow_accepted : follow_env :=
  FollowDone {[ "success" := Bool true; "action" := Str "followed";
                "targetUserFollowerCount" := Num 11 ]}.


(** Conversation [c1], and a hub that registered its listeners when it
    was mounted and opened [c1] afterwards, with [m1] loaded. *)
Definition conversation_c1 : Conversation :=
  mkConversation (Scalar (Str "c1")) (Scalar Undefined) (Scalar Undefined) None.

Definition opened_c1_after_mount : Hub :=
  set_messages (fun _ => [ok_first])
    (set_selectedConversation (Some conversation_c1) (register_listeners mounted_hub)).

(** * Properties *)

(** ** Presence table *)

Lemma connectedUsers_on_connection (st : Server) (sock : Socket) :
  connectedUsers (state (on_connection st sock))
  = <[userId sock := sock_id sock]> (connectedUsers st).
Proof. reflexivity. Qed.

Lemma sockets_on_connection (st : Server) (sock : Socket) :
  sockets (state (on_connection st sock))
  = <[sock_id sock := userId sock]> (sockets st).
Proof. reflexivity. Qed.

Lemma connectedUsers_on_disconnect (st : Server) (sock : Socket) :
  connectedUsers (state (on_disconnect st sock))
  = delete (userId sock) (connectedUsers st).
Proof. reflexivity. Qed.

Lemma sockets_on_disconnect (st : Server) (sock : Socket) :
  sockets (state (on_disconnect st sock)) = delete (sock_id sock) (sockets st).
Proof. reflexivity. Qed.

Lemma members_on_disconnect (st : Server) (sock : Socket) (room : scalar) :
  members (state (on_disconnect st sock)) room = members st room ∖ {[sock_id sock]}.
Proof.
  unfold members, on_disconnect, leave_all, set_rooms; simpl.
  rewrite lookup_fmap.
  destruct (rooms st !! room) as [s|]; simpl; [reflexivity|].
  apply set_eq. intros x. rewrite elem_of_difference. split; [|tauto].
  intros Hx. apply not_elem_of_empty in Hx. destruct Hx.
Qed.

(** C1, as stated, fails: with [u1] connected as [s1] and [s2], the
    disconnect of [s1] broadcasts "offline" for [u1] although [s2] is
    still live, and the lookup for [u1] finds nothing any more. *)
Lemma offline_while_other_connection_live :
  sockets (state (on_disconnect two_tabs (mkSocket "s1" (Str "u1")))) !! "s2"
  = Some (Str "u1")
  ∧ getReceiverSocketId (state (on_disconnect two_tabs (mkSocket "s1" (Str "u1"))))
                        (Str "u1") = None
  ∧ ¬ offline_only_when_last two_tabs (mkSocket "s1" (Str "u1")).
Proof.
  split; [reflexivity|]. split; [reflexivity|].
  intros H.
  assert (Hin : Emit (BroadcastExcept "s1") "userStatusUpdate" (offline_status (Str "u1"))
                ∈ effects (on_disconnect two_tabs (mkSocket "s1" (Str "u1")))).
  { apply list_elem_of_In. right. left. reflexivity. }
  apply (H Hin "s2"); [discriminate | reflexivity].
Qed.

(** C1 (amended): every disconnect deletes the identity's entry, so a
    lookup for the identity finds nothing afterwards, removes the socket
    from the live sockets and from every room, and emits exactly one
    offline status broadcast to all other sockets, whether or not
    the identity has other live connections. *)
Theorem disconnect_clears_identity_and_broadcasts_offline
    (st : Server) (sock : Socket) :
  let r := on_disconnect st sock in
  getReceiverSocketId (state r) (userId sock) = None
  ∧ sockets (state r) !! sock_id sock = None
  ∧ (∀ room, sock_id sock ∉ members (state r) room)
  ∧ emits r = [Emit (BroadcastExcept (sock_id sock)) "userStatusUpdate"
                    (offline_status (userId sock))]
  ∧ outcome r = Returned.
Proof.
  cbv zeta. repeat split.
  - unfold getReceiverSocketId.
    rewrite connectedUsers_on_disconnect. apply lookup_delete_eq.
  - rewrite sockets_on_disconnect. apply lookup_delete_eq.
  - intros room. rewrite members_on_disconnect, elem_of_difference, elem_of_singleton.
    tauto.
Qed.

(** C9: the connected-users table holds one handle per identity.  A second
    connection of the same identity overwrites the handle of the first, the
    lookup returns the most recently registered connection only, and the
    disconnect of either connection deletes the whole entry, also while
    the other connection is still live. *)
Theorem connectedUsers_holds_latest_handle_only
    (st : Server) (uid : scalar) (sid1 sid2 : SocketId) (Hne : sid1 ≠ sid2) :
  let st1 := state (on_connection st (mkSocket sid1 uid)) in
  let st2 := state (on_connection st1 (mkSocket sid2 uid)) in
  (∀ (any : Server) (h1 h2 : SocketId),
     getReceiverSocketId any uid = Some h1 → getReceiverSocketId any uid = Some h2 →
     h1 = h2)
  ∧ getReceiverSocketId st1 uid = Some sid1
  ∧ getReceiverSocketId st2 uid = Some sid2
  ∧ sockets st2 !! sid1 = Some uid
  ∧ sockets st2 !! sid2 = Some uid
  ∧ getReceiverSocketId (state (on_disconnect st2 (mkSocket sid1 uid))) uid = None
  ∧ sockets (state (on_disconnect st2 (mkSocket sid1 uid))) !! sid2 = Some uid
  ∧ getReceiverSocketId (state (on_disconnect st2 (mkSocket sid2 uid))) uid = None
  ∧ sockets (state (on_disconnect st2 (mkSocket sid2 uid))) !! sid1 = Some uid.
Proof.
  cbv zeta. unfold getReceiverSocketId.
  rewrite !connectedUsers_on_disconnect, !sockets_on_disconnect,
    !connectedUsers_on_connection, !sockets_on_connection. simpl.
  split; [intros any h1 h2 H1 H2; congruence|].
  repeat split.
  - apply lookup_insert_eq.
  - apply lookup_insert_eq.
  - rewrite lookup_insert_ne by congruence. apply lookup_insert_eq.
  - apply lookup_insert_eq.
  - apply lookup_delete_eq.
  - rewrite lookup_delete_ne by congruence. apply lookup_insert_eq.
  - apply lookup_delete_eq.
  - rewrite lookup_delete_ne by congruence.
    rewrite lookup_insert_ne by congruence. apply lookup_insert_eq.
Qed.

Lemma connectedUsers_holds_latest_handle_only_witness :
  "s1" ≠ "s2"
  ∧ getReceiverSocketId two_tabs (Str "u1") = Some "s2"
  ∧ getReceiverSocketId
      (state (on_disconnect two_tabs (mkSocket "s1" (Str "u1")))) (Str "u1") = None.
Proof.
  assert (Hne : "s1" ≠ "s2") by discriminate.
  split; [exact Hne|].
  pose proof (connectedUsers_holds_latest_handle_only
                initial_server (Str "u1") "s1" "s2" Hne) as H.
  cbv zeta in H. destruct H as (_ & _ & Hlatest & _ & _ & Hgone & _).
  split; [exact Hlatest | exact Hgone].
Defined.

(** C6: the connection handler emits nothing: no "online" status event is
    broadcast when an identity registers, not even for its first
    connection, so no peer's hub learns of it. *)
Theorem connection_broadcasts_nothing
    (parseDate : string → option Z) (user : gmap string scalar)
    (st : Server) (sock : Socket) (peer : SocketId) (h : Hub) :
  let r := on_connection st sock in
  effects r = [Log "User connected"]
  ∧ emits r = []
  ∧ deliveries (state r) peer (effects r) = []
  ∧ onlineUsers <$> receive parseDate user h (deliveries (state r) peer (effects r))
    = Some (onlineUsers h).
Proof. repeat split. Qed.

(** The whole life of two connections of [u1], as a trace of the server. *)
Example two_tabs_trace :
  let '(st, es) := run sample_verify initial_server
                     [Connect "s1" (Str "tok-u1");
                      Connect "s2" (Str "tok-u1");
                      Disconnect "s1"] in
  getReceiverSocketId st (Str "u1") = None
  ∧ sockets st !! "s2" = Some (Str "u1")
  ∧ es = [Log "User connected"; Log "User connected"; Log "User disconnected";
          Emit (BroadcastExcept "s1") "userStatusUpdate" (offline_status (Str "u1"))].
Proof. vm_compute. repeat split. Qed.

(** ** Authentication *)

(** C8: a connection whose bearer token is absent (falsy) or fails
    verification is refused with "Authentication error": the state is
    untouched, the identity enters neither the live sockets nor the
    connected-users table, and no listener exists for the refused socket.
    A verified token yields the [userId] claim as the socket's identity;
    the middleware itself reads and writes no state. *)
Theorem connection_requires_verified_token
    (jwt_verify : string → option (gmap string scalar))
    (st : Server) (sid : SocketId) (token : scalar) :
  (truthy_scalar token = false ∨ (∀ t, token = Str t → jwt_verify t = None) →
     auth_middleware jwt_verify token = Refused "Authentication error"
     ∧ connect jwt_verify st sid token = Rejected "Authentication error" st
     ∧ step jwt_verify st (Connect sid token)
       = mkResult st [ConnectError sid "Authentication error"] Returned
     ∧ (sockets st !! sid = None →
        ∀ name arg env,
          step jwt_verify (state (step jwt_verify st (Connect sid token)))
               (Incoming sid name arg env)
          = mkResult st [] Returned))
  ∧ (∀ t decoded,
       token = Str t → t ≠ "" → jwt_verify t = Some decoded →
       auth_middleware jwt_verify token = Accepted (sfield decoded "userId")
       ∧ connect jwt_verify st sid token
         = Established (mkSocket sid (sfield decoded "userId"))
                       (on_connection st (mkSocket sid (sfield decoded "userId")))).
Proof.
  split.
  - intros Hbad.
    assert (Hmw : auth_middleware jwt_verify token = Refused "Authentication error").
    { unfold auth_middleware.
      destruct (truthy_scalar token) eqn:Htruthy; simpl; [|reflexivity].
      destruct Hbad as [Hfalsy|Hfail]; [congruence|].
      destruct token as [| |b|n|t]; try reflexivity.
      rewrite (Hfail t eq_refl). reflexivity. }
    assert (Hconn : connect jwt_verify st sid token = Rejected "Authentication error" st).
    { unfold connect. rewrite Hmw. reflexivity. }
    repeat split; [exact Hmw | exact Hconn | simpl; rewrite Hconn; reflexivity |].
    intros Hfresh name arg env.
    simpl. rewrite Hconn. simpl. rewrite Hfresh. reflexivity.
  - intros t decoded -> Hne Hok.
    assert (Hmw : auth_middleware jwt_verify (Str t) = Accepted (sfield decoded "userId")).
    { unfold auth_middleware. simpl.
      destruct (String.eqb_spec t "") as [->|_]; [congruence|]. simpl.
      rewrite Hok. reflexivity. }
    split; [exact Hmw|]. unfold connect. rewrite Hmw. reflexivity.
Qed.

Lemma connection_requires_verified_token_witness :
  connect sample_verify initial_server "s1" Undefined
  = Rejected "Authentication error" initial_server
  ∧ connect sample_verify initial_server "s1" (Str "forged")
    = Rejected "Authentication error" initial_server
  ∧ connect sample_verify initial_server "s1" (Str "tok-u1")
    = Established (mkSocket "s1" (Str "u1"))
                  (on_connection initial_server (mkSocket "s1" (Str "u1"))).
Proof.
  split; [|split].
  - apply (connection_requires_verified_token sample_verify initial_server "s1" Undefined).
    left. reflexivity.
  - apply (connection_requires_verified_token sample_verify initial_server "s1"
                                               (Str "forged")).
    right. intros t Ht. injection Ht as <-. reflexivity.
  - assert (Hne : "tok-u1" ≠ "") by discriminate.
    exact (proj2 (proj2 (connection_requires_verified_token
                           sample_verify initial_server "s1" (Str "tok-u1"))
                        "tok-u1" {[ "userId" := Str "u1" ]} eq_refl Hne eq_refl)).
Defined.

(** ** Message fan-out *)

Lemma message_fanout_truthy (sock : Socket) (m : obj) :
  truthy (field m "conversationId") = true →
  message_fanout sock m
  = [Emit (ToRoomExcept (field m "conversationId") (sock_id sock))
          "receiveMessage" (OutObj m);
     Emit (ToRoom (field m "conversationId")) "receiveMessage" (OutObj m)].
Proof. intros H. unfold message_fanout. rewrite H. reflexivity. Qed.

(** A member of the room other than the sender receives the message twice,
    the sender (when in the room) once. *)
Lemma message_fanout_deliveries (st : Server) (sock : Socket) (m : obj) (c : SocketId) :
  truthy (field m "conversationId") = true →
  c ∈ in_rooms st (field m "conversationId") →
  deliveries st c (message_fanout sock m)
  = if bool_decide (c = sock_id sock)
    then [("receiveMessage", OutObj m)]
    else [("receiveMessage", OutObj m); ("receiveMessage", OutObj m)].
Proof.
  intros Hconv Hin. rewrite message_fanout_truthy by exact Hconv. simpl.
  rewrite (bool_decide_eq_true_2 (c ∈ in_rooms st (field m "conversationId")))
    by exact Hin.
  destruct (decide (c = sock_id sock)) as [Heq|Hne].
  - rewrite (bool_decide_eq_true_2 (c = sock_id sock)) by exact Heq.
    rewrite bool_decide_eq_false_2; [reflexivity|].
    rewrite elem_of_difference, elem_of_singleton. tauto.
  - rewrite (bool_decide_eq_false_2 (c = sock_id sock)) by exact Hne.
    rewrite bool_decide_eq_true_2; [reflexivity|].
    rewrite elem_of_difference, elem_of_singleton. tauto.
Qed.

Lemma strict_eq_same_scalar (a b : jsval) : strict_eq a b = true ↔ same_scalar a b.
Proof.
  unfold same_scalar. split.
  - destruct a as [x| |], b as [y| |]; simpl; try discriminate.
    intros H. apply bool_decide_eq_true_1 in H as ->. eauto.
  - intros (i & -> & ->). simpl. apply bool_decide_eq_true_2. reflexivity.
Qed.

(** The condition of the notification block: the payload names a receiver,
    and the receiver is not the very scalar that names the sender. *)
Lemma notification_wanted_spec (m : obj) :
  notification_wanted m = true
  ↔ truthy (field m "receiverId") = true
    ∧ ¬ same_scalar (field m "senderId") (field m "receiverId").
Proof.
  unfold notification_wanted.
  rewrite andb_true_iff, negb_true_iff, <- strict_eq_same_scalar.
  destruct (strict_eq (field m "senderId") (field m "receiverId")); split;
    intros [H1 H2]; split; congruence.
Qed.

Lemma create_notification_failed (st : Server) (sock : Socket) (m : obj) (env : notify_env) :
  env = NotifyImportFails ∨ env = NotifyCreateFails →
  create_notification st sock m env = (st, [notify_error]).
Proof. intros [->| ->]; reflexivity. Qed.

Lemma create_notification_effects (st : Server) (sock : Socket) (m : obj) (env : notify_env) :
  Forall (fun e =>
            e = notify_error
            ∨ ∃ n, e = Emit (ToRoomExcept (user_room (field m "receiverId")) (sock_id sock))
                            "newNotification" (OutObj n))
         (snd (create_notification st sock m env)).
Proof.
  destruct env as [| |n ok]; simpl.
  - repeat constructor.
  - repeat constructor.
  - destruct (notification_data m); simpl.
    + constructor; [right; eexists; reflexivity|].
      destruct ok; repeat constructor.
    + repeat constructor.
Qed.

(** The effects of [sendMessage] on a payload with a conversation id: the
    log, the two room emits, then what the notification block adds. *)
Lemma sendMessage_effects_shape (st : Server) (sock : Socket) (m : obj) (env : notify_env) :
  truthy (field m "conversationId") = true →
  ∃ rest,
    effects (on_sendMessage st sock (PObject m) env)
    = Log "Socket received message:"
      :: Emit (ToRoomExcept (field m "conversationId") (sock_id sock))
              "receiveMessage" (OutObj m)
      :: Emit (ToRoom (field m "conversationId")) "receiveMessage" (OutObj m)
      :: rest
    ∧ Forall (fun e =>
                e = notify_error
                ∨ ∃ n, e = Emit (ToRoomExcept (user_room (field m "receiverId"))
                                              (sock_id sock))
                                "newNotification" (OutObj n))
             rest.
Proof.
  intros Hconv. unfold on_sendMessage. simpl destructure. cbv iota beta.
  rewrite (message_fanout_truthy sock m Hconv).
  destruct (notification_wanted m).
  - pose proof (create_notification_effects st sock m env) as Heffs.
    destruct (create_notification st sock m env) as [st' es].
    exists es. split; [reflexivity|exact Heffs].
  - exists []. split; [reflexivity|constructor].
Qed.

(** C5: a [sendMessage] event with a conversation id is broadcast to the
    conversation room whatever the notification block does.  The handler
    returns normally; the two room emits come first and reach every member
    of the room; a failing notification call leaves the state as it was and
    adds exactly one logged error and nothing else (no emit to the sender,
    no second attempt); and the notification is attempted only when the
    payload names a receiver that differs from the sender: otherwise
    nothing follows the two emits, not even the logged error. *)
Theorem sendMessage_broadcast_survives_notification_failure
    (st : Server) (sock : Socket) (m : obj) (env : notify_env)
    (Hconv : truthy (field m "conversationId") = true) :
  let r := on_sendMessage st sock (PObject m) env in
  let room := field m "conversationId" in
  outcome r = Returned
  ∧ (∃ rest,
       effects r
       = Log "Socket received message:"
         :: Emit (ToRoomExcept room (sock_id sock)) "receiveMessage" (OutObj m)
         :: Emit (ToRoom room) "receiveMessage" (OutObj m)
         :: rest
       ∧ (notification_wanted m = false → rest = [] ∧ state r = st)
       ∧ (env = NotifyImportFails ∨ env = NotifyCreateFails →
          state r = st
          ∧ rest = if notification_wanted m then [notify_error] else [])
       ∧ (notification_wanted m = true
          ↔ truthy (field m "receiverId") = true
            ∧ ¬ same_scalar (field m "senderId") (field m "receiverId"))
       ∧ Forall (fun e =>
                   e = notify_error
                   ∨ ∃ n, e = Emit (ToRoomExcept (user_room (field m "receiverId"))
                                                 (sock_id sock))
                                   "newNotification" (OutObj n))
                rest)
  ∧ (∀ c, c ∈ in_rooms st room →
          ("receiveMessage", OutObj m) ∈ deliveries st c (effects r)).
Proof.
  cbv zeta. unfold on_sendMessage. simpl destructure. cbv iota beta.
  rewrite (message_fanout_truthy sock m Hconv).
  pose proof (notification_wanted_spec m) as Hspec.
  destruct (notification_wanted m) eqn:Hwanted.
  - pose proof (create_notification_effects st sock m env) as Heffs.
    pose proof (create_notification_failed st sock m env) as Hfail.
    destruct (create_notification st sock m env) as [st' es]. simpl in *.
    split; [reflexivity|]. split.
    + exists es. split; [reflexivity|]. split; [discriminate|].
      split; [|split; [exact Hspec|exact Heffs]].
      intros Hbad. specialize (Hfail Hbad). injection Hfail as -> ->.
      split; reflexivity.
    + intros c Hin.
      rewrite (bool_decide_eq_true_2 (c ∈ in_rooms st (field m "conversationId")))
        by exact Hin.
      destruct (bool_decide _); [right|]; left.
  - simpl. split; [reflexivity|]. split.
    + exists []. split; [reflexivity|]. split; [split; reflexivity|].
      split; [intros _; split; reflexivity|].
      split; [exact Hspec|constructor].
    + intros c Hin.
      rewrite (bool_decide_eq_true_2 (c ∈ in_rooms st (field m "conversationId")))
        by exact Hin.
      destruct (bool_decide _); [right|]; left.
Qed.

Lemma sendMessage_broadcast_survives_notification_failure_witness :
  truthy (field hi_message "conversationId") = true
  ∧ outcome (on_sendMessage chat_c1 (mkSocket "s1" (Str "u1")) (PObject hi_message)
                            NotifyCreateFails) = Returned
  ∧ ("receiveMessage", OutObj hi_message)
    ∈ deliveries chat_c1 "s2"
        (effects (on_sendMessage chat_c1 (mkSocket "s1" (Str "u1")) (PObject hi_message)
                                 NotifyCreateFails)).
Proof.
  assert (Hconv : truthy (field hi_message "conversationId") = true) by reflexivity.
  pose proof (sendMessage_broadcast_survives_notification_failure
                chat_c1 (mkSocket "s1" (Str "u1")) hi_message NotifyCreateFails Hconv)
    as [Hret [_ Hdel]].
  split; [exact Hconv|]. split; [exact Hret|].
  apply Hdel. vm_compute. reflexivity.
Defined.

(** ** Actor identity in broadcasts *)

Lemma persist_reaction_effects (st : Server) (action : jsval) (row : ReactionRow)
    (env : db_env) :
  snd (persist_reaction st action row env) = []
  ∨ snd (persist_reaction st action row env) = [reaction_error].
Proof.
  destruct env; simpl; auto.
  destruct (reaction_write action row); simpl; auto.
Qed.

Lemma emitted_userIds_typing (st : Server) (sock : Socket) (arg : payload) (p : obj) :
  destructure arg = Some p →
  emitted_userIds (on_typing st sock arg) = [Scalar (userId sock)].
Proof. intros H. unfold on_typing. rewrite H. reflexivity. Qed.

Lemma emitted_userIds_updateStatus (st : Server) (sock : Socket) (arg : payload) (p : obj) :
  destructure arg = Some p →
  emitted_userIds (on_updateStatus st sock arg) = [Scalar (userId sock)].
Proof. intros H. unfold on_updateStatus. rewrite H. reflexivity. Qed.

Lemma emitted_userIds_messageReaction (st : Server) (sock : Socket) (arg : payload)
    (env : db_env) (p : obj) :
  destructure arg = Some p →
  emitted_userIds (on_messageReaction st sock arg env) = [Scalar (userId sock)].
Proof.
  intros H. unfold on_messageReaction. rewrite H.
  pose proof (persist_reaction_effects st (field p "action") (reaction_row sock p) env)
    as Hes.
  destruct (persist_reaction st (field p "action") (reaction_row sock p) env)
    as [st' es].
  simpl in Hes. destruct Hes as [-> | ->]; reflexivity.
Qed.

(** C10: for [typing], [updateStatus] and [messageReaction], the [userId]
    of the emitted broadcast is the identity the middleware stored on the
    socket.  Whatever the payload holds (a [userId] field of its own
    included), two events handled on the same socket emit the same
    [userId]; the reaction row written to the table carries it too. *)
Theorem broadcast_actor_is_socket_identity
    (st1 st2 : Server) (sock : Socket) (name : string) (arg1 arg2 : payload)
    (env1 env2 : environment)
    (Hname : name ∈ ["typing"; "updateStatus"; "messageReaction"])
    (Harg1 : is_Some (destructure arg1))
    (Harg2 : is_Some (destructure arg2)) :
  emitted_userIds (dispatch st1 sock name arg1 env1) = [Scalar (userId sock)]
  ∧ emitted_userIds (dispatch st1 sock name arg1 env1)
    = emitted_userIds (dispatch st2 sock name arg2 env2)
  ∧ (∀ p, r_userId (reaction_row sock p) = userId sock).
Proof.
  destruct Harg1 as [p1 Hp1], Harg2 as [p2 Hp2].
  assert (Hall : ∀ st arg env p, destructure arg = Some p →
                 emitted_userIds (dispatch st sock name arg env) = [Scalar (userId sock)]).
  { intros st arg env p Hp.
    apply list_elem_of_In in Hname. simpl in Hname.
    destruct Hname as [<- | [<- | [<- | []]]]; unfold dispatch; simpl.
    - eapply emitted_userIds_typing, Hp.
    - eapply emitted_userIds_updateStatus, Hp.
    - eapply emitted_userIds_messageReaction, Hp. }
  split; [eapply Hall, Hp1|]. split; [|reflexivity].
  rewrite (Hall st1 arg1 env1 p1 Hp1), (Hall st2 arg2 env2 p2 Hp2). reflexivity.
Qed.

Lemma broadcast_actor_is_socket_identity_witness :
  emitted_userIds
    (dispatch chat_c1 (mkSocket "s1" (Str "u1")) "typing"
       (PObject {[ "conversationId" := Scalar (Str "c1");
                   "isTyping" := Scalar (Bool true);
                   "userId" := Scalar (Str "u2") ]})
       (mkEnv NotifyCreateFails DbOk))
  = [Scalar (Str "u1")].
Proof.
  apply (broadcast_actor_is_socket_identity
           chat_c1 chat_c1 (mkSocket "s1" (Str "u1")) "typing"
           (PObject {[ "conversationId" := Scalar (Str "c1");
                       "isTyping" := Scalar (Bool true);
                       "userId" := Scalar (Str "u2") ]})
           (PScalar (Num 7))
           (mkEnv NotifyCreateFails DbOk) (mkEnv NotifyCreateFails DbOk)).
  - apply list_elem_of_In. left. reflexivity.
  - eexists. reflexivity.
  - eexists. reflexivity.
Defined.

(** ** Malformed group events *)




(** ** Duplicate suppression on the client *)

Section Dedup.

Variable parseDate : string → option Z.

Lemma strict_eq_refl_scalar (i : scalar) : strict_eq (Scalar i) (Scalar i) = true.
Proof. simpl. apply bool_decide_eq_true_2. reflexivity. Qed.

Lemma is_duplicate_self (message : obj) (i : scalar) :
  field message "id" = Scalar i → is_duplicate parseDate message message = true.
Proof.
  intros Hid. unfold is_duplicate. rewrite Hid, strict_eq_refl_scalar. reflexivity.
Qed.

Lemma append_unless_duplicate_cases (message : obj) (prev : list obj) :
  (∃ x, x ∈ prev ∧ is_duplicate parseDate message x = true
        ∧ append_unless_duplicate parseDate message prev = prev)
  ∨ ((∀ x, x ∈ prev → is_duplicate parseDate message x = false)
     ∧ append_unless_duplicate parseDate message prev = prev ++ [message]).
Proof.
  unfold append_unless_duplicate.
  destruct (List.find (is_duplicate parseDate message) prev) as [x|] eqn:Hfind.
  - left. apply find_some in Hfind as [Hin Hdup].
    exists x. rewrite list_elem_of_In. auto.
  - right. split; [|reflexivity].
    intros x Hin. apply list_elem_of_In in Hin.
    exact (find_none _ _ Hfind x Hin).
Qed.

Lemma append_unless_duplicate_found (message x : obj) (prev : list obj) :
  x ∈ prev → is_duplicate parseDate message x = true →
  append_unless_duplicate parseDate message prev = prev.
Proof.
  intros Hin Hdup.
  destruct (append_unless_duplicate_cases message prev) as [(_ & _ & _ & ->)|[Hno _]];
    [reflexivity|].
  rewrite (Hno x Hin) in Hdup. discriminate.
Qed.

(** A second delivery of the same message changes nothing. *)
Lemma append_unless_duplicate_twice (message : obj) (prev : list obj) (i : scalar) :
  field message "id" = Scalar i →
  append_unless_duplicate parseDate message
    (append_unless_duplicate parseDate message prev)
  = append_unless_duplicate parseDate message prev.
Proof.
  intros Hid.
  destruct (append_unless_duplicate_cases message prev)
    as [(x & Hin & Hdup & ->)|[_ ->]].
  - apply (append_unless_duplicate_found message x); assumption.
  - apply (append_unless_duplicate_found message message).
    + apply elem_of_app. right. apply list_elem_of_singleton. reflexivity.
    + apply (is_duplicate_self message i Hid).
Qed.

Lemma count_id_app (id : jsval) (l1 l2 : list obj) :
  count_id id (l1 ++ l2) = (count_id id l1 + count_id id l2)%nat.
Proof. unfold count_id. rewrite List.filter_app, length_app. reflexivity. Qed.

Lemma count_id_none (id : jsval) (l : list obj) :
  (∀ x, x ∈ l → strict_eq (field x "id") id = false) → count_id id l = 0%nat.
Proof.
  unfold count_id. induction l as [|a l IH]; intros H; [reflexivity|].
  simpl. rewrite (H a) by (left). apply IH.
  intros x Hx. apply H. right. exact Hx.
Qed.

Lemma is_duplicate_id (message x : obj) :
  is_duplicate parseDate message x = false →
  strict_eq (field x "id") (field message "id") = false.
Proof.
  unfold is_duplicate. intros H.
  apply orb_false_elim in H as [H _]. apply orb_false_elim in H as [H _]. exact H.
Qed.

Lemma messages_handleNewMessage (selected : option Conversation) (message : obj)
    (h : Hub) :
  truthy (conv_isAI selected) = false →
  strict_eq (field message "conversationId") (conv_id selected) = true →
  messages (handleNewMessage parseDate selected message h)
  = append_unless_duplicate parseDate message (messages h).
Proof.
  intros Hai Hsel. unfold handleNewMessage. rewrite Hai, Hsel. reflexivity.
Qed.

(** A listener whose render showed another conversation, or none, leaves
    the message list alone. *)
Lemma messages_handleNewMessage_elsewhere (selected : option Conversation)
    (message : obj) (h : Hub) :
  strict_eq (field message "conversationId") (conv_id selected) = false →
  messages (handleNewMessage parseDate selected message h) = messages h.
Proof.
  intros Hsel. unfold handleNewMessage. rewrite Hsel.
  destruct (truthy (conv_isAI selected)); reflexivity.
Qed.

Lemma selection_handleNewMessage (selected : option Conversation) (message : obj)
    (h : Hub) :
  selectedConversation (handleNewMessage parseDate selected message h)
  = selectedConversation h
  ∧ listener_selection (handleNewMessage parseDate selected message h)
    = listener_selection h.
Proof.
  unfold handleNewMessage.
  destruct (truthy (conv_isAI selected)); [split; reflexivity|].
  destruct (_ && _); split; reflexivity.
Qed.

End Dedup.

Lemma within_window_spec (parseDate : string → option Z) (a b : jsval) :
  within_window parseDate a b = true
  ↔ ∃ x y, date_value parseDate a = Some x ∧ date_value parseDate b = Some y
           ∧ Z.abs (x - y) < 5000.
Proof.
  unfold within_window. split.
  - destruct (date_value parseDate a) as [x|]; [|discriminate].
    destruct (date_value parseDate b) as [y|]; [|discriminate].
    intros H. apply Z.ltb_lt in H. eauto.
  - intros (x & y & -> & -> & H). apply Z.ltb_lt. exact H.
Qed.

Lemma is_duplicate_spec (parseDate : string → option Z) (message x : obj) :
  is_duplicate parseDate message x = true
  ↔ same_id message x ∨ same_tempId message x ∨ heuristic_match parseDate message x.
Proof.
  unfold is_duplicate, same_id, same_tempId, heuristic_match.
  rewrite !orb_true_iff, !andb_true_iff, !strict_eq_same_scalar, within_window_spec.
  tauto.
Qed.

Lemma deliveries_app (st : Server) (c : SocketId) (l1 l2 : list effect) :
  deliveries st c (l1 ++ l2) = deliveries st c l1 ++ deliveries st c l2.
Proof.
  induction l1 as [|e l1 IH]; [reflexivity|].
  destruct e as [t ev d| | |]; simpl; try exact IH.
  destruct (bool_decide _); simpl; rewrite IH; reflexivity.
Qed.

Lemma notification_deliveries (parseDate : string → option Z)
    (user : gmap string scalar) (st : Server)
    (c : SocketId) (room : jsval) (sender : SocketId) (rest : list effect) (h : Hub) :
  Forall (fun e => e = notify_error
                   ∨ ∃ n, e = Emit (ToRoomExcept room sender) "newNotification" (OutObj n))
         rest →
  receive parseDate user h (deliveries st c rest) = Some h
  ∧ List.filter is_receiveMessage (deliveries st c rest) = [].
Proof.
  induction 1 as [|e rest He _ IH]; [split; reflexivity|].
  destruct He as [->|[n ->]]; simpl; [exact IH|].
  destruct (bool_decide _); simpl; exact IH.
Qed.

Lemma receive_cons (parseDate : string → option Z) (user : gmap string scalar)
    (h : Hub) (ev : string * out) (evs : list (string * out)) :
  receive parseDate user h (ev :: evs)
  = match on_event parseDate user ev h with
    | Some h' => receive parseDate user h' evs
    | None => None
    end.
Proof. reflexivity. Qed.

Lemma receive_app (parseDate : string → option Z) (user : gmap string scalar)
    (h : Hub) (l1 l2 : list (string * out)) :
  receive parseDate user h (l1 ++ l2)
  = match receive parseDate user h l1 with
    | Some h' => receive parseDate user h' l2
    | None => None
    end.
Proof.
  revert h. induction l1 as [|ev l1 IH]; intros h; [reflexivity|].
  simpl. destruct (on_event parseDate user ev h) as [h'|]; [apply IH|reflexivity].
Qed.

Lemma receive_two_messages (parseDate : string → option Z) (user : gmap string scalar)
    (h : Hub) (m : obj) :
  receive parseDate user h
    [("receiveMessage", OutObj m); ("receiveMessage", OutObj m)]
  = Some (handleNewMessage parseDate (listener_selection h) m
            (handleNewMessage parseDate (listener_selection h) m h)).
Proof.
  simpl.
  rewrite (proj2 (selection_handleNewMessage parseDate (listener_selection h) m h)).
  reflexivity.
Qed.

(** What one peer of the sender gets of [sendMessage]: the message twice,
    then notifications the hub has no listener for. *)
Lemma receive_sendMessage (parseDate : string → option Z) (user : gmap string scalar)
    (st : Server) (sock : Socket) (m : obj) (env : notify_env) (c : SocketId) (h : Hub) :
  truthy (field m "conversationId") = true →
  c ∈ in_rooms st (field m "conversationId") →
  c ≠ sock_id sock →
  let ds := deliveries st c (effects (on_sendMessage st sock (PObject m) env)) in
  List.filter is_receiveMessage ds
  = [("receiveMessage", OutObj m); ("receiveMessage", OutObj m)]
  ∧ receive parseDate user h ds
    = Some (handleNewMessage parseDate (listener_selection h) m
              (handleNewMessage parseDate (listener_selection h) m h)).
Proof.
  intros Hconv Hin Hother. cbv zeta.
  destruct (sendMessage_effects_shape st sock m env Hconv) as (rest & Heffs & Hrest).
  rewrite Heffs.
  pose proof (message_fanout_deliveries st sock m c Hconv Hin) as Hfan.
  rewrite (message_fanout_truthy sock m Hconv) in Hfan.
  rewrite (bool_decide_eq_false_2 (c = sock_id sock)) in Hfan by exact Hother.
  change (Log "Socket received message:"
          :: Emit (ToRoomExcept (field m "conversationId") (sock_id sock))
                  "receiveMessage" (OutObj m)
          :: Emit (ToRoom (field m "conversationId")) "receiveMessage" (OutObj m)
          :: rest)
    with ([Log "Socket received message:"]
          ++ [Emit (ToRoomExcept (field m "conversationId") (sock_id sock))
                   "receiveMessage" (OutObj m);
              Emit (ToRoom (field m "conversationId")) "receiveMessage" (OutObj m)]
          ++ rest).
  rewrite !deliveries_app, Hfan.
  change (deliveries st c [Log "Socket received message:"]) with (@nil (string * out)).
  rewrite !app_nil_l.
  set (twice := handleNewMessage parseDate (listener_selection h) m
                  (handleNewMessage parseDate (listener_selection h) m h)).
  destruct (notification_deliveries parseDate user st c _ _ rest twice Hrest)
    as [Hrecv Hnone].
  split.
  - rewrite List.filter_app, Hnone. reflexivity.
  - rewrite receive_app, receive_two_messages. exact Hrecv.
Qed.


(** A hub whose listeners were registered while it showed [c1], holding
    the message [m1] ("ok").  [u1] sends a second "ok" two seconds later,
    [m2]; the server delivers it twice, and both deliveries are dropped as
    duplicates of [m1]: the list ends with no entry for [m2]. *)
Lemma distinct_message_in_window_is_dropped :
  let ds := deliveries chat_c1 "s2"
              (effects (on_sendMessage chat_c1 (mkSocket "s1" (Str "u1"))
                          (PObject ok_second) NotifyCreateFails)) in
  ds = [("receiveMessage", OutObj ok_second); ("receiveMessage", OutObj ok_second)]
  ∧ messages <$> receive sample_parseDate bob (viewing_c1 [ok_first]) ds
    = Some [ok_first].
Proof. vm_compute. split; reflexivity. Qed.

(** While the listener's render and the message agree on the conversation
    (not the AI conversation), the two deliveries of a message together act
    as one [append_unless_duplicate]: the second delivery is always dropped,
    and the first is appended unless an entry already matches it by id, by
    (truthy) tempId, or by message text, sender and a [createdAt] less than
    5000 ms apart. *)
Lemma listener_in_step_adds_at_most_one_entry
    (parseDate : string → option Z) (user : gmap string scalar)
    (st : Server) (sock : Socket) (m : obj) (env : notify_env)
    (c : SocketId) (h : Hub) (i : scalar)
    (Hconv : truthy (field m "conversationId") = true)
    (Hin : c ∈ in_rooms st (field m "conversationId"))
    (Hother : c ≠ sock_id sock)
    (Hsel : strict_eq (field m "conversationId") (conv_id (listener_selection h)) = true)
    (Hnot_ai : truthy (conv_isAI (listener_selection h)) = false)
    (Hid : field m "id" = Scalar i) :
  let ds := deliveries st c (effects (on_sendMessage st sock (PObject m) env)) in
  ∃ h', receive parseDate user h ds = Some h'
  ∧ messages h' = append_unless_duplicate parseDate m (messages h)
  ∧ ((∀ x, x ∈ messages h → is_duplicate parseDate m x = false) →
     messages h' = messages h ++ [m]
     ∧ count_id (field m "id") (messages h') = 1%nat)
  ∧ (∀ x, x ∈ messages h → is_duplicate parseDate m x = true →
          messages h' = messages h)
  ∧ (∀ x, is_duplicate parseDate m x = true
          ↔ same_id m x ∨ same_tempId m x ∨ heuristic_match parseDate m x).
Proof.
  cbv zeta.
  destruct (receive_sendMessage parseDate user st sock m env c h Hconv Hin Hother)
    as [_ Hrecv].
  eexists. split; [exact Hrecv|].
  set (sel := listener_selection h) in *.
  assert (Htwice : messages (handleNewMessage parseDate sel m
                               (handleNewMessage parseDate sel m h))
                   = append_unless_duplicate parseDate m (messages h)).
  { rewrite (messages_handleNewMessage parseDate sel m _ Hnot_ai Hsel).
    rewrite (messages_handleNewMessage parseDate sel m h Hnot_ai Hsel).
    apply (append_unless_duplicate_twice parseDate m (messages h) i Hid). }
  split; [exact Htwice|].
  split; [|split].
  - intros Hno. rewrite Htwice.
    destruct (append_unless_duplicate_cases parseDate m (messages h))
      as [(x & Hx & Hdup & _)|[_ ->]].
    + rewrite (Hno x Hx) in Hdup. discriminate.
    + split; [reflexivity|].
      rewrite count_id_app, (count_id_none (field m "id") (messages h)).
      * unfold count_id. simpl. rewrite Hid, strict_eq_refl_scalar. reflexivity.
      * intros x Hx. apply (is_duplicate_id parseDate), Hno, Hx.
  - intros x Hx Hdup. rewrite Htwice.
    apply (append_unless_duplicate_found parseDate m x); assumption.
  - intros x. apply is_duplicate_spec.
Qed.

(** C2: a message delivered twice can end with no entry at all, not
    with one.  The listener of [receiveMessage] is the [handleNewMessage]
    of the render in which the listeners were registered, and it compares
    the message's conversation with the [selectedConversation] of that
    render.  Whenever the two differ (as
    they do when the listeners were registered before a conversation was
    opened: the comparison is then with [undefined]), both deliveries of a
    message leave the list as it was, whatever conversation the hub shows
    now: a message that was not in the list has no entry, not one. *)
Theorem stale_listener_never_appends
    (parseDate : string → option Z) (user : gmap string scalar)
    (st : Server) (sock : Socket) (m : obj) (env : notify_env)
    (c : SocketId) (h : Hub)
    (Hconv : truthy (field m "conversationId") = true)
    (Hin : c ∈ in_rooms st (field m "conversationId"))
    (Hother : c ≠ sock_id sock)
    (Hstale : listener_selection h = None
              ∨ strict_eq (field m "conversationId") (conv_id (listener_selection h))
                = false) :
  let ds := deliveries st c (effects (on_sendMessage st sock (PObject m) env)) in
  List.filter is_receiveMessage ds
  = [("receiveMessage", OutObj m); ("receiveMessage", OutObj m)]
  ∧ ∃ h', receive parseDate user h ds = Some h'
    ∧ selectedConversation h' = selectedConversation h
    ∧ messages h' = messages h
    ∧ (count_id (field m "id") (messages h) = 0%nat →
       count_id (field m "id") (messages h') ≠ 1%nat).
Proof.
  cbv zeta.
  destruct (receive_sendMessage parseDate user st sock m env c h Hconv Hin Hother)
    as [Hds Hrecv].
  split; [exact Hds|].
  eexists. split; [exact Hrecv|].
  assert (Helse : strict_eq (field m "conversationId") (conv_id (listener_selection h))
                  = false).
  { destruct Hstale as [->|H]; [|exact H].
    simpl. destruct (field m "conversationId") as [[]| |]; try reflexivity.
    discriminate Hconv. }
  assert (Hmsgs : messages (handleNewMessage parseDate (listener_selection h) m
                              (handleNewMessage parseDate (listener_selection h) m h))
                  = messages h).
  { rewrite !messages_handleNewMessage_elsewhere by exact Helse. reflexivity. }
  split.
  { rewrite !(proj1 (selection_handleNewMessage parseDate _ m _)). reflexivity. }
  split; [exact Hmsgs|].
  rewrite Hmsgs. intros ->. discriminate.
Qed.

Lemma stale_listener_never_appends_witness :
  selected_id opened_c1_after_mount = Scalar (Str "c1")
  ∧ ∃ h', receive sample_parseDate bob opened_c1_after_mount
            (deliveries chat_c1 "s2"
               (effects (on_sendMessage chat_c1 (mkSocket "s1" (Str "u1"))
                           (PObject hello_message) NotifyCreateFails)))
          = Some h'
    ∧ messages h' = [ok_first]
    ∧ count_id (Scalar (Str "m7")) (messages h') ≠ 1%nat.
Proof.
  assert (Hconv : truthy (field hello_message "conversationId") = true) by reflexivity.
  assert (Hin : "s2" ∈ in_rooms chat_c1 (field hello_message "conversationId"))
    by (vm_compute; reflexivity).
  assert (Hother : "s2" ≠ sock_id (mkSocket "s1" (Str "u1"))) by discriminate.
  destruct (stale_listener_never_appends
              sample_parseDate bob chat_c1 (mkSocket "s1" (Str "u1")) hello_message
              NotifyCreateFails "s2" opened_c1_after_mount
              Hconv Hin Hother (or_introl eq_refl))
    as (_ & h' & Hrecv & _ & Hmsgs & Hcount).
  split; [reflexivity|].
  exists h'. split; [exact Hrecv|]. split; [exact Hmsgs|].
  apply Hcount. reflexivity.
Defined.

(** ** Optimistic send *)

Lemma optimistic_message_id (user : gmap string scalar) (conv : Conversation)
    (env : send_environment) (text : string) (file : option string)
    (fileData : option (gmap string scalar)) :
  field (optimistic_message user conv env text file fileData) "id" = temp_id env.
Proof. destruct fileData; reflexivity. Qed.

Lemma optimistic_message_pending (user : gmap string scalar) (conv : Conversation)
    (env : send_environment) (text : string) (file : option string)
    (fileData : option (gmap string scalar)) :
  field (optimistic_message user conv env text file fileData) "isOptimistic"
  = Scalar (Bool true).
Proof. destruct fileData; reflexivity. Qed.



Lemma meanwhile_nothing (others : Hub → Hub) (h : Hub) :
  (∀ x, others x = x) → meanwhile others h = h.
Proof. intros H. unfold meanwhile. rewrite H. destruct h; reflexivity. Qed.

Lemma send_guard_open (h : Hub) :
  trim (newMessage h) ≠ "" ∨ is_Some (selectedFile h) →
  String.eqb (trim (newMessage h)) "" && negb (bool_decide (is_Some (selectedFile h)))
  = false.
Proof.
  intros [Htext|Hfile].
  - destruct (String.eqb_spec (trim (newMessage h)) ""); [contradiction|reflexivity].
  - rewrite (bool_decide_eq_true_2 _ Hfile). apply andb_false_r.
Qed.

(** A send in a regular conversation, up to the answer of the backend:
    the hub as the call finds it then, with the entry the call appended
    before it started to wait. *)
Lemma handleSendMessage_regular (user : gmap string scalar) (env : send_environment)
    (h : Hub) (conv : Conversation) :
  selectedConversation h = Some conv →
  truthy (isAI conv) = false →
  trim (newMessage h) ≠ "" ∨ is_Some (selectedFile h) →
  (is_Some (selectedFile h) → upload env ≠ UploadThrows) →
  ∃ fileData h1,
    (undisturbed env → h1 = set_isUploading true h)
    ∧ sent h1 = sent h
    ∧ handleSendMessage user env h
      = let optimisticMessage :=
          optimistic_message user conv env (trim (newMessage h)) (selectedFile h)
            fileData in
        let h3 := meanwhile (during_send env)
                    (set_input "" None
                       (set_messages (append_optimistic optimisticMessage) h1)) in
        match send env with
        | SendThrows => send_failed (temp_id env) (trim (newMessage h)) h3
        | SendDone true data =>
            set_isUploading false
              (set_messages (replace_optimistic (temp_id env) data)
                 (if socket_ready env
                  then socket_emit (outgoing user conv data) h3 else h3))
        | SendDone false _ => set_isUploading false h3
        end.
Proof.
  intros Hsel Hregular Hinput Hupload.
  unfold handleSendMessage. rewrite Hsel, (send_guard_open h Hinput).
  destruct (selectedFile h) as [name|] eqn:Hfile.
  - destruct (upload env) as [|ok file] eqn:Hup.
    + exfalso. apply Hupload; [eexists; reflexivity | reflexivity].
    + exists (if ok then Some file else None),
        (meanwhile (during_upload env) (set_isUploading true h)).
      split; [intros [Hq _]; apply meanwhile_nothing, Hq|].
      split; [reflexivity|]. cbv zeta. rewrite Hregular. reflexivity.
  - exists None, (set_isUploading true h).
    split; [reflexivity|]. split; [reflexivity|].
    cbv zeta. rewrite Hregular. reflexivity.
Qed.

(** The message list a successful send of a regular conversation ends
    with when nothing else touched the state meanwhile. *)
Lemma handleSendMessage_success (user : gmap string scalar) (env : send_environment)
    (h : Hub) (conv : Conversation) (data : obj) :
  selectedConversation h = Some conv →
  truthy (isAI conv) = false →
  trim (newMessage h) ≠ "" ∨ is_Some (selectedFile h) →
  (is_Some (selectedFile h) → upload env ≠ UploadThrows) →
  send env = SendDone true data →
  undisturbed env →
  ∃ fileData,
    let h' := handleSendMessage user env h in
    messages h'
    = replace_optimistic (temp_id env) data
        (messages h
         ++ [optimistic_message user conv env (trim (newMessage h)) (selectedFile h)
                                fileData])
    ∧ isUploading h' = false
    ∧ newMessage h' = ""
    ∧ (socket_ready env = true → sent h' = sent h ++ [outgoing user conv data]).
Proof.
  intros Hsel Hregular Hinput Hupload Hsend Hquiet.
  destruct (handleSendMessage_regular user env h conv Hsel Hregular Hinput Hupload)
    as (fileData & h1 & Hh1 & _ & Hcall).
  exists fileData. cbv zeta in *. rewrite Hcall, Hsend, (Hh1 Hquiet).
  rewrite (meanwhile_nothing _ _ (proj2 Hquiet)).
  destruct (socket_ready env); simpl.
  - repeat split; reflexivity.
  - repeat split; try reflexivity. discriminate.
Qed.





(** ** Reactions: idempotent add *)

Lemma run_tasks_sequential (sock : Socket) (p : obj) (env : db_env)
    (st : Server) (acc : list effect) :
  run_tasks (reaction_tasks sock p env) (st, acc)
  = (state (on_messageReaction st sock (PObject p) env),
     acc ++ effects (on_messageReaction st sock (PObject p) env)).
Proof.
  unfold on_messageReaction, reaction_tasks, persist_reaction, write_task, run_tasks.
  simpl destructure. cbv iota beta.
  destruct env; destruct (reaction_write (field p "action") (reaction_row sock p));
    simpl; rewrite <- ?app_assoc; try reflexivity.
  all: destruct st; reflexivity.
Qed.

Lemma run_tasks_app (ts1 ts2 : list task) (s : Server * list effect) :
  run_tasks (ts1 ++ ts2) s = run_tasks ts2 (run_tasks ts1 s).
Proof. unfold run_tasks. apply foldl_app. Qed.

Lemma run_tasks_concat (st : Server) (evs : list reaction_event) :
  run_tasks (concat (map tasks_of evs)) (st, []) = handle_all st evs.
Proof.
  unfold handle_all. generalize (st, @nil effect) as s.
  induction evs as [|[[sock p] env] evs IH]; intros s; [reflexivity|].
  simpl. rewrite run_tasks_app. destruct s as [st0 acc].
  rewrite run_tasks_sequential. apply IH.
Qed.

Lemma interleaving_cons_nil {A : Type} (ls : list (list A)) (s : list A) :
  interleaving ls s → interleaving ([] :: ls) s.
Proof.
  induction 1 as [ls Hall|before x l after rest _ IH].
  - apply interleaving_done. constructor; [reflexivity|exact Hall].
  - apply (interleaving_step ([] :: before) x l after rest). exact IH.
Qed.

(** Running the handlers one after the other is one of the schedules. *)
Lemma interleaving_concat {A : Type} (ls : list (list A)) : interleaving ls (concat ls).
Proof.
  induction ls as [|l ls IH].
  - apply interleaving_done. constructor.
  - induction l as [|x l IHl]; simpl.
    + apply interleaving_cons_nil, IH.
    + apply (interleaving_step [] x l ls). exact IHl.
Qed.

Lemma interleaving_Forall {A : Type} (P : A → Prop) (ls : list (list A)) (s : list A) :
  interleaving ls s → Forall (Forall P) ls → Forall P s.
Proof.
  induction 1 as [ls _|before x l after rest _ IH]; intros Hall; [constructor|].
  apply Forall_app in Hall as [Hb Ha].
  apply Forall_cons in Ha as [Hxl Ha].
  apply Forall_cons in Hxl as [Hx Hl].
  constructor; [exact Hx|].
  apply IH. apply Forall_app. split; [exact Hb|]. constructor; assumption.
Qed.

Lemma total_app {A : Type} (f : A → nat) (l1 l2 : list A) :
  total f (l1 ++ l2) = (total f l1 + total f l2)%nat.
Proof.
  unfold total. induction l1 as [|a l1 IH]; simpl; [reflexivity|].
  rewrite IH. lia.
Qed.

(** A schedule holds what the handlers hold: any count over the tasks is
    the sum of the counts of the handlers. *)
Lemma interleaving_total {A : Type} (f : A → nat) (ls : list (list A)) (s : list A) :
  interleaving ls s → total f s = total (total f) ls.
Proof.
  induction 1 as [ls Hall|before x l after rest _ IH].
  - induction Hall as [|l ls -> _ IHl]; [reflexivity|].
    unfold total in *. simpl. exact IHl.
  - rewrite total_app in *. unfold total in *. simpl in *. lia.
Qed.

(** *** The table under upserts of one row *)

Lemma count_occ_upsert (row : ReactionRow) (t : list ReactionRow) :
  (count_occ ReactionRow_eq_dec t row ≤ 1)%nat →
  count_occ ReactionRow_eq_dec (upsert_reaction row t) row = 1%nat.
Proof.
  intros Hle. unfold upsert_reaction.
  destruct (decide (row ∈ t)) as [Hin|Hnin].
  - rewrite bool_decide_eq_true_2 by exact Hin.
    apply list_elem_of_In, (count_occ_In ReactionRow_eq_dec) in Hin. lia.
  - rewrite bool_decide_eq_false_2 by exact Hnin.
    rewrite count_occ_app. simpl.
    destruct (ReactionRow_eq_dec row row) as [_|Hne]; [|contradiction].
    rewrite list_elem_of_In in Hnin.
    apply (count_occ_not_In ReactionRow_eq_dec) in Hnin. lia.
Qed.

Lemma upsert_reaction_idempotent (row : ReactionRow) (t : list ReactionRow) :
  upsert_reaction row (upsert_reaction row t) = upsert_reaction row t.
Proof.
  assert (Hin' : row ∈ t ++ [row]).
  { apply elem_of_app. right. apply list_elem_of_singleton. reflexivity. }
  unfold upsert_reaction.
  destruct (decide (row ∈ t)) as [Hin|Hnin].
  - rewrite !(bool_decide_eq_true_2 (row ∈ t)) by exact Hin. reflexivity.
  - rewrite !(bool_decide_eq_false_2 (row ∈ t)) by exact Hnin.
    rewrite (bool_decide_eq_true_2 (row ∈ t ++ [row])) by exact Hin'. reflexivity.
Qed.

Lemma run_tasks_table (row : ReactionRow) (bc : effect) (ts : list task)
    (s : Server * list effect) :
  Forall (add_task row bc) ts →
  (count_occ ReactionRow_eq_dec (reactionTable (fst s)) row ≤ 1)%nat →
  (count_occ ReactionRow_eq_dec (reactionTable (fst (run_tasks ts s))) row ≤ 1)%nat
  ∧ (row ∈ reactionTable (fst s) ∨ (0 < writes ts)%nat →
     count_occ ReactionRow_eq_dec (reactionTable (fst (run_tasks ts s))) row = 1%nat).
Proof.
  intros Hts. revert s.
  induction Hts as [|t ts Ht _ IH]; intros s Hle.
  - split; [exact Hle|]. intros [Hin|Hw].
    + apply list_elem_of_In, (count_occ_In ReactionRow_eq_dec) in Hin. simpl. lia.
    + unfold writes, total in Hw. simpl in Hw. lia.
  - change (run_tasks (t :: ts) s) with (run_tasks ts (run_task t s)).
    destruct t as [es|w]; simpl in Ht.
    + destruct (IH (run_task (TEffects es) s) Hle) as [H1 H2].
      split; [exact H1|]. intros Hyp. apply H2.
      destruct Hyp as [Hin|Hw]; [left; exact Hin|right].
      unfold writes, total in *. simpl in Hw. exact Hw.
    + subst w.
      assert (Hone : count_occ ReactionRow_eq_dec
                       (reactionTable (fst (run_task (TWrite (upsert_reaction row)) s)))
                       row = 1%nat).
      { simpl. apply count_occ_upsert, Hle. }
      destruct (IH (run_task (TWrite (upsert_reaction row)) s)) as [H1 H2]; [lia|].
      split; [exact H1|]. intros _. apply H2. left.
      apply list_elem_of_In, (count_occ_In ReactionRow_eq_dec). lia.
Qed.

Lemma run_tasks_effects (ts : list task) (s : Server * list effect) :
  snd (run_tasks ts s) = snd s ++ concat (map task_effects ts).
Proof.
  revert s. induction ts as [|t ts IH]; intros s.
  - simpl. rewrite app_nil_r. reflexivity.
  - change (run_tasks (t :: ts) s) with (run_tasks ts (run_task t s)).
    rewrite IH. destruct t; simpl; [rewrite <- app_assoc|]; reflexivity.
Qed.

Lemma run_tasks_rooms (ts : list task) (s : Server * list effect) :
  rooms (fst (run_tasks ts s)) = rooms (fst s).
Proof.
  revert s. induction ts as [|t ts IH]; intros s; [reflexivity|].
  change (run_tasks (t :: ts) s) with (run_tasks ts (run_task t s)).
  rewrite IH. destruct t; reflexivity.
Qed.

(** *** The tasks of an add event *)

Lemma add_event_facts (u : scalar) (mid e conv : jsval) (sock : Socket) (p : obj)
    (env : db_env) :
  add_event u mid e conv (sock, p, env) →
  reaction_row sock p = mkReaction mid u e
  ∧ reaction_broadcast sock p = add_broadcast u mid e conv
  ∧ reaction_write (field p "action") (reaction_row sock p)
    = Some (upsert_reaction (mkReaction mid u e)).
Proof.
  intros (Hu & Hm & He & Hc & Ha).
  unfold reaction_row, reaction_broadcast, add_broadcast, add_payload.
  rewrite Hu, Hm, He, Hc, Ha. repeat split; reflexivity.
Qed.

Lemma tasks_of_add (u : scalar) (mid e conv : jsval) (ev : reaction_event) :
  add_event u mid e conv ev →
  Forall (add_task (mkReaction mid u e) (add_broadcast u mid e conv)) (tasks_of ev)
  ∧ total emit_count (tasks_of ev) = 1%nat
  ∧ (write_resolves ev → (0 < writes (tasks_of ev))%nat).
Proof.
  destruct ev as [[sock p] env]. intros Hev.
  destruct (add_event_facts u mid e conv sock p env Hev) as (Hrow & Hbc & Hw).
  unfold tasks_of, reaction_tasks, write_task. rewrite Hw, Hbc.
  assert (Hemit : ∀ es, Forall (fun x => is_emit x = true → x = add_broadcast u mid e conv)
                          es →
                  add_task (mkReaction mid u e) (add_broadcast u mid e conv) (TEffects es))
    by (intros es H; exact H).
  split; [|split].
  - destruct env; simpl; repeat constructor; try discriminate; try reflexivity.
  - destruct env; reflexivity.
  - intros [-> | ->]; unfold writes, total; simpl; lia.
Qed.

Lemma total_elem {A : Type} (f : A → nat) (l : list A) (x : A) :
  x ∈ l → (f x ≤ total f l)%nat.
Proof.
  unfold total. induction 1 as [x l|x y l _ IH]; simpl; lia.
Qed.

Lemma emits_of_add_tasks (row : ReactionRow) (bc : effect) (ts : list task) :
  Forall (add_task row bc) ts →
  List.filter is_emit (concat (map task_effects ts)) = replicate (total emit_count ts) bc.
Proof.
  induction 1 as [|t ts Ht _ IH]; [reflexivity|].
  simpl. rewrite List.filter_app, IH.
  change (total emit_count (t :: ts)) with (emit_count t + total emit_count ts)%nat.
  rewrite replicate_add. f_equal.
  unfold emit_count. destruct t as [es|w]; [|reflexivity]. simpl in *.
  induction Ht as [|x es Hx _ IHes]; [reflexivity|].
  simpl. destruct (is_emit x) eqn:Hemit; [|exact IHes].
  simpl. rewrite (Hx eq_refl). f_equal. exact IHes.
Qed.

(** Every event of an [add] is answered by the same broadcast, under
    every schedule of the handlers. *)
Lemma add_schedule_emits (st : Server) (u : scalar) (mid e conv : jsval)
    (evs : list reaction_event) (sched : list task) :
  Forall (add_event u mid e conv) evs →
  interleaving (map tasks_of evs) sched →
  Forall (add_task (mkReaction mid u e) (add_broadcast u mid e conv)) sched
  ∧ List.filter is_emit (snd (run_tasks sched (st, [])))
    = replicate (length evs) (add_broadcast u mid e conv).
Proof.
  intros Hevs Hsched.
  set (row := mkReaction mid u e). set (bc := add_broadcast u mid e conv).
  assert (Hall : Forall (Forall (add_task row bc)) (map tasks_of evs)).
  { apply Forall_fmap. eapply Forall_impl; [exact Hevs|].
    intros ev Hev. apply (tasks_of_add u mid e conv ev Hev). }
  pose proof (interleaving_Forall _ _ _ Hsched Hall) as Htasks.
  split; [exact Htasks|].
  assert (Hemits : total emit_count sched = length evs).
  { rewrite (interleaving_total emit_count _ _ Hsched).
    clear -Hevs. induction Hevs as [|ev evs Hev _ IH]; [reflexivity|].
    change (total (total emit_count) (map tasks_of (ev :: evs)))
      with (total emit_count (tasks_of ev) + total (total emit_count) (map tasks_of evs))%nat.
    rewrite IH.
    destruct (tasks_of_add u mid e conv ev Hev) as (_ & -> & _). reflexivity. }
  rewrite run_tasks_effects. simpl.
  rewrite (emits_of_add_tasks row bc sched Htasks), Hemits. reflexivity.
Qed.

(** *** The client under repeated adds *)

Lemma reaction_users_plain (prev : gmap string (gmap string (list jsval)))
    (mid e : jsval) :
  inherited (val_to_string mid) = false →
  inherited (val_to_string e) = false →
  reaction_users prev mid e = Some (own_users prev mid e).
Proof.
  intros Hmid He. unfold reaction_users, own_users. rewrite Hmid, He.
  destruct (prev !! val_to_string mid) as [reactions|]; simpl; [|reflexivity].
  destruct (reactions !! val_to_string e); reflexivity.
Qed.

Lemma optimistic_users_plain (prev : gmap string (gmap string (list jsval)))
    (mid e : jsval) :
  inherited (val_to_string mid) = false →
  inherited (val_to_string e) = false →
  optimistic_users prev mid e = Some (own_users prev mid e).
Proof.
  intros Hmid He. unfold optimistic_users, own_users. rewrite Hmid, He.
  destruct (prev !! val_to_string mid) as [reactions|]; simpl; [|reflexivity].
  destruct (reactions !! val_to_string e); reflexivity.
Qed.

Lemma own_users_set (prev : gmap string (gmap string (list jsval)))
    (mid e : jsval) (users : list jsval) :
  own_users (set_reaction_users prev mid e users) mid e = users.
Proof.
  unfold own_users, set_reaction_users.
  rewrite lookup_insert_eq. simpl. rewrite lookup_insert_eq. reflexivity.
Qed.

Lemma includes_scalar (users : list jsval) (u : scalar) :
  includes users (Scalar u) = true ↔ In (Scalar u) users.
Proof.
  unfold includes. rewrite existsb_exists. split.
  - intros (x & Hin & Heq). destruct x as [y| |]; simpl in Heq; try discriminate.
    apply bool_decide_eq_true_1 in Heq as ->. exact Hin.
  - intros Hin. exists (Scalar u). split; [exact Hin|apply strict_eq_refl_scalar].
Qed.

(** The updater on keys that name no member of [Object.prototype]. *)
Lemma apply_reaction_plain (data : obj)
    (prev : gmap string (gmap string (list jsval))) :
  inherited (val_to_string (field data "messageId")) = false →
  inherited (val_to_string (field data "emoji")) = false →
  apply_reaction data prev
  = Some (set_reaction_users prev (field data "messageId") (field data "emoji")
            (updated_users (field data "action") (field data "userId")
               (own_users prev (field data "messageId") (field data "emoji")))).
Proof.
  intros Hmid He. unfold apply_reaction.
  rewrite (reaction_users_plain prev _ _ Hmid He). reflexivity.
Qed.

Lemma apply_reaction_add (u : scalar) (mid e : jsval)
    (prev : gmap string (gmap string (list jsval))) :
  inherited (val_to_string mid) = false →
  inherited (val_to_string e) = false →
  ∃ next, apply_reaction (add_payload u mid e) prev = Some next
  ∧ own_users next mid e
    = if includes (own_users prev mid e) (Scalar u)
      then own_users prev mid e
      else own_users prev mid e ++ [Scalar u].
Proof.
  intros Hmid He. eexists. split.
  - apply apply_reaction_plain; assumption.
  - change (field (add_payload u mid e) "messageId") with mid.
    change (field (add_payload u mid e) "emoji") with e.
    change (field (add_payload u mid e) "userId") with (Scalar u).
    change (field (add_payload u mid e) "action") with (Scalar (Str "add")).
    rewrite own_users_set. reflexivity.
Qed.

Lemma includes_appended (users : list jsval) (u : scalar) :
  includes (users ++ [Scalar u]) (Scalar u) = true.
Proof. apply includes_scalar, in_or_app. right. left. reflexivity. Qed.

Lemma on_event_reaction (parseDate : string → option Z)
    (user : gmap string scalar) (d : obj) (h : Hub) :
  on_event parseDate user ("messageReaction", OutObj d) h
  = handleMessageReactionFromSocket d h.
Proof. reflexivity. Qed.

(** What a hub makes of the broadcasts of [n] adds of one reaction: the
    first appends the user unless the list has it, the others change
    nothing. *)
Lemma receive_adds (parseDate : string → option Z) (user : gmap string scalar)
    (u : scalar) (mid e : jsval) (n : nat) (h : Hub) :
  inherited (val_to_string mid) = false →
  inherited (val_to_string e) = false →
  ∃ h', receive parseDate user h
          (replicate n ("messageReaction", OutObj (add_payload u mid e)))
        = Some h'
  ∧ own_users (messageReactions h') mid e
    = if Nat.ltb 0 n && negb (includes (own_users (messageReactions h) mid e) (Scalar u))
      then own_users (messageReactions h) mid e ++ [Scalar u]
      else own_users (messageReactions h) mid e.
Proof.
  intros Hmid He. revert h. induction n as [|n IH]; intros h.
  - exists h. split; reflexivity.
  - destruct (apply_reaction_add u mid e (messageReactions h) Hmid He)
      as (next & Hnext & Husers).
    set (h1 := set_messageReactions (fun _ => next) h).
    assert (Hstep : on_event parseDate user
                      ("messageReaction", OutObj (add_payload u mid e)) h = Some h1).
    { rewrite on_event_reaction.
      unfold handleMessageReactionFromSocket, update_messageReactions.
      rewrite Hnext. reflexivity. }
    destruct (IH h1) as (h' & Hrecv & Hfinal).
    exists h'. split.
    { change (replicate (S n) ?x) with (x :: replicate n x).
      rewrite receive_cons, Hstep. exact Hrecv. }
    rewrite Hfinal.
    change (messageReactions h1) with next. rewrite Husers.
    change (Nat.ltb 0 (S n)) with true. simpl andb.
    destruct (includes (own_users (messageReactions h) mid e) (Scalar u)) eqn:Hinc;
      simpl negb.
    + rewrite Hinc, andb_false_r. reflexivity.
    + rewrite includes_appended, andb_false_r. reflexivity.
Qed.

Lemma count_occ_appended (users : list jsval) (u : scalar) :
  count_occ jsval_eq_dec (users ++ [Scalar u]) (Scalar u)
  = S (count_occ jsval_eq_dec users (Scalar u)).
Proof.
  rewrite count_occ_app.
  rewrite (count_occ_cons_eq jsval_eq_dec [] (eq_refl (Scalar u))). simpl. lia.
Qed.

Lemma deliveries_emits (st : Server) (c : SocketId) (es : list effect) :
  deliveries st c es = deliveries st c (List.filter is_emit es).
Proof.
  induction es as [|x es IH]; [reflexivity|].
  destruct x as [t ev d| | |]; simpl; try exact IH.
  destruct (bool_decide _); rewrite IH; reflexivity.
Qed.

Lemma deliveries_replicate (st : Server) (c : SocketId) (room : jsval) (ev : string)
    (d : out) (n : nat) :
  c ∈ in_rooms st room →
  deliveries st c (replicate n (Emit (ToRoom room) ev d)) = replicate n (ev, d).
Proof.
  intros Hin. induction n as [|n IH]; [reflexivity|].
  simpl. rewrite (bool_decide_eq_true_2 _ Hin), IH. reflexivity.
Qed.

(** Any number of [add] events with the same message, user and emoji,
    handled one after the other or interleaved at their awaits in any
    order, as a hub that did not send them sees them.  Under the unique
    key of the table ([upsert_reaction]) the row is there at most once
    afterwards; every event is answered by the same broadcast; and, for a
    message id and an emoji that name no member of [Object.prototype], a
    hub in the conversation room that held the user at most once holds it
    exactly once after the broadcasts. *)
Lemma repeated_add_on_a_peer
    (parseDate : string → option Z) (user : gmap string scalar)
    (st : Server) (h : Hub) (c : SocketId)
    (u : scalar) (mid e conv : jsval)
    (evs : list reaction_event) (sched : list task)
    (Hevs : Forall (add_event u mid e conv) evs)
    (Hnonempty : evs ≠ [])
    (Hunique : (count_occ ReactionRow_eq_dec (reactionTable st) (mkReaction mid u e) ≤ 1)%nat)
    (Hmid : inherited (val_to_string mid) = false)
    (He : inherited (val_to_string e) = false)
    (Hclient : (count_occ jsval_eq_dec (own_users (messageReactions h) mid e)
                          (Scalar u) ≤ 1)%nat)
    (Hroom : c ∈ in_rooms st conv)
    (Hsched : interleaving (map tasks_of evs) sched) :
  let row := mkReaction mid u e in
  let final := run_tasks sched (st, []) in
  (count_occ ReactionRow_eq_dec (reactionTable (fst final)) row ≤ 1)%nat
  ∧ (row ∈ reactionTable st ∨ Exists write_resolves evs →
     count_occ ReactionRow_eq_dec (reactionTable (fst final)) row = 1%nat)
  ∧ List.filter is_emit (snd final)
    = replicate (length evs) (add_broadcast u mid e conv)
  ∧ (∃ h', receive parseDate user h (deliveries st c (snd final)) = Some h'
     ∧ count_occ jsval_eq_dec (own_users (messageReactions h') mid e) (Scalar u)
       = 1%nat)
  ∧ interleaving (map tasks_of evs) (concat (map tasks_of evs))
  ∧ run_tasks (concat (map tasks_of evs)) (st, []) = handle_all st evs.
Proof.
  cbv zeta.
  set (row := mkReaction mid u e). set (bc := add_broadcast u mid e conv).
  destruct (add_schedule_emits st u mid e conv evs sched Hevs Hsched)
    as [Htasks Hfilter].
  destruct (run_tasks_table row bc sched (st, []) Htasks Hunique) as [Hle Hone].
  split; [exact Hle|]. split; [|split; [exact Hfilter|split; [|split]]].
  - intros [Hin|Hex]; apply Hone; [left; exact Hin|right].
    unfold writes. rewrite (interleaving_total _ _ _ Hsched).
    apply Exists_exists in Hex as (ev & Hin & Hres).
    rewrite Forall_forall in Hevs.
    destruct (tasks_of_add u mid e conv ev (Hevs ev Hin)) as (_ & _ & Hw).
    specialize (Hw Hres).
    assert (Hmem : tasks_of ev ∈ map tasks_of evs).
    { apply list_elem_of_fmap. exists ev. split; [reflexivity|exact Hin]. }
    pose proof (total_elem (total (fun t => if is_write t then 1%nat else 0%nat))
                  _ _ Hmem) as Hge.
    unfold writes in Hw. lia.
  - rewrite deliveries_emits, Hfilter.
    unfold add_broadcast. rewrite (deliveries_replicate st c conv _ _ _ Hroom).
    destruct (receive_adds parseDate user u mid e (length evs) h Hmid He)
      as (h' & Hrecv & Husers).
    exists h'. split; [exact Hrecv|]. rewrite Husers.
    assert (Hlen : Nat.ltb 0 (length evs) = true).
    { apply Nat.ltb_lt. destruct evs; [contradiction|simpl; lia]. }
    rewrite Hlen. simpl andb.
    destruct (includes (own_users (messageReactions h) mid e) (Scalar u)) eqn:Hinc;
      simpl negb; cbv iota.
    + apply includes_scalar, (count_occ_In jsval_eq_dec) in Hinc. lia.
    + assert (Hnin : ¬ In (Scalar u) (own_users (messageReactions h) mid e)).
      { intros Hin. apply includes_scalar in Hin. congruence. }
      apply (count_occ_not_In jsval_eq_dec) in Hnin.
      rewrite count_occ_appended, Hnin. reflexivity.
  - apply interleaving_concat.
  - apply run_tasks_concat.
Qed.

Lemma racing_schedule_interleaves : interleaving (map tasks_of two_adds) racing_schedule.
Proof.
  apply (interleaving_step [] _ _ [_]).
  apply (interleaving_step [_] _ _ []).
  apply (interleaving_step [] _ _ [_]).
  apply (interleaving_step [_] _ _ []).
  apply (interleaving_step [] _ _ [_]).
  apply interleaving_done. repeat constructor.
Defined.

(** The optimistic update of [onAddReaction] on ordinary keys: the user is
    appended, whether the list has it or not, and the event is emitted. *)
Lemma onAddReaction_plain (user : gmap string scalar) (conv : Conversation)
    (mid e : jsval) (h : Hub) :
  selectedConversation h = Some conv →
  inherited (val_to_string mid) = false →
  inherited (val_to_string e) = false →
  ∃ h', onAddReaction user true mid e h
        = Some (h', [("messageReaction", reaction_request "add" mid e (c_id conv))])
  ∧ selectedConversation h' = Some conv
  ∧ own_users (messageReactions h') mid e
    = own_users (messageReactions h) mid e ++ [Scalar (sfield user "id")].
Proof.
  intros Hsel Hmid He.
  unfold onAddReaction, onAddReaction_optimistic, update_messageReactions.
  rewrite (optimistic_users_plain _ _ _ Hmid He), Hsel.
  eexists. split; [reflexivity|]. split; [exact Hsel|].
  simpl. apply own_users_set.
Qed.

(** C3: a repeated add is not idempotent on the hub that sends the
    reaction.  [onAddReaction] appends the user's id to the list of the
    emoji without looking whether the list has it, and then emits the
    event.  A user who
    adds the same reaction twice (message id and emoji naming no member of
    [Object.prototype]) ends, in the own hub, twice under that emoji of that
    message: the server answers each event with the same broadcast, under
    every schedule of the two handlers, the hub, in the conversation room,
    receives both, and [handleMessageReactionFromSocket], which does look,
    leaves the list as the optimistic updates made it. *)
Theorem own_reaction_added_twice_is_listed_twice
    (parseDate : string → option Z) (user : gmap string scalar)
    (st : Server) (sock : Socket) (h : Hub) (conv : Conversation)
    (mid e : jsval) (env1 env2 : db_env) (sched : list task)
    (Hsel : selectedConversation h = Some conv)
    (Huser : userId sock = sfield user "id")
    (Hroom : sock_id sock ∈ in_rooms st (c_id conv))
    (Hmid : inherited (val_to_string mid) = false)
    (He : inherited (val_to_string e) = false)
    (Hsched : interleaving
                (map tasks_of [(sock, reaction_request "add" mid e (c_id conv), env1);
                               (sock, reaction_request "add" mid e (c_id conv), env2)])
                sched) :
  ∃ h1 h2 h3,
    onAddReaction user true mid e h
    = Some (h1, [("messageReaction", reaction_request "add" mid e (c_id conv))])
    ∧ onAddReaction user true mid e h1
      = Some (h2, [("messageReaction", reaction_request "add" mid e (c_id conv))])
    ∧ List.filter is_emit (snd (run_tasks sched (st, [])))
      = [add_broadcast (sfield user "id") mid e (c_id conv);
         add_broadcast (sfield user "id") mid e (c_id conv)]
    ∧ receive parseDate user h2
        (deliveries st (sock_id sock) (snd (run_tasks sched (st, []))))
      = Some h3
    ∧ own_users (messageReactions h3) mid e
      = own_users (messageReactions h) mid e
        ++ [Scalar (sfield user "id"); Scalar (sfield user "id")]
    ∧ (2 ≤ count_occ jsval_eq_dec (own_users (messageReactions h3) mid e)
             (Scalar (sfield user "id")))%nat.
Proof.
  set (u := sfield user "id") in *.
  destruct (onAddReaction_plain user conv mid e h Hsel Hmid He)
    as (h1 & Hfirst & Hsel1 & Husers1).
  destruct (onAddReaction_plain user conv mid e h1 Hsel1 Hmid He)
    as (h2 & Hsecond & _ & Husers2).
  fold u in Husers1, Husers2.
  assert (Hevs : Forall (add_event u mid e (c_id conv))
                   [(sock, reaction_request "add" mid e (c_id conv), env1);
                    (sock, reaction_request "add" mid e (c_id conv), env2)]).
  { repeat constructor; exact Huser. }
  destruct (add_schedule_emits st u mid e (c_id conv) _ sched Hevs Hsched)
    as [_ Hfilter].
  destruct (receive_adds parseDate user u mid e 2 h2 Hmid He) as (h3 & Hrecv & Husers3).
  exists h1, h2, h3.
  split; [exact Hfirst|]. split; [exact Hsecond|]. split; [exact Hfilter|].
  assert (Hfinal : own_users (messageReactions h3) mid e
                   = own_users (messageReactions h) mid e ++ [Scalar u; Scalar u]).
  { rewrite Husers3, Husers2, includes_appended.
    change (Nat.ltb 0 2 && negb true) with false. cbv iota.
    rewrite Husers1, <- app_assoc. reflexivity. }
  split.
  { rewrite deliveries_emits, Hfilter.
    unfold add_broadcast. rewrite (deliveries_replicate st (sock_id sock) (c_id conv) _ _ _ Hroom).
    exact Hrecv. }
  split; [exact Hfinal|].
  rewrite Hfinal, count_occ_app.
  rewrite (count_occ_cons_eq jsval_eq_dec _ (eq_refl (Scalar u))).
  rewrite (count_occ_cons_eq jsval_eq_dec _ (eq_refl (Scalar u))). lia.
Qed.

Lemma own_reaction_added_twice_is_listed_twice_witness :
  ∃ h1 h2 h3,
    onAddReaction bob true (Scalar (Str "m1")) (Scalar (Str "+1")) (viewing_c1 [ok_first])
    = Some (h1, [("messageReaction", thumbs_up)])
    ∧ onAddReaction bob true (Scalar (Str "m1")) (Scalar (Str "+1")) h1
      = Some (h2, [("messageReaction", thumbs_up)])
    ∧ receive sample_parseDate bob h2
        (deliveries chat_c1 "s2" (snd (run_tasks racing_schedule (chat_c1, []))))
      = Some h3
    ∧ own_users (messageReactions h3) (Scalar (Str "m1")) (Scalar (Str "+1"))
      = [Scalar (Str "u2"); Scalar (Str "u2")].
Proof.
  assert (Hroom : sock_id (mkSocket "s2" (Str "u2")) ∈ in_rooms chat_c1 (Scalar (Str "c1")))
    by (vm_compute; reflexivity).
  destruct (own_reaction_added_twice_is_listed_twice
              sample_parseDate bob chat_c1 (mkSocket "s2" (Str "u2"))
              (viewing_c1 [ok_first]) conversation_c1
              (Scalar (Str "m1")) (Scalar (Str "+1")) DbOk DbWriteFails racing_schedule
              eq_refl eq_refl Hroom eq_refl eq_refl racing_schedule_interleaves)
    as (h1 & h2 & h3 & Hfirst & Hsecond & _ & Hrecv & Husers & _).
  exists h1, h2, h3.
  split; [exact Hfirst|]. split; [exact Hsecond|]. split; [exact Hrecv | exact Husers].
Defined.

(** ** Further facts about the handlers *)

(** A well-formed [groupCreated] event reaches the personal room of every
    participant, the sender's own socket excepted. *)
Lemma groupCreated_fans_out (st : Server) (sock : Socket) (p : obj) (ids : list scalar)
    (g : gmap string scalar) :
  field p "group" = Object g →
  field p "participantIds" = Arr ids →
  on_groupCreated st sock (PObject p)
  = mkResult st
      (Log "Group created:"
       :: map (fun participantId =>
                 Emit (ToRoomExcept (user_room (Scalar participantId)) (sock_id sock))
                      "newGroup" (OutVal (Object g)))
              ids)
      Returned.
Proof.
  intros Hg Hp. unfold on_groupCreated, emit_each. simpl destructure. cbv iota beta.
  rewrite Hg, Hp. simpl. rewrite map_map. reflexivity.
Qed.

(** In [memberAdded] a string in place of the id array is spread into its
    characters, each taken for a participant id. *)
Lemma memberAdded_spreads_a_string :
  emits (on_memberAdded initial_server (mkSocket "s1" (Str "u1"))
           (PObject {[ "group" := Object {[ "id" := Str "g1" ]};
                       "participantIds" := Scalar (Str "ab");
                       "newMemberId" := Scalar (Str "u3") ]}))
  = map (fun room =>
           Emit (ToRoomExcept (Scalar (Str room)) "s1") "groupMemberAdded"
                (OutObj {[ "group" := Object {[ "id" := Str "g1" ]};
                           "newMemberId" := Scalar (Str "u3") ]}))
        ["user_a"; "user_b"; "user_u3"].
Proof. vm_compute. reflexivity. Qed.

(** The three branches of the reaction handler keep a user at most once
    under an emoji. *)
Lemma updated_users_at_most_once (action : jsval) (users : list jsval) (u : scalar) :
  (count_occ jsval_eq_dec users (Scalar u) ≤ 1)%nat →
  (count_occ jsval_eq_dec (updated_users action (Scalar u) users) (Scalar u) ≤ 1)%nat.
Proof.
  intros Hle. unfold updated_users.
  assert (Hwithout : (count_occ jsval_eq_dec (without (Scalar u) users) (Scalar u) ≤ 1)%nat).
  { assert (Hnin : ¬ In (Scalar u) (without (Scalar u) users)).
    { unfold without. rewrite filter_In. intros [_ Hneq].
      rewrite strict_eq_refl_scalar in Hneq. discriminate. }
    apply (count_occ_not_In jsval_eq_dec) in Hnin. lia. }
  assert (Happend : includes users (Scalar u) = false →
                    (count_occ jsval_eq_dec (users ++ [Scalar u]) (Scalar u) ≤ 1)%nat).
  { intros Hinc.
    assert (Hnin : ¬ In (Scalar u) users).
    { intros Hin. apply includes_scalar in Hin. congruence. }
    apply (count_occ_not_In jsval_eq_dec) in Hnin.
    rewrite count_occ_appended, Hnin. lia. }
  destruct (is_action "add" action).
  - destruct (includes users (Scalar u)); [exact Hle | exact (Happend eq_refl)].
  - destruct (is_action "remove" action); [exact Hwithout|].
    destruct (includes users (Scalar u)); [exact Hwithout | exact (Happend eq_refl)].
Qed.

(** The reaction handler of the hub keeps a user at most once under an
    emoji, whatever the action of the event. *)
Lemma apply_reaction_at_most_once (data : obj)
    (prev : gmap string (gmap string (list jsval))) (u : scalar) :
  inherited (val_to_string (field data "messageId")) = false →
  inherited (val_to_string (field data "emoji")) = false →
  field data "userId" = Scalar u →
  (count_occ jsval_eq_dec
     (own_users prev (field data "messageId") (field data "emoji")) (Scalar u)
   ≤ 1)%nat →
  ∃ next, apply_reaction data prev = Some next
  ∧ (count_occ jsval_eq_dec
       (own_users next (field data "messageId") (field data "emoji")) (Scalar u)
     ≤ 1)%nat.
Proof.
  intros Hmid He Hu Hle. eexists. split; [apply apply_reaction_plain; assumption|].
  rewrite own_users_set, Hu. apply updated_users_at_most_once, Hle.
Qed.


(** * Further properties of the code *)

(** Equalities and memberships of finite sets built from unions,
    differences and singletons. *)
Ltac sets :=
  try (apply set_eq; intros ?);
  repeat first [ rewrite elem_of_union | rewrite elem_of_difference
               | rewrite elem_of_singleton | rewrite elem_of_empty ];
  intuition congruence.

(** ** Rooms *)

Lemma members_socket_join (st : Server) (sid : SocketId) (r r' : scalar) :
  members (socket_join sid (Scalar r) st) r'
  = if decide (r' = r) then {[sid]} ∪ members st r else members st r'.
Proof.
  unfold members, socket_join, set_rooms, join_room. simpl.
  destruct (decide (r' = r)) as [->|Hne].
  - rewrite lookup_insert_eq. reflexivity.
  - rewrite lookup_insert_ne by congruence. reflexivity.
Qed.

Lemma members_socket_leave (st : Server) (sid : SocketId) (r r' : scalar) :
  members (socket_leave sid (Scalar r) st) r'
  = if decide (r' = r) then members st r ∖ {[sid]} else members st r'.
Proof.
  unfold members, socket_leave, set_rooms, leave_room. simpl.
  destruct (decide (r' = r)) as [->|Hne].
  - destruct (rooms st !! r) as [s|] eqn:Hr.
    + rewrite lookup_insert_eq. reflexivity.
    + rewrite Hr. simpl. sets.
  - destruct (rooms st !! r) as [s|] eqn:Hr; [|reflexivity].
    rewrite lookup_insert_ne by congruence. reflexivity.
Qed.

Lemma in_rooms_scalar (st : Server) (r : scalar) : in_rooms st (Scalar r) = members st r.
Proof. unfold in_rooms. simpl. sets. Qed.

(** X1: joining a conversation makes the socket a member of the room and
    of no other room; joining again changes nothing; leaving takes this
    socket out of the room and leaves the room's other members and every
    other room as they were. *)
Theorem join_leave_membership
    (st : Server) (sock : Socket) (p : obj) (r : scalar)
    (Hroom : field p "conversationId" = Scalar r) :
  let joined := state (on_joinConversation st sock (PObject p)) in
  let rejoined := state (on_joinConversation joined sock (PObject p)) in
  let left := state (on_leaveConversation joined sock (PObject p)) in
  sock_id sock ∈ members joined r
  ∧ (∀ r', r' ≠ r → members joined r' = members st r')
  ∧ (∀ r', members rejoined r' = members joined r')
  ∧ (sock_id sock ∉ members left r)
  ∧ members left r = members st r ∖ {[sock_id sock]}
  ∧ (∀ r', r' ≠ r → members left r' = members st r')
  ∧ connectedUsers left = connectedUsers st
  ∧ sockets left = sockets st.
Proof.
  cbv zeta. unfold on_joinConversation, on_leaveConversation. simpl destructure.
  cbv iota beta. simpl state. rewrite Hroom.
  repeat split.
  - rewrite members_socket_join. destruct (decide (r = r)); [|contradiction].
    sets.
  - intros r' Hne. rewrite members_socket_join.
    destruct (decide (r' = r)); [contradiction|reflexivity].
  - intros r'. rewrite !members_socket_join.
    destruct (decide (r' = r)) as [->|]; [|reflexivity].
    destruct (decide (r = r)); [|contradiction].
    sets.
  - rewrite members_socket_leave. destruct (decide (r = r)); [|contradiction].
    sets.
  - rewrite members_socket_leave, members_socket_join.
    destruct (decide (r = r)); [|contradiction].
    sets.
  - intros r' Hne. rewrite members_socket_leave.
    destruct (decide (r' = r)); [contradiction|].
    rewrite members_socket_join.
    destruct (decide (r' = r)); [contradiction|reflexivity].
Qed.

Lemma join_leave_membership_witness :
  "s1" ∈ members chat_c1 (Str "c1")
  ∧ "s1" ∉ members
             (state (on_leaveConversation chat_c1 (mkSocket "s1" (Str "u1"))
                       (PObject {[ "conversationId" := Scalar (Str "c1") ]})))
             (Str "c1").
Proof.
  pose proof (join_leave_membership
                (state (on_joinConversation
                          (state (on_connection
                                    (state (on_connection initial_server
                                              (mkSocket "s1" (Str "u1"))))
                                    (mkSocket "s2" (Str "u2"))))
                          (mkSocket "s2" (Str "u2"))
                          (PObject {[ "conversationId" := Scalar (Str "c1") ]})))
                (mkSocket "s1" (Str "u1"))
                {[ "conversationId" := Scalar (Str "c1") ]} (Str "c1") eq_refl)
    as (Hin & _ & _ & Hout & _).
  cbv zeta in Hin, Hout. split; [|exact Hout].
  vm_compute. reflexivity.
Defined.

Lemma members_on_connection (st : Server) (sock : Socket) (room : scalar) :
  members (state (on_connection st sock)) room
  = if decide (room = Str ("user_" +:+ to_string (userId sock))
               ∨ room = Str (sock_id sock))
    then {[sock_id sock]} ∪ members st room
    else members st room.
Proof.
  unfold on_connection. simpl state.
  change (members (set_connectedUsers ?f ?s) room) with (members s room).
  unfold user_room. simpl val_to_string.
  assert (Hown : ∀ r, members (socket_join (sock_id sock) (Scalar (Str (sock_id sock)))
                                 (set_sockets <[sock_id sock := userId sock]> st)) r
                      = if decide (r = Str (sock_id sock))
                        then {[sock_id sock]} ∪ members st r else members st r).
  { intros r. rewrite members_socket_join.
    destruct (decide (r = Str (sock_id sock))) as [->|]; reflexivity. }
  rewrite members_socket_join, !Hown.
  destruct (decide (_ ∨ _)) as [Hor|Hnor].
  - destruct (decide (room = Str ("user_" +:+ to_string (userId sock)))) as [Hp|Hp].
    + rewrite <- Hp. destruct (decide (room = Str (sock_id sock))); [sets|reflexivity].
    + destruct Hor as [?|Ho]; [contradiction|].
      destruct (decide (room = Str (sock_id sock))); [reflexivity|contradiction].
  - destruct (decide (room = Str ("user_" +:+ to_string (userId sock)))); [tauto|].
    destruct (decide (room = Str (sock_id sock))); [tauto|reflexivity].
Qed.

Lemma deliveries_none (st : Server) (c : SocketId) (es : list effect) :
  Forall (fun e => match e with
                   | Emit t _ _ => c ∉ recipients st t
                   | _ => True
                   end) es →
  deliveries st c es = [].
Proof.
  induction 1 as [|e es He _ IH]; [reflexivity|].
  destruct e as [t ev d| | |]; simpl; try exact IH.
  rewrite bool_decide_eq_false_2 by exact He. exact IH.
Qed.

Lemma sendMessage_reaches_member (st : Server) (sender : Socket) (m : obj)
    (env : notify_env) (c : SocketId) :
  truthy (field m "conversationId") = true →
  c ∈ in_rooms st (field m "conversationId") →
  ("receiveMessage", OutObj m)
  ∈ deliveries st c (effects (on_sendMessage st sender (PObject m) env)).
Proof.
  intros Htr Hin.
  destruct (sendMessage_effects_shape st sender m env Htr) as (rest & -> & _).
  simpl. rewrite (bool_decide_eq_true_2 (c ∈ in_rooms st (field m "conversationId")))
    by exact Hin.
  destruct (bool_decide _); [right|]; left.
Qed.

(** X2: room membership belongs to the connection.  A new connection is
    put in two rooms only, the room named by its own socket id and its
    personal room: in any other room it was not in, it stays out, so a
    message fanned out to that room does not reach the new socket until it
    joins, whoever the user is. *)
Theorem new_connection_is_in_no_conversation_room
    (st : Server) (sock sender : Socket) (m : obj) (env : notify_env) (room : scalar)
    (Hconv : field m "conversationId" = Scalar room)
    (Htruthy : truthy_scalar room = true)
    (Hprintable : printable (userId sock))
    (Hpersonal : room ≠ Str ("user_" +:+ to_string (userId sock)))
    (Hown : room ≠ Str (sock_id sock))
    (Hfresh : sock_id sock ∉ members st room) :
  let st' := state (on_connection st sock) in
  members st' room = members st room
  ∧ sock_id sock ∈ members st' (Str (sock_id sock))
  ∧ sock_id sock ∈ members st' (Str ("user_" +:+ to_string (userId sock)))
  ∧ List.filter is_receiveMessage
      (deliveries st' (sock_id sock)
         (effects (on_sendMessage st' sender (PObject m) env))) = []
  ∧ ("receiveMessage", OutObj m)
    ∈ deliveries (state (on_joinConversation st' sock (PObject m))) (sock_id sock)
        (effects (on_sendMessage (state (on_joinConversation st' sock (PObject m)))
                                 sender (PObject m) env)).
Proof.
  cbv zeta.
  assert (Hmem : members (state (on_connection st sock)) room = members st room).
  { rewrite members_on_connection. destruct (decide _) as [[?|?]|]; try contradiction.
    reflexivity. }
  assert (Htr : truthy (field m "conversationId") = true) by (rewrite Hconv; exact Htruthy).
  split; [exact Hmem|].
  split.
  { rewrite members_on_connection. destruct (decide _) as [_|Hn]; [sets|].
    contradiction Hn. right. reflexivity. }
  split.
  { rewrite members_on_connection. destruct (decide _) as [_|Hn]; [sets|].
    contradiction Hn. left. reflexivity. }
  split.
  - destruct (sendMessage_effects_shape (state (on_connection st sock)) sender m env Htr)
      as (rest & -> & Hrest).
    change (?a :: ?b :: ?c :: rest) with ([a; b; c] ++ rest).
    rewrite deliveries_app, List.filter_app.
    destruct (notification_deliveries sample_parseDate ∅ (state (on_connection st sock))
                (sock_id sock) _ _ rest (viewing_c1 []) Hrest) as [_ ->].
    rewrite app_nil_r, (deliveries_none _ _ [_; _; _]); [reflexivity|].
    constructor; [exact I|].
    constructor; [unfold recipients; rewrite Hconv, in_rooms_scalar, Hmem; sets|].
    constructor; [unfold recipients; rewrite Hconv, in_rooms_scalar, Hmem; exact Hfresh|].
    constructor.
  - apply (sendMessage_reaches_member _ sender m env (sock_id sock) Htr).
    rewrite Hconv, in_rooms_scalar.
    unfold on_joinConversation. simpl destructure. cbv iota beta. simpl state.
    rewrite Hconv, members_socket_join. destruct (decide (room = room)); [sets|contradiction].
Qed.

Lemma new_connection_is_in_no_conversation_room_witness :
  List.filter is_receiveMessage
    (deliveries (state (on_connection chat_c1 (mkSocket "s3" (Str "u2")))) "s3"
       (effects (on_sendMessage (state (on_connection chat_c1 (mkSocket "s3" (Str "u2"))))
                   (mkSocket "s1" (Str "u1")) (PObject hello_message) NotifyCreateFails)))
  = [].
Proof.
  assert (Hpersonal : Str "c1" ≠ Str ("user_" +:+ to_string (userId (mkSocket "s3" (Str "u2")))))
    by discriminate.
  assert (Hown : Str "c1" ≠ Str (sock_id (mkSocket "s3" (Str "u2")))) by discriminate.
  assert (Hfresh : sock_id (mkSocket "s3" (Str "u2")) ∉ members chat_c1 (Str "c1")).
  { vm_compute. discriminate. }
  exact (proj1 (proj2 (proj2 (proj2 (new_connection_is_in_no_conversation_room
                         chat_c1 (mkSocket "s3" (Str "u2")) (mkSocket "s1" (Str "u1"))
                         hello_message NotifyCreateFails (Str "c1")
                         eq_refl eq_refl I Hpersonal Hown Hfresh))))).
Defined.

Lemma deliveries_elem (st : Server) (c : SocketId) (es : list effect)
    (t : target) (ev : string) (d : out) :
  Emit t ev d ∈ es → c ∈ recipients st t → (ev, d) ∈ deliveries st c es.
Proof.
  intros Hin Hc. induction es as [|e es IH]; [inversion Hin|].
  apply elem_of_cons in Hin as [<-|Hin].
  - simpl. rewrite bool_decide_eq_true_2 by exact Hc. left.
  - specialize (IH Hin). destruct e as [t' ev' d'| | |]; simpl; try exact IH.
    destruct (bool_decide _); [right|]; exact IH.
Qed.



(** ** Relays *)

Lemma count_id_filter_out (i : scalar) (l : list obj) :
  count_id (Scalar i)
    (List.filter (fun msg => negb (strict_eq (field msg "id") (Scalar i))) l) = 0%nat.
Proof.
  apply count_id_none. intros x Hx.
  apply list_elem_of_In, filter_In in Hx as [_ Hx].
  apply negb_true_iff in Hx. exact Hx.
Qed.

(** X4: [deleteMessage] is relayed as it comes, whoever sends it: every
    other member of the named room receives [messageDeleted], the emitting
    socket does not, the server keeps no trace, and a hub that receives it
    drops every entry with that id and keeps the others in order. *)
Theorem deleteMessage_is_relayed_unchecked
    (parseDate : string → option Z) (user : gmap string scalar)
    (st : Server) (sender : Socket) (p : obj) (c : SocketId) (i : scalar) (h : Hub)
    (Hid : field p "messageId" = Scalar i)
    (Hmember : c ∈ in_rooms st (field p "conversationId"))
    (Hother : c ≠ sock_id sender) :
  let r := on_deleteMessage st sender (PObject p) in
  state r = st
  ∧ deliveries st c (effects r)
    = [("messageDeleted", OutObj {[ "messageId" := Scalar i ]})]
  ∧ deliveries st (sock_id sender) (effects r) = []
  ∧ ∃ h', receive parseDate user h (deliveries st c (effects r)) = Some h'
    ∧ messages h'
      = List.filter (fun msg => negb (strict_eq (field msg "id") (Scalar i))) (messages h)
    ∧ count_id (Scalar i) (messages h') = 0%nat.
Proof.
  cbv zeta. unfold on_deleteMessage. simpl destructure. cbv iota beta.
  simpl state. simpl effects. rewrite Hid.
  assert (Hc : deliveries st c
                 [Emit (ToRoomExcept (field p "conversationId") (sock_id sender))
                       "messageDeleted" (OutObj {[ "messageId" := Scalar i ]})]
               = [("messageDeleted", OutObj {[ "messageId" := Scalar i ]})]).
  { simpl. rewrite bool_decide_eq_true_2; [reflexivity|]. sets. }
  rewrite Hc. split; [reflexivity|]. split; [reflexivity|]. split.
  - simpl. rewrite bool_decide_eq_false_2; [reflexivity|]. sets.
  - eexists. split; [reflexivity|]. split; [reflexivity|]. apply count_id_filter_out.
Qed.

Lemma deleteMessage_is_relayed_unchecked_witness :
  messages
    <$> receive sample_parseDate bob (viewing_c1 [ok_first; hello_message])
          (deliveries chat_c1 "s2"
             (effects (on_deleteMessage chat_c1 (mkSocket "s1" (Str "u1"))
                         (PObject {[ "messageId" := Scalar (Str "m1");
                                     "conversationId" := Scalar (Str "c1") ]}))))
  = Some [hello_message].
Proof.
  assert (Hmember : "s2" ∈ in_rooms chat_c1
                      (field ({[ "messageId" := Scalar (Str "m1");
                                 "conversationId" := Scalar (Str "c1") ]} : obj)
                             "conversationId")).
  { vm_compute. reflexivity. }
  assert (Hother : "s2" ≠ sock_id (mkSocket "s1" (Str "u1"))) by discriminate.
  assert (Hid : field ({[ "messageId" := Scalar (Str "m1");
                          "conversationId" := Scalar (Str "c1") ]} : obj) "messageId"
                = Scalar (Str "m1")) by reflexivity.
  destruct (deleteMessage_is_relayed_unchecked
              sample_parseDate bob chat_c1 (mkSocket "s1" (Str "u1"))
              {[ "messageId" := Scalar (Str "m1");
                 "conversationId" := Scalar (Str "c1") ]}
              "s2" (Str "m1") (viewing_c1 [ok_first; hello_message])
              Hid Hmember Hother) as (_ & _ & _ & h' & Hrecv & Hmsgs & _).
  cbv zeta in Hrecv. rewrite Hrecv. simpl fmap. rewrite Hmsgs. reflexivity.
Defined.

Lemma deliveries_spared (st : Server) (sid : SocketId) (es : list effect) :
  Forall (spares sid) es → deliveries st sid es = [].
Proof.
  intros H. apply deliveries_none. eapply Forall_impl; [exact H|].
  intros [[room s|room|s] ev d| | |]; simpl; try tauto; intros ->; sets.
Qed.

Lemma emit_each_spares (sock : Socket) (items : list jsval) (ev : string) (d : out) :
  Forall (spares (sock_id sock)) (emit_each sock items ev d).
Proof. unfold emit_each. apply Forall_fmap, Forall_true. intros x. reflexivity. Qed.

(** X5: nine of the events are never echoed to the socket that sent them:
    typing, status updates, message deletions and the six group events are
    emitted to rooms or to everyone with the sender's socket excepted,
    whatever rooms the sender is in and whatever the payload names. *)
Theorem relayed_events_spare_the_sender
    (st : Server) (sock : Socket) (name : string) (arg : payload) (env : environment)
    (Hname : name ∈ ["typing"; "updateStatus"; "deleteMessage"; "groupCreated";
                     "groupUpdated"; "memberAdded"; "memberRemoved"; "groupDeleted";
                     "adminRoleChanged"]) :
  deliveries st (sock_id sock) (effects (dispatch st sock name arg env)) = []
  ∧ state (dispatch st sock name arg env) = st.
Proof.
  assert (Hall : Forall (spares (sock_id sock)) (effects (dispatch st sock name arg env))
                 ∧ state (dispatch st sock name arg env) = st).
  { apply list_elem_of_In in Hname. simpl in Hname.
    destruct Hname as [<-|[<-|[<-|[<-|[<-|[<-|[<-|[<-|[<-|[]]]]]]]]]];
      unfold dispatch; simpl;
      [unfold on_typing | unfold on_updateStatus | unfold on_deleteMessage
      | unfold on_groupCreated | unfold on_groupUpdated | unfold on_memberAdded
      | unfold on_memberRemoved | unfold on_groupDeleted | unfold on_adminRoleChanged];
      destruct (destructure arg) as [p|]; simpl;
      try (split; [repeat constructor|reflexivity]);
      try (destruct (get_id (field p "group")); simpl;
           try (split; [repeat constructor|reflexivity]));
      try (destruct (for_each_items (field p "participantIds")); simpl);
      try (destruct (spread_items (field p "participantIds")); simpl);
      (split; [|reflexivity]);
      repeat constructor;
      rewrite ?Forall_app; repeat split; try apply emit_each_spares;
      repeat constructor. }
  destruct Hall as [Hsp Hst]. split; [apply deliveries_spared, Hsp|exact Hst].
Qed.

Lemma relayed_events_spare_the_sender_witness :
  deliveries chat_c1 "s1"
    (effects (dispatch chat_c1 (mkSocket "s1" (Str "u1")) "typing"
                (PObject {[ "conversationId" := Scalar (Str "c1");
                            "isTyping" := Scalar (Bool true) ]})
                (mkEnv NotifyCreateFails DbOk)))
  = [].
Proof.
  apply (relayed_events_spare_the_sender chat_c1 (mkSocket "s1" (Str "u1")) "typing").
  apply list_elem_of_In. left. reflexivity.
Defined.

Lemma not_in_without (v : scalar) (l : list jsval) : ¬ In (Scalar v) (without (Scalar v) l).
Proof.
  unfold without. rewrite filter_In. intros [_ H].
  rewrite strict_eq_refl_scalar in H. discriminate.
Qed.

(** X6: a typing event reaches the other members of the conversation room
    under the sender's own identity.  Their hub lists the sender while the
    flag is truthy, never twice, and no longer once a falsy flag arrives; a
    hub of the same user (another device) ignores the event. *)
Theorem typing_indicator_follows_the_flag
    (parseDate : string → option Z) (user : gmap string scalar)
    (st : Server) (sender : Socket) (p : obj) (c : SocketId) (h : Hub)
    (Hmember : c ∈ in_rooms st (field p "conversationId"))
    (Hother : c ≠ sock_id sender) :
  let ds := deliveries st c (effects (on_typing st sender (PObject p))) in
  let who := Scalar (userId sender) in
  ds = [("userTyping", OutObj {[ "userId" := who; "isTyping" := field p "isTyping" ]})]
  ∧ ∃ h', receive parseDate user h ds = Some h'
    ∧ (userId sender = sfield user "id" → typingUsers h' = typingUsers h)
    ∧ (userId sender ≠ sfield user "id" → truthy (field p "isTyping") = true →
       In who (typingUsers h')
       ∧ (In who (typingUsers h) → typingUsers h' = typingUsers h)
       ∧ (¬ In who (typingUsers h) → typingUsers h' = typingUsers h ++ [who]))
    ∧ (userId sender ≠ sfield user "id" → truthy (field p "isTyping") = false →
       ¬ In who (typingUsers h')
       ∧ typingUsers h' = without who (typingUsers h))
    ∧ messages h' = messages h.
Proof.
  cbv zeta. unfold on_typing. simpl destructure. cbv iota beta. simpl effects.
  assert (Hds : deliveries st c
                  [Emit (ToRoomExcept (field p "conversationId") (sock_id sender))
                        "userTyping"
                        (OutObj {[ "userId" := Scalar (userId sender);
                                   "isTyping" := field p "isTyping" ]})]
                = [("userTyping",
                    OutObj {[ "userId" := Scalar (userId sender);
                              "isTyping" := field p "isTyping" ]})]).
  { simpl. rewrite bool_decide_eq_true_2; [reflexivity|]. sets. }
  rewrite Hds. split; [reflexivity|].
  eexists. split; [reflexivity|].
  change (field {[ "userId" := Scalar (userId sender);
                   "isTyping" := field p "isTyping" ]} "userId")
    with (Scalar (userId sender)).
  change (field {[ "userId" := Scalar (userId sender);
                   "isTyping" := field p "isTyping" ]} "isTyping")
    with (field p "isTyping").
  unfold handleTyping. simpl strict_eq.
  split; [|split; [|split]].
  - intros Heq. rewrite bool_decide_eq_true_2 by exact Heq. reflexivity.
  - intros Hne Hflag. rewrite bool_decide_eq_false_2 by exact Hne.
    simpl typingUsers. rewrite Hflag.
    destruct (includes (typingUsers h) (Scalar (userId sender))) eqn:Hinc.
    + apply includes_scalar in Hinc. repeat split; [exact Hinc|contradiction].
    + assert (Hnin : ¬ In (Scalar (userId sender)) (typingUsers h)).
      { intros Hin. apply includes_scalar in Hin. congruence. }
      split; [apply in_or_app; right; left; reflexivity|].
      split; [contradiction|reflexivity].
  - intros Hne Hflag. rewrite bool_decide_eq_false_2 by exact Hne.
    simpl typingUsers. rewrite Hflag. split; [apply not_in_without|reflexivity].
  - destruct (bool_decide _); reflexivity.
Qed.

Lemma typing_indicator_follows_the_flag_witness :
  typingUsers
    <$> receive sample_parseDate bob (viewing_c1 [])
          (deliveries chat_c1 "s2"
             (effects (on_typing chat_c1 (mkSocket "s1" (Str "u1"))
                         (PObject {[ "conversationId" := Scalar (Str "c1");
                                     "isTyping" := Scalar (Bool true) ]}))))
  = Some [Scalar (Str "u1")].
Proof.
  assert (Hmember : "s2" ∈ in_rooms chat_c1
                      (field ({[ "conversationId" := Scalar (Str "c1");
                                 "isTyping" := Scalar (Bool true) ]} : obj)
                             "conversationId")).
  { vm_compute. reflexivity. }
  assert (Hother : "s2" ≠ sock_id (mkSocket "s1" (Str "u1"))) by discriminate.
  destruct (typing_indicator_follows_the_flag
              sample_parseDate bob chat_c1 (mkSocket "s1" (Str "u1"))
              {[ "conversationId" := Scalar (Str "c1");
                 "isTyping" := Scalar (Bool true) ]}
              "s2" (viewing_c1 []) Hmember Hother) as (_ & h' & Hrecv & _ & Hon & _).
  cbv zeta in Hrecv, Hon. rewrite Hrecv. simpl fmap.
  assert (Hne : userId (mkSocket "s1" (Str "u1")) ≠ sfield bob "id") by discriminate.
  destruct (Hon Hne eq_refl) as (_ & _ & Happend).
  rewrite Happend; [reflexivity|]. intros [].
Defined.

(** X7: a status update reaches every other live socket under the sender's
    own identity, and so does the offline notice of a disconnect.  A hub
    counts the user as online exactly after a status ['online']; any other
    status, the offline notice included, takes the user out. *)
Theorem online_set_follows_status
    (parseDate : string → option Z) (user : gmap string scalar)
    (st : Server) (sender : Socket) (p : obj) (c : SocketId) (h : Hub)
    (Hlive : is_Some (sockets st !! c))
    (Hother : c ≠ sock_id sender) :
  let who := Scalar (userId sender) in
  deliveries st c (effects (on_updateStatus st sender (PObject p)))
  = [("userStatusUpdate", OutObj {[ "userId" := who; "status" := field p "status" ]})]
  ∧ ∃ h1 h2,
      receive parseDate user h
        (deliveries st c (effects (on_updateStatus st sender (PObject p)))) = Some h1
      ∧ receive parseDate user h1
          (deliveries st c (effects (on_disconnect st sender))) = Some h2
      ∧ (field p "status" = Scalar (Str "online") → who ∈ onlineUsers h1)
      ∧ (field p "status" ≠ Scalar (Str "online") → who ∉ onlineUsers h1)
      ∧ (∀ other, other ≠ who → (other ∈ onlineUsers h1 ↔ other ∈ onlineUsers h))
      ∧ (who ∉ onlineUsers h2).
Proof.
  cbv zeta. unfold on_updateStatus, on_disconnect. simpl destructure. cbv iota beta.
  simpl effects.
  assert (Hc : c ∈ dom (sockets st) ∖ {[sock_id sender]}).
  { apply elem_of_difference. split; [apply elem_of_dom, Hlive|sets]. }
  assert (Hd1 : ∀ ev d, deliveries st c [Emit (BroadcastExcept (sock_id sender)) ev d]
                        = [(ev, d)]).
  { intros ev d. simpl. rewrite bool_decide_eq_true_2 by exact Hc. reflexivity. }
  assert (Hd2 : ∀ l ev d, deliveries st c [Log l; Emit (BroadcastExcept (sock_id sender)) ev d]
                          = [(ev, d)]).
  { intros l ev d. simpl. rewrite bool_decide_eq_true_2 by exact Hc. reflexivity. }
  rewrite Hd1, Hd2. split; [reflexivity|].
  eexists. eexists. split; [reflexivity|]. split; [reflexivity|].
  unfold offline_status.
  change (field {[ "userId" := Scalar (userId sender);
                   "status" := field p "status" ]} "userId")
    with (Scalar (userId sender)).
  change (field {[ "userId" := Scalar (userId sender);
                   "status" := field p "status" ]} "status")
    with (field p "status").
  change (field {[ "userId" := Scalar (userId sender);
                   "status" := Scalar (Str "offline") ]} "userId")
    with (Scalar (userId sender)).
  change (field {[ "userId" := Scalar (userId sender);
                   "status" := Scalar (Str "offline") ]} "status")
    with (Scalar (Str "offline")).
  unfold handleUserStatusUpdate. simpl onlineUsers.
  change (is_action "online" (Scalar (Str "offline"))) with false. cbv iota.
  assert (Hact : is_action "online" (field p "status") = true
                 ↔ field p "status" = Scalar (Str "online")).
  { unfold is_action. rewrite strict_eq_same_scalar. unfold same_scalar. split.
    - intros (i & -> & Hi). congruence.
    - intros ->. eexists. split; reflexivity. }
  split; [|split; [|split]].
  - intros Hon. rewrite (proj2 Hact Hon). sets.
  - intros Hoff. destruct (is_action "online" (field p "status")) eqn:Ha.
    + exfalso. apply Hoff, Hact. reflexivity.
    + sets.
  - intros other Hne. destruct (is_action "online" (field p "status")); sets.
  - sets.
Qed.

Lemma online_set_follows_status_witness :
  ∃ h1,
    receive sample_parseDate bob (viewing_c1 [])
      (deliveries chat_c1 "s2"
         (effects (on_updateStatus chat_c1 (mkSocket "s1" (Str "u1"))
                     (PObject {[ "status" := Scalar (Str "online") ]}))))
    = Some h1
    ∧ Scalar (Str "u1") ∈ onlineUsers h1.
Proof.
  assert (Hlive : is_Some (sockets chat_c1 !! "s2")) by (eexists; reflexivity).
  assert (Hother : "s2" ≠ sock_id (mkSocket "s1" (Str "u1"))) by discriminate.
  destruct (online_set_follows_status
              sample_parseDate bob chat_c1 (mkSocket "s1" (Str "u1"))
              {[ "status" := Scalar (Str "online") ]} "s2" (viewing_c1 [])
              Hlive Hother) as (_ & h1 & h2 & Hrecv & _ & Hon & _).
  exists h1. split; [exact Hrecv|]. apply Hon. reflexivity.
Defined.

(** ** Presence along a trace *)

Lemma members_join_any (sid : SocketId) (v : jsval) (st : Server) (room : scalar)
    (x : SocketId) :
  x ∈ members (socket_join sid v st) room → x ∈ members st room ∨ x = sid.
Proof.
  unfold socket_join, set_rooms, members. simpl.
  generalize (rooms_of v) as rs. induction rs as [|r rs IH]; simpl; [auto|].
  unfold join_room at 1.
  destruct (decide (room = r)) as [->|Hne].
  - rewrite lookup_insert_eq. simpl. rewrite elem_of_union, elem_of_singleton.
    intros [->|Hx]; [auto|]. apply IH, Hx.
  - rewrite lookup_insert_ne by congruence. exact IH.
Qed.

Lemma members_leave_any (sid : SocketId) (v : jsval) (st : Server) (room : scalar)
    (x : SocketId) :
  x ∈ members (socket_leave sid v st) room → x ∈ members st room.
Proof.
  destruct v as [r| |]; [|auto|auto].
  unfold socket_leave, set_rooms, members, leave_room. simpl.
  destruct (rooms st !! r) as [s|] eqn:Hr; [|auto].
  destruct (decide (room = r)) as [->|Hne].
  - rewrite lookup_insert_eq, Hr. simpl. rewrite elem_of_difference. tauto.
  - rewrite lookup_insert_ne by congruence. auto.
Qed.

Lemma create_notification_frame (st : Server) (sock : Socket) (m : obj)
    (env : notify_env) :
  sockets (fst (create_notification st sock m env)) = sockets st
  ∧ connectedUsers (fst (create_notification st sock m env)) = connectedUsers st
  ∧ rooms (fst (create_notification st sock m env)) = rooms st
  ∧ reactionTable (fst (create_notification st sock m env)) = reactionTable st.
Proof.
  unfold create_notification. destruct env as [| |n ok]; simpl; auto.
  destruct (notification_data m); simpl; auto.
Qed.

Lemma persist_reaction_frame (st : Server) (action : jsval) (row : ReactionRow)
    (env : db_env) :
  sockets (fst (persist_reaction st action row env)) = sockets st
  ∧ connectedUsers (fst (persist_reaction st action row env)) = connectedUsers st
  ∧ rooms (fst (persist_reaction st action row env)) = rooms st
  ∧ notificationTable (fst (persist_reaction st action row env)) = notificationTable st.
Proof.
  unfold persist_reaction. destruct env; simpl; auto.
  destruct (reaction_write action row); simpl; auto.
Qed.

(** What no handler of an incoming event touches: the live sockets and the
    connected-users table; and a room gains at most the handling socket. *)
Lemma dispatch_frame (st : Server) (sock : Socket) (name : string) (arg : payload)
    (env : environment) :
  sockets (state (dispatch st sock name arg env)) = sockets st
  ∧ connectedUsers (state (dispatch st sock name arg env)) = connectedUsers st
  ∧ (∀ room x, x ∈ members (state (dispatch st sock name arg env)) room →
               x ∈ members st room ∨ x = sock_id sock).
Proof.
  unfold dispatch.
  repeat match goal with
         | |- context [if String.eqb name ?s then _ else _] =>
             destruct (String.eqb name s)
         end.
  - unfold on_joinConversation. destruct (destructure arg); simpl; repeat split; auto.
    intros room x. apply members_join_any.
  - unfold on_leaveConversation. destruct (destructure arg) as [p|]; cbn [state];
      [|repeat split; auto].
    split; [destruct (field p "conversationId"); reflexivity|].
    split; [destruct (field p "conversationId"); reflexivity|].
    intros room x Hx. left. eapply members_leave_any, Hx.
  - unfold on_sendMessage. destruct (destructure arg) as [m|]; simpl;
      [|repeat split; auto].
    destruct (notification_wanted m); simpl; [|repeat split; auto].
    destruct (create_notification_frame st sock m (notify env)) as (Hs & Hc & Hr & _).
    destruct (create_notification st sock m (notify env)) as [st' es]. simpl in *.
    repeat split; auto. unfold members. rewrite Hr. auto.
  - unfold on_typing. destruct (destructure arg); simpl; repeat split; auto.
  - unfold on_updateStatus. destruct (destructure arg); simpl; repeat split; auto.
  - unfold on_deleteMessage. destruct (destructure arg); simpl; repeat split; auto.
  - unfold on_messageReaction. destruct (destructure arg) as [p|]; simpl;
      [|repeat split; auto].
    destruct (persist_reaction_frame st (field p "action") (reaction_row sock p) (db env))
      as (Hs & Hc & Hr & _).
    destruct (persist_reaction st (field p "action") (reaction_row sock p) (db env))
      as [st' es]. simpl in *.
    repeat split; auto. unfold members. rewrite Hr. auto.
  - unfold on_groupCreated. destruct (destructure arg) as [p|]; simpl;
      [|repeat split; auto].
    destruct (get_id _); simpl; [|repeat split; auto].
    destruct (for_each_items _); simpl; repeat split; auto.
  - unfold on_groupUpdated. destruct (destructure arg) as [p|]; simpl;
      [|repeat split; auto].
    destruct (get_id _); simpl; [|repeat split; auto].
    destruct (for_each_items _); simpl; repeat split; auto.
  - unfold on_memberAdded. destruct (destructure arg) as [p|]; simpl;
      [|repeat split; auto].
    destruct (get_id _); simpl; [|repeat split; auto].
    destruct (spread_items _); simpl; repeat split; auto.
  - unfold on_memberRemoved. destruct (destructure arg) as [p|]; simpl;
      [|repeat split; auto].
    destruct (get_id _); simpl; [|repeat split; auto].
    destruct (for_each_items _); simpl; repeat split; auto.
  - unfold on_groupDeleted. destruct (destructure arg) as [p|]; simpl;
      [|repeat split; auto].
    destruct (for_each_items _); simpl; repeat split; auto.
  - unfold on_adminRoleChanged. destruct (destructure arg) as [p|]; simpl;
      [|repeat split; auto].
    destruct (get_id _); simpl; [|repeat split; auto].
    destruct (for_each_items _); simpl; repeat split; auto.
  - simpl. repeat split; auto.
Qed.

Lemma step_keeps_presence_consistent
    (jwt_verify : string → option (gmap string scalar)) (st : Server) (ev : client_event) :
  presence_consistent st →
  match ev with
  | Connect sid _ => sockets st !! sid = None
  | _ => True
  end →
  presence_consistent (state (step jwt_verify st ev)).
Proof.
  intros [Hrooms Htable] Hfresh. destruct ev as [sid token|sid name arg env|sid]; simpl.
  - unfold connect. destruct (auth_middleware jwt_verify token) as [err|uid]; simpl;
      [split; assumption|].
    change (presence_consistent (state (on_connection st (mkSocket sid uid)))).
    split.
    + intros room x Hx. rewrite sockets_on_connection. simpl.
      rewrite members_on_connection in Hx. simpl in Hx.
      assert (Hcase : x = sid ∨ x ∈ members st room).
      { destruct (decide _); [|auto]. revert Hx. sets. }
      destruct (decide (x = sid)) as [->|Hne].
      * rewrite lookup_insert_eq. eexists. reflexivity.
      * rewrite lookup_insert_ne by congruence.
        destruct Hcase as [?|Hx']; [contradiction|]. apply (Hrooms room), Hx'.
    + intros u s. rewrite sockets_on_connection, connectedUsers_on_connection. simpl.
      intros Hu. destruct (decide (u = uid)) as [->|Hne].
      * rewrite lookup_insert_eq in Hu. injection Hu as <-. apply lookup_insert_eq.
      * rewrite lookup_insert_ne in Hu by congruence.
        pose proof (Htable u s Hu) as Hs.
        rewrite lookup_insert_ne; [exact Hs|]. intros ->. congruence.
  - destruct (sockets st !! sid) as [uid|] eqn:Hsid; simpl; [|split; assumption].
    destruct (dispatch_frame st (mkSocket sid uid) name arg env) as (Hs & Hc & Hm).
    split.
    + intros room x Hx. rewrite Hs. destruct (Hm room x Hx) as [Hx'| ->].
      * apply (Hrooms room), Hx'.
      * simpl. rewrite Hsid. eexists. reflexivity.
    + intros u s Hu. rewrite Hs. rewrite Hc in Hu. apply Htable, Hu.
  - destruct (sockets st !! sid) as [uid|] eqn:Hsid; simpl; [|split; assumption].
    change (presence_consistent (state (on_disconnect st (mkSocket sid uid)))).
    split.
    + intros room x Hx. rewrite sockets_on_disconnect. simpl.
      rewrite members_on_disconnect in Hx. simpl in Hx.
      apply elem_of_difference in Hx as [Hx Hne]. rewrite elem_of_singleton in Hne.
      rewrite lookup_delete_ne by congruence. apply (Hrooms room), Hx.
    + intros u s. rewrite sockets_on_disconnect, connectedUsers_on_disconnect. simpl.
      intros Hu. destruct (decide (u = uid)) as [->|Hne].
      * rewrite lookup_delete_eq in Hu. discriminate.
      * rewrite lookup_delete_ne in Hu by congruence.
        pose proof (Htable u s Hu) as Hs.
        rewrite lookup_delete_ne; [exact Hs|]. intros ->. congruence.
Qed.

(** X8: along every trace of connections, events and disconnects in which
    each connection gets a socket id no live socket has, every member of
    every room is a live socket and every entry of the connected-users
    table names a live socket of that identity; so whatever is emitted
    next reaches live sockets only. *)
Theorem presence_stays_consistent
    (jwt_verify : string → option (gmap string scalar)) (evs : list client_event)
    (Hfresh : fresh_ids jwt_verify initial_server evs) :
  let st := fst (run jwt_verify initial_server evs) in
  presence_consistent st
  ∧ (∀ t c, c ∈ recipients st t → is_Some (sockets st !! c)).
Proof.
  cbv zeta.
  assert (Hrun : ∀ st, presence_consistent st → fresh_ids jwt_verify st evs →
                       presence_consistent (fst (run jwt_verify st evs))).
  { clear Hfresh. induction evs as [|ev evs IH]; intros st Hst Hf; [exact Hst|].
    simpl in Hf. destruct Hf as [Hev Hf]. simpl.
    pose proof (step_keeps_presence_consistent jwt_verify st ev Hst Hev) as Hstep.
    specialize (IH (state (step jwt_verify st ev)) Hstep Hf).
    destruct (outcome (step jwt_verify st ev)); [|exact Hstep].
    destruct (run jwt_verify (state (step jwt_verify st ev)) evs). exact IH. }
  assert (Hinit : presence_consistent initial_server).
  { split.
    - intros room sid Hin. unfold members in Hin. simpl in Hin.
      rewrite lookup_empty in Hin. simpl in Hin. revert Hin. sets.
    - intros u s Hu. simpl in Hu. rewrite lookup_empty in Hu. discriminate. }
  pose proof (Hrun initial_server Hinit Hfresh) as Hcons.
  split; [exact Hcons|].
  destruct Hcons as [Hrooms _].
  assert (Hin_rooms : ∀ room c, c ∈ in_rooms (fst (run jwt_verify initial_server evs)) room →
                                is_Some (sockets (fst (run jwt_verify initial_server evs)) !! c)).
  { assert (Hnamed : ∀ rs c,
              c ∈ foldr (fun r acc => members (fst (run jwt_verify initial_server evs)) r
                                      ∪ acc) ∅ rs →
              is_Some (sockets (fst (run jwt_verify initial_server evs)) !! c)).
    { intros rs c. induction rs as [|r rs IH]; simpl; [sets|].
      rewrite elem_of_union. intros [Hc|Hc]; [apply (Hrooms r), Hc|apply IH, Hc]. }
    intros room c. unfold in_rooms. destruct room as [r|[|x xs]|o].
    - apply Hnamed.
    - rewrite elem_of_dom. tauto.
    - apply Hnamed.
    - apply Hnamed. }
  intros [room s|room|s] c; simpl.
  - rewrite elem_of_difference. intros [Hc _]. apply (Hin_rooms room), Hc.
  - apply Hin_rooms.
  - rewrite elem_of_difference, elem_of_dom. tauto.
Qed.

Lemma presence_stays_consistent_witness :
  presence_consistent
    (fst (run sample_verify initial_server
            [Connect "s1" (Str "tok-u1");
             Connect "s2" (Str "tok-u1");
             Incoming "s2" "joinConversation"
                      (PObject {[ "conversationId" := Scalar (Str "c1") ]})
                      (mkEnv NotifyCreateFails DbOk);
             Disconnect "s1"])).
Proof.
  apply (presence_stays_consistent sample_verify).
  vm_compute. repeat split.
Defined.

(** ** Reactions beyond add *)

Lemma deleteMany_reaction_gone (row : ReactionRow) (t : list ReactionRow) :
  row ∉ deleteMany_reaction row t.
Proof.
  unfold deleteMany_reaction. rewrite list_elem_of_filter. tauto.
Qed.

Lemma deleteMany_reaction_idempotent (row : ReactionRow) (t : list ReactionRow) :
  deleteMany_reaction row (deleteMany_reaction row t) = deleteMany_reaction row t.
Proof.
  unfold deleteMany_reaction. induction t as [|a t IH]; [reflexivity|].
  rewrite (filter_cons _ a t). destruct (decide (a ≠ row)) as [Hne|Heq]; [|exact IH].
  rewrite (filter_cons _ a (filter _ t)).
  destruct (decide (a ≠ row)); [|contradiction]. rewrite IH. reflexivity.
Qed.



Lemma on_messageReaction_object (st : Server) (sock : Socket) (p : obj) (env : db_env) :
  on_messageReaction st sock (PObject p) env
  = mkResult (fst (persist_reaction st (field p "action") (reaction_row sock p) env))
             (Log "Message reaction:"
                  :: snd (persist_reaction st (field p "action") (reaction_row sock p) env)
                  ++ [reaction_broadcast sock p])
             Returned.
Proof.
  unfold on_messageReaction. simpl destructure. cbv iota beta.
  destruct (persist_reaction st (field p "action") (reaction_row sock p) env).
  reflexivity.
Qed.

Lemma reaction_deliveries (st : Server) (sock : Socket) (p : obj) (env : db_env)
    (c : SocketId) :
  c ∈ in_rooms st (field p "conversationId") →
  deliveries st c (effects (on_messageReaction st sock (PObject p) env))
  = [("messageReaction",
      OutObj {[ "messageId" := field p "messageId";
                "emoji" := field p "emoji";
                "action" := field p "action";
                "userId" := Scalar (userId sock) ]})].
Proof.
  intros Hc. rewrite on_messageReaction_object. cbn [effects].
  destruct (persist_reaction_effects st (field p "action") (reaction_row sock p) env)
    as [-> | ->]; simpl; rewrite bool_decide_eq_true_2 by exact Hc; reflexivity.
Qed.



(** X10: whatever the database does and whatever the action says, the
    reaction handler returns and emits one thing only, the broadcast of the
    event to the whole conversation room, the sender's socket included when
    it is in the room; a failed import or write leaves the state as it was,
    and an action other than add and remove never writes. *)
Theorem reaction_is_broadcast_whatever_the_database_does
    (st : Server) (sock : Socket) (p : obj) (env : db_env) :
  let r := on_messageReaction st sock (PObject p) env in
  outcome r = Returned
  ∧ emits r = [reaction_broadcast sock p]
  ∧ (∀ c, c ∈ in_rooms st (field p "conversationId") →
          deliveries st c (effects r)
          = [("messageReaction",
              OutObj {[ "messageId" := field p "messageId";
                        "emoji" := field p "emoji";
                        "action" := field p "action";
                        "userId" := Scalar (userId sock) ]})])
  ∧ (env = DbImportFails ∨ env = DbWriteFails → state r = st)
  ∧ (is_action "add" (field p "action") = false →
     is_action "remove" (field p "action") = false →
     reactionTable (state r) = reactionTable st).
Proof.
  cbv zeta. split; [rewrite on_messageReaction_object; reflexivity|].
  split.
  { rewrite on_messageReaction_object. unfold emits. cbn [effects].
    destruct (persist_reaction_effects st (field p "action") (reaction_row sock p) env)
      as [-> | ->]; reflexivity. }
  split; [intros c Hc; apply reaction_deliveries; exact Hc|].
  rewrite on_messageReaction_object. cbn [state]. split.
  - unfold persist_reaction. intros [-> | ->]; [reflexivity|].
    destruct (reaction_write _ _); reflexivity.
  - intros Ha Hr. unfold persist_reaction, reaction_write. rewrite Ha, Hr.
    destruct env; reflexivity.
Qed.

(** ** Message notifications *)







(** On ASCII text the code units are the characters. *)
Lemma utf16_ascii (n : nat) (s : string) :
  is_ascii s = true →
  utf16_length s = String.length s
  ∧ utf16_take n s = String.substring 0 n s.
Proof.
  revert n. induction s as [|c rest IH]; intros n Hs.
  - split; [reflexivity | destruct n; reflexivity].
  - cbn [is_ascii] in Hs. apply andb_true_iff in Hs as [Hc Hrest].
    apply Nat.ltb_lt in Hc.
    assert (Hcont : is_continuation c = false).
    { unfold is_continuation. destruct (Nat.leb_spec 128 (nat_of_ascii c)); [lia|].
      reflexivity. }
    assert (Hlead : is_lead4 c = false).
    { unfold is_lead4. destruct (Nat.leb_spec 240 (nat_of_ascii c)); [lia|].
      reflexivity. }
    split.
    + cbn [utf16_length String.length]. unfold code_units. rewrite Hcont, Hlead.
      rewrite (proj1 (IH 0%nat Hrest)). reflexivity.
    + cbn [utf16_take]. rewrite Hcont. destruct n as [|n]; [reflexivity|].
      rewrite Hlead. cbn [String.substring]. rewrite (proj2 (IH n Hrest)). reflexivity.
Qed.








(** ** Group events and the personal room *)

(** X13: the connection handler is what makes group events arrive.  A
    socket that has connected receives the [newGroup] of every
    [groupCreated] another socket sends with its identity among the
    participants; once it has left its own personal room through
    [leaveConversation], an event addressed to that identity alone reaches
    it no more.  (Identities whose text is the decimal one: numbers below
    [10^21].) *)
Theorem newGroup_arrives_through_the_personal_room
    (st : Server) (sock creator : Socket) (p q : obj)
    (ids : list scalar) (g : gmap string scalar)
    (Hgroup : field p "group" = Object g)
    (Hids : field p "participantIds" = Arr ids)
    (Hother : sock_id sock ≠ sock_id creator)
    (Hprintable : printable (userId sock))
    (Hleave : field q "conversationId" = user_room (Scalar (userId sock))) :
  let connected := state (on_connection st sock) in
  let left := state (on_leaveConversation connected sock (PObject q)) in
  (userId sock ∈ ids →
   ("newGroup", OutVal (Object g))
   ∈ deliveries connected (sock_id sock)
       (effects (on_groupCreated connected creator (PObject p))))
  ∧ ((∀ i, i ∈ ids → printable i ∧ to_string i = to_string (userId sock)) →
     deliveries left (sock_id sock)
       (effects (on_groupCreated left creator (PObject p))) = []).
Proof.
  cbv zeta. rewrite !(groupCreated_fans_out _ creator p ids g Hgroup Hids).
  cbn [effects]. split.
  - intros Hin.
    apply (deliveries_elem _ _ _
             (ToRoomExcept (user_room (Scalar (userId sock))) (sock_id creator))).
    + right. apply list_elem_of_fmap. exists (userId sock). split; [reflexivity|exact Hin].
    + unfold recipients, user_room. simpl val_to_string.
      rewrite in_rooms_scalar, members_on_connection.
      destruct (decide _) as [_|Hne]; [|contradiction Hne; left; reflexivity].
      sets.
  - intros Hall. apply deliveries_none. constructor; [exact I|].
    apply Forall_fmap, Forall_forall. intros i Hi. unfold compose. cbv beta.
    unfold recipients, user_room. simpl val_to_string.
    rewrite (proj2 (Hall i Hi)), in_rooms_scalar.
    unfold on_leaveConversation. simpl destructure. cbv iota beta. cbn [state].
    rewrite Hleave. unfold user_room. simpl val_to_string.
    rewrite members_socket_leave.
    destruct (decide _) as [_|Hne]; [|contradiction Hne; reflexivity].
    sets.
Qed.

Lemma newGroup_arrives_through_the_personal_room_witness :
  deliveries
    (state (on_leaveConversation
              (state (on_connection
                        (state (on_connection initial_server (mkSocket "s1" (Str "u1"))))
                        (mkSocket "s2" (Str "u2"))))
              (mkSocket "s2" (Str "u2")) (PObject leave_own_room)))
    "s2"
    (effects (on_groupCreated
                (state (on_leaveConversation
                          (state (on_connection
                                    (state (on_connection initial_server
                                              (mkSocket "s1" (Str "u1"))))
                                    (mkSocket "s2" (Str "u2"))))
                          (mkSocket "s2" (Str "u2")) (PObject leave_own_room)))
                (mkSocket "s1" (Str "u1")) (PObject family_group)))
  = [].
Proof.
  refine (proj2 (newGroup_arrives_through_the_personal_room
                   (state (on_connection initial_server (mkSocket "s1" (Str "u1"))))
                   (mkSocket "s2" (Str "u2")) (mkSocket "s1" (Str "u1"))
                   family_group leave_own_room [Str "u2"] {[ "id" := Str "g1" ]}
                   eq_refl eq_refl _ I eq_refl) _).
  - discriminate.
  - intros i Hi. apply list_elem_of_singleton in Hi. subst i. split; [exact I|reflexivity].
Defined.

(** ** Sending: the paths beside success *)

Lemma remove_optimistic_unchanged (tempId : jsval) (prev : list obj) :
  (∀ m, m ∈ prev → strict_eq (field m "id") tempId = false) →
  remove_optimistic tempId prev = prev.
Proof.
  intros Hfresh. unfold remove_optimistic. induction prev as [|m prev IH]; [reflexivity|].
  simpl. rewrite (Hfresh m) by left. simpl. rewrite IH; [reflexivity|].
  intros x Hx. apply Hfresh. right. exact Hx.
Qed.

Lemma remove_optimistic_appended (env : send_environment) (optimistic : obj)
    (prev : list obj) :
  (∀ m, m ∈ prev → strict_eq (field m "id") (temp_id env) = false) →
  field optimistic "id" = temp_id env →
  remove_optimistic (temp_id env) (prev ++ [optimistic]) = prev.
Proof.
  intros Hfresh Hid. unfold remove_optimistic. rewrite List.filter_app.
  fold (remove_optimistic (temp_id env) prev).
  rewrite (remove_optimistic_unchanged _ _ Hfresh). simpl.
  rewrite Hid. unfold temp_id. rewrite strict_eq_refl_scalar. simpl.
  apply app_nil_r.
Qed.

Lemma count_id_remove_optimistic (env : send_environment) (l : list obj) :
  count_id (temp_id env) (remove_optimistic (temp_id env) l) = 0%nat.
Proof. apply count_id_filter_out. Qed.

(** X14: a send that throws is rolled back.  When the upload or the
    backend call of a regular conversation rejects, no entry is left under
    the temporary id, the draft holds the trimmed text again, nothing went
    out on the socket and the uploading flag is down, whatever else
    happened to the state while the call waited.  When nothing else
    happened and the temporary id was new, the message list is what it was
    before; the chosen file survives a failed upload but not a failed
    backend call. *)
Theorem failed_send_rolls_back
    (user : gmap string scalar) (env : send_environment) (h : Hub) (conv : Conversation)
    (Hsel : selectedConversation h = Some conv)
    (Hregular : truthy (isAI conv) = false)
    (Hinput : trim (newMessage h) ≠ "" ∨ is_Some (selectedFile h))
    (Hfail : (is_Some (selectedFile h) ∧ upload env = UploadThrows)
             ∨ ((is_Some (selectedFile h) → upload env ≠ UploadThrows)
                ∧ send env = SendThrows)) :
  let h' := handleSendMessage user env h in
  count_id (temp_id env) (messages h') = 0%nat
  ∧ newMessage h' = trim (newMessage h)
  ∧ sent h' = sent h
  ∧ isUploading h' = false
  ∧ (undisturbed env →
     (∀ m, m ∈ messages h → strict_eq (field m "id") (temp_id env) = false) →
     messages h' = messages h
     ∧ selectedFile h'
       = match upload env with
         | UploadThrows => selectedFile h
         | UploadDone _ _ => None
         end).
Proof.
  cbv zeta. destruct Hfail as [[Hfile Hup] | [Hup Hsend]].
  - unfold handleSendMessage. rewrite Hsel, (send_guard_open h Hinput).
    destruct Hfile as [name Hfile]. rewrite Hfile, Hup. cbv zeta iota beta.
    split; [apply count_id_remove_optimistic|].
    split; [reflexivity|]. split; [reflexivity|]. split; [reflexivity|].
    intros [Hq _] Hfresh. rewrite (meanwhile_nothing _ _ Hq). simpl.
    rewrite (remove_optimistic_unchanged _ _ Hfresh). split; [reflexivity|exact Hfile].
  - destruct (handleSendMessage_regular user env h conv Hsel Hregular Hinput Hup)
      as (fileData & h1 & Hh1 & Hsent & Hcall).
    cbv zeta in Hcall. rewrite Hcall, Hsend.
    split; [apply count_id_remove_optimistic|].
    split; [reflexivity|]. split; [exact Hsent|]. split; [reflexivity|].
    intros Hquiet Hfresh. rewrite (meanwhile_nothing _ _ (proj2 Hquiet)), (Hh1 Hquiet).
    simpl. unfold append_optimistic.
    rewrite (remove_optimistic_appended env _ _ Hfresh) by apply optimistic_message_id.
    split; [reflexivity|].
    destruct (upload env) as [|ok file] eqn:Hu; [|reflexivity].
    destruct (selectedFile h) as [name|] eqn:Hfile; [|reflexivity].
    exfalso. apply Hup; [eexists; reflexivity | reflexivity].
Qed.

Lemma failed_send_rolls_back_witness :
  messages (handleSendMessage alice send_hi_throws (composing_in_c1 [hello_message] " hi "))
  = [hello_message]
  ∧ newMessage (handleSendMessage alice send_hi_throws
                  (composing_in_c1 [hello_message] " hi "))
    = "hi".
Proof.
  assert (Hinput : trim (newMessage (composing_in_c1 [hello_message] " hi ")) ≠ ""
                   ∨ is_Some (selectedFile (composing_in_c1 [hello_message] " hi "))).
  { left. vm_compute. discriminate. }
  assert (Hfresh : ∀ m, m ∈ messages (composing_in_c1 [hello_message] " hi ") →
                        strict_eq (field m "id") (temp_id send_hi_throws) = false).
  { intros m Hm. apply list_elem_of_singleton in Hm. subst m. vm_compute. reflexivity. }
  assert (Hfail : (is_Some (selectedFile (composing_in_c1 [hello_message] " hi "))
                   ∧ upload send_hi_throws = UploadThrows)
                  ∨ ((is_Some (selectedFile (composing_in_c1 [hello_message] " hi ")) →
                      upload send_hi_throws ≠ UploadThrows)
                     ∧ send send_hi_throws = SendThrows)).
  { right. split; [|reflexivity]. intros [x Hx]. discriminate Hx. }
  assert (Hquiet : undisturbed send_hi_throws) by (split; reflexivity).
  pose proof (failed_send_rolls_back alice send_hi_throws
                (composing_in_c1 [hello_message] " hi ") _ eq_refl eq_refl
                Hinput Hfail) as (_ & Hn & _ & _ & Hrest).
  split; [exact (proj1 (Hrest Hquiet Hfresh)) | exact Hn].
Defined.

(** X15: a backend answer with [success] false is no error to the hub.
    While nothing else updates the state during the call, the optimistic
    entry stays at the end of the list, still marked optimistic, the draft
    and the chosen file are gone, and nothing goes out on the socket. *)
Theorem unsuccessful_send_leaves_the_entry_pending
    (user : gmap string scalar) (env : send_environment) (h : Hub) (conv : Conversation)
    (data : obj)
    (Hsel : selectedConversation h = Some conv)
    (Hregular : truthy (isAI conv) = false)
    (Hinput : trim (newMessage h) ≠ "" ∨ is_Some (selectedFile h))
    (Hupload : is_Some (selectedFile h) → upload env ≠ UploadThrows)
    (Hsend : send env = SendDone false data)
    (Hquiet : undisturbed env) :
  let h' := handleSendMessage user env h in
  ∃ pending,
    messages h' = messages h ++ [pending]
    ∧ field pending "id" = temp_id env
    ∧ field pending "isOptimistic" = Scalar (Bool true)
    ∧ field pending "content" = Scalar (Str (sent_content h))
    ∧ newMessage h' = ""
    ∧ selectedFile h' = None
    ∧ sent h' = sent h
    ∧ isUploading h' = false.
Proof.
  cbv zeta.
  assert (Hshape : ∀ fileData,
            field (optimistic_message user conv env (trim (newMessage h))
                     (selectedFile h) fileData) "isOptimistic" = Scalar (Bool true)
            ∧ field (optimistic_message user conv env (trim (newMessage h))
                       (selectedFile h) fileData) "content"
              = Scalar (Str (sent_content h))).
  { intros fileData. unfold optimistic_message, field, sent_content.
    rewrite lookup_insert_eq. split; [reflexivity|].
    rewrite lookup_insert_ne by discriminate.
    destruct fileData; repeat (rewrite lookup_insert_ne by discriminate);
      rewrite lookup_insert_eq; reflexivity. }
  destruct (handleSendMessage_regular user env h conv Hsel Hregular Hinput Hupload)
    as (fileData & h1 & Hh1 & _ & Hcall).
  cbv zeta in Hcall.
  rewrite Hcall, Hsend, (meanwhile_nothing _ _ (proj2 Hquiet)), (Hh1 Hquiet). simpl.
  eexists. split; [reflexivity|].
  split; [apply optimistic_message_id|].
  destruct (Hshape fileData) as [H1 H2].
  repeat split; assumption || reflexivity.
Qed.

Lemma unsuccessful_send_leaves_the_entry_pending_witness :
  ∃ pending,
    messages (handleSendMessage alice send_hi_refused
                (composing_in_c1 [hello_message] " hi "))
    = [hello_message] ++ [pending]
    ∧ field pending "isOptimistic" = Scalar (Bool true).
Proof.
  assert (Hinput : trim (newMessage (composing_in_c1 [hello_message] " hi ")) ≠ ""
                   ∨ is_Some (selectedFile (composing_in_c1 [hello_message] " hi "))).
  { left. vm_compute. discriminate. }
  assert (Hupload : is_Some (selectedFile (composing_in_c1 [hello_message] " hi ")) →
                    upload send_hi_refused ≠ UploadThrows).
  { intros [x Hx]. discriminate Hx. }
  assert (Hquiet : undisturbed send_hi_refused) by (split; reflexivity).
  destruct (unsuccessful_send_leaves_the_entry_pending alice send_hi_refused
              (composing_in_c1 [hello_message] " hi ") _ ∅ eq_refl eq_refl
              Hinput Hupload eq_refl Hquiet) as (pending & Hm & _ & Ho & _).
  exists pending. split; [exact Hm | exact Ho].
Defined.

(** X16: a message goes out on the socket only after the backend accepted
    it.  One call puts at most one event on the socket, and only in a
    regular conversation, after a successful backend answer and with the
    socket set; the event carries the conversation id of the selected
    conversation and the user's own id and name, whatever the backend's
    data holds under those keys. *)
Theorem socket_emit_only_after_backend_success
    (user : gmap string scalar) (env : send_environment) (h : Hub) :
  let h' := handleSendMessage user env h in
  (length (sent h') ≤ S (length (sent h)))%nat
  ∧ (∀ m, m ∈ sent h' →
          m ∈ sent h
          ∨ ∃ conv data,
              selectedConversation h = Some conv
              ∧ truthy (isAI conv) = false
              ∧ send env = SendDone true data
              ∧ socket_ready env = true
              ∧ m = outgoing user conv data
              ∧ field m "conversationId" = c_id conv
              ∧ field m "senderId" = Scalar (sfield user "id")
              ∧ field m "senderName" = Scalar (sfield user "username")).
Proof.
  cbv zeta.
  assert (Hcases :
    sent (handleSendMessage user env h) = sent h
    ∨ ∃ conv data,
        selectedConversation h = Some conv ∧ truthy (isAI conv) = false
        ∧ send env = SendDone true data ∧ socket_ready env = true
        ∧ sent (handleSendMessage user env h) = sent h ++ [outgoing user conv data]).
  { unfold handleSendMessage.
    destruct (selectedConversation h) as [conv|] eqn:Hsel; [|left; reflexivity].
    destruct (String.eqb _ _ && _); [left; reflexivity|].
    destruct (selectedFile h) as [name|]; [destruct (upload env) as [|ok file]|];
      try (left; reflexivity);
      (destruct (truthy (isAI conv)) eqn:Hai; [left; reflexivity|]);
      (destruct (send env) as [|[|] data] eqn:Hsend; try (left; reflexivity));
      (destruct (socket_ready env) eqn:Hready; [|left; reflexivity]);
      right; exists conv, data; repeat split; first [assumption | reflexivity]. }
  destruct Hcases as [-> | (conv & data & Hsel & Hai & Hsend & Hready & ->)].
  - split; [lia|]. intros m Hm. left. exact Hm.
  - split; [rewrite length_app; simpl; lia|].
    intros m Hm. apply elem_of_app in Hm as [Hm|Hm]; [left; exact Hm|].
    apply list_elem_of_singleton in Hm. subst m.
    right. exists conv, data. repeat split; try assumption.
    + unfold outgoing, field. repeat (rewrite lookup_insert_ne by discriminate).
      rewrite lookup_insert_eq. reflexivity.
    + unfold outgoing, field. repeat (rewrite lookup_insert_ne by discriminate).
      rewrite lookup_insert_eq. reflexivity.
    + unfold outgoing, field. repeat (rewrite lookup_insert_ne by discriminate).
      rewrite lookup_insert_eq. reflexivity.
Qed.

(** X17: a send in the AI conversation stays on the client.  Whatever
    else happens to the state while the call waits, nothing goes out on
    the socket and the AI list ends with the user's entry followed by the
    entry of the assistant (its answer, the fallback or the error text),
    with no other entry under the temporary id before them.  When nothing
    else happened, the message list of the server conversations is
    untouched, the draft is empty, and the AI list is the former one (a
    temporary id new to it) followed by the two entries. *)
Theorem ai_send_stays_on_the_client
    (user : gmap string scalar) (env : send_environment) (h : Hub) (conv : Conversation)
    (Hsel : selectedConversation h = Some conv)
    (Hai : truthy (isAI conv) = true)
    (Hinput : trim (newMessage h) ≠ "" ∨ is_Some (selectedFile h))
    (Hupload : is_Some (selectedFile h) → upload env ≠ UploadThrows) :
  let h' := handleSendMessage user env h in
  ∃ mine rest,
    aiMessages h' = rest ++ [mine; ai_entry env]
    ∧ count_id (temp_id env) rest = 0%nat
    ∧ field mine "id" = temp_id env
    ∧ field mine "senderId" = Scalar (sfield user "id")
    ∧ sent h' = sent h
    ∧ isUploading h' = false
    ∧ (undisturbed env →
       messages h' = messages h
       ∧ newMessage h' = ""
       ∧ ((∀ m, m ∈ aiMessages h → strict_eq (field m "id") (temp_id env) = false) →
          rest = aiMessages h)).
Proof.
  cbv zeta. unfold handleSendMessage. rewrite Hsel, (send_guard_open h Hinput).
  assert (Hsender : ∀ fileData,
            field (optimistic_message user conv env (trim (newMessage h))
                     (selectedFile h) fileData) "senderId" = Scalar (sfield user "id")).
  { intros fileData. unfold optimistic_message, field.
    rewrite lookup_insert_ne by discriminate.
    destruct fileData; repeat (rewrite lookup_insert_ne by discriminate);
      rewrite lookup_insert_eq; reflexivity. }
  assert (Hgoal : ∀ fileData h1,
            sent h1 = sent h →
            (undisturbed env → h1 = set_isUploading true h) →
            let mine := optimistic_message user conv env (trim (newMessage h))
                          (selectedFile h) fileData in
            let h3 := meanwhile (during_send env)
                        (set_input "" None (set_aiMessages (append_optimistic mine) h1)) in
            let h' := set_isUploading false
                        (set_aiMessages
                           (fun prev => remove_optimistic (temp_id env) prev
                                        ++ [mine; ai_entry env]) h3) in
            ∃ mine rest,
              aiMessages h' = rest ++ [mine; ai_entry env]
              ∧ count_id (temp_id env) rest = 0%nat
              ∧ field mine "id" = temp_id env
              ∧ field mine "senderId" = Scalar (sfield user "id")
              ∧ sent h' = sent h
              ∧ isUploading h' = false
              ∧ (undisturbed env →
                 messages h' = messages h
                 ∧ newMessage h' = ""
                 ∧ ((∀ m, m ∈ aiMessages h →
                          strict_eq (field m "id") (temp_id env) = false) →
                    rest = aiMessages h))).
  { intros fileData h1 Hsent Hh1. cbv zeta.
    eexists. eexists. split; [reflexivity|].
    split; [apply count_id_remove_optimistic|].
    split; [apply optimistic_message_id|]. split; [apply Hsender|].
    split; [exact Hsent|]. split; [reflexivity|].
    intros Hquiet. rewrite (meanwhile_nothing _ _ (proj2 Hquiet)), (Hh1 Hquiet). simpl.
    split; [reflexivity|]. split; [reflexivity|].
    intros Hfresh. unfold append_optimistic.
    apply (remove_optimistic_appended env _ _ Hfresh), optimistic_message_id. }
  destruct (selectedFile h) as [name|] eqn:Hfile.
  - destruct (upload env) as [|ok file] eqn:Hu.
    + exfalso. apply Hupload; [eexists; reflexivity | reflexivity].
    + cbv zeta iota beta. rewrite Hai.
      apply (Hgoal (if ok then Some file else None)
               (meanwhile (during_upload env) (set_isUploading true h)) eq_refl).
      intros [Hq _]. apply meanwhile_nothing, Hq.
  - cbv zeta iota beta. rewrite Hai.
    apply (Hgoal None (set_isUploading true h) eq_refl). reflexivity.
Qed.

Lemma ai_send_stays_on_the_client_witness :
  messages (handleSendMessage alice send_hi_ok (composing_in_ai "hi")) = [hello_message]
  ∧ sent (handleSendMessage alice send_hi_ok (composing_in_ai "hi")) = [].
Proof.
  assert (Hinput : trim (newMessage (composing_in_ai "hi")) ≠ ""
                   ∨ is_Some (selectedFile (composing_in_ai "hi"))).
  { left. vm_compute. discriminate. }
  assert (Hupload : is_Some (selectedFile (composing_in_ai "hi")) →
                    upload send_hi_ok ≠ UploadThrows).
  { intros [x Hx]. discriminate Hx. }
  assert (Hquiet : undisturbed send_hi_ok) by (split; reflexivity).
  destruct (ai_send_stays_on_the_client alice send_hi_ok (composing_in_ai "hi") _
              eq_refl eq_refl Hinput Hupload)
    as (mine & rest & _ & _ & _ & _ & Hs & _ & Hrest).
  split; [exact (proj1 (Hrest Hquiet)) | exact Hs].
Defined.

(** ** The conversation list *)














(** ** Selecting a conversation *)

Lemma server_handles_cons (senv : environment) (st : Server) (sock : Socket)
    (ev : string * obj) (evs : list (string * obj)) :
  server_handles senv st sock (ev :: evs)
  = server_handles senv (state (dispatch st sock (fst ev) (PObject (snd ev)) senv))
      sock evs.
Proof. reflexivity. Qed.











(** ** File sizes *)



(** ** Allowed origins *)

(** X22: the Socket.io server and the HTTP server admit exactly the same
    origins.  Both admit a request without origin; both admit the value of
    [FRONTEND_URL] when it is set; and while [REPLIT_DEV_DOMAIN] is unset
    both admit the origin [https://undefined], which the template literal
    puts on the list. *)
Theorem socket_and_http_origins_agree (env : ProcessEnv) (origin : option string) :
  socket_cors_origin env origin = http_cors_origin env origin
  ∧ socket_cors_origin env None = CorsAllowed
  ∧ socket_cors_origin env (Some "") = CorsAllowed
  ∧ (∀ f, FRONTEND_URL env = Some f → socket_cors_origin env (Some f) = CorsAllowed)
  ∧ (REPLIT_DEV_DOMAIN env = None →
     socket_cors_origin env (Some "https://undefined") = CorsAllowed
     ∧ socket_cors_origin env (Some "http://undefined") = CorsAllowed)
  ∧ (∀ o, socket_cors_origin env (Some o) = CorsAllowed ↔
          o = "" ∨ o ∈ socket_allowed env).
Proof.
  split; [reflexivity|]. split; [reflexivity|]. split; [reflexivity|].
  split; [|split].
  - intros f Hf. unfold socket_cors_origin.
    destruct (String.eqb_spec f "") as [|Hne]; [reflexivity|].
    unfold list_includes, socket_allowed, env_or. rewrite Hf.
    destruct (String.eqb_spec f "") as [|_]; [contradiction|].
    simpl. rewrite String.eqb_refl. reflexivity.
  - intros Hr. unfold socket_cors_origin, list_includes, socket_allowed, env_text.
    rewrite Hr. simpl default.
    split; simpl; rewrite ?orb_true_r; reflexivity.
  - intros o. unfold socket_cors_origin.
    destruct (String.eqb_spec o "") as [->|Hne]; [tauto|].
    destruct (list_includes (socket_allowed env) o) eqn:Hinc.
    + split; [intros _; right|reflexivity].
      unfold list_includes in Hinc. apply existsb_exists in Hinc as (x & Hx & Heq).
      apply String.eqb_eq in Heq. subst x. apply list_elem_of_In. exact Hx.
    + split; [discriminate|]. intros [Ho|Ho]; [contradiction|].
      assert (Htrue : list_includes (socket_allowed env) o = true).
      { unfold list_includes. apply existsb_exists. exists o.
        split; [apply list_elem_of_In; exact Ho | apply String.eqb_refl]. }
      congruence.
Qed.

(** ** The HTTP client *)

Lemma prefix_append (p x : string) : String.prefix p (p +:+ x) = true.
Proof.
  induction p as [|c p IH]; [destruct x; reflexivity|].
  change (String c p +:+ x) with (String c (p +:+ x)). simpl.
  destruct (Ascii.ascii_dec c c); [exact IH | contradiction].
Qed.

Lemma str_includes_prefix (p x : string) : str_includes (p +:+ x) p = true.
Proof.
  pose proof (prefix_append p x) as H.
  destruct (p +:+ x); cbn -[String.prefix]; rewrite H; reflexivity.
Qed.

Lemma sign_out_storage (b : Browser) :
  localStorage (sign_out b) = delete "user" (delete "token" (localStorage b)).
Proof. unfold sign_out. destruct (_ && _); reflexivity. Qed.

Lemma sign_out_stays (b : Browser) (rest : string) :
  pathname b = "/" +:+ rest →
  navigated (sign_out b) = navigated b ∧ pathname (sign_out b) = pathname b.
Proof.
  intros Hp. unfold sign_out.
  assert (Hslash : str_includes (pathname b) "/" = true).
  { rewrite Hp. apply str_includes_prefix. }
  rewrite Hslash, andb_false_r. split; reflexivity.
Qed.

(** X23: a 401 answer signs the user out and never redirects.  The token
    and the stored user are removed, every other stored key stays, and the
    next request carries no [Authorization] header of the interceptor; but
    since every path contains a slash, the browser is not sent to the login
    page, whatever page it is on. *)
Theorem unauthorized_response_signs_out_without_redirect
    (err : AxiosError) (b : Browser) (headers : gmap string string) (rest : string)
    (Hstatus : status err = Some 401)
    (Hpath : pathname b = "/" +:+ rest) :
  let b' := response_error_interceptor err b in
  localStorage b' !! "token" = None
  ∧ localStorage b' !! "user" = None
  ∧ (∀ k, k ≠ "token" → k ≠ "user" → localStorage b' !! k = localStorage b !! k)
  ∧ navigated b' = navigated b
  ∧ pathname b' = pathname b
  ∧ request_interceptor b' headers = headers.
Proof.
  cbv zeta. unfold response_error_interceptor.
  rewrite (bool_decide_eq_true_2 _ Hstatus).
  rewrite bool_decide_eq_false_2 by (rewrite Hstatus; discriminate).
  simpl. destruct (sign_out_stays b rest Hpath) as [Hnav Hp].
  rewrite sign_out_storage.
  assert (Htoken : delete "user" (delete "token" (localStorage b)) !! "token" = None).
  { rewrite lookup_delete_ne by discriminate. apply lookup_delete_eq. }
  split; [exact Htoken|]. split; [apply lookup_delete_eq|].
  split.
  { intros k Hk1 Hk2. rewrite !lookup_delete_ne by congruence. reflexivity. }
  split; [exact Hnav|]. split; [exact Hp|].
  unfold request_interceptor. rewrite sign_out_storage, Htoken. reflexivity.
Qed.

Lemma unauthorized_response_signs_out_without_redirect_witness :
  navigated (response_error_interceptor (mkAxiosError (Some 401) (Some "/post/all"))
               signed_in_on_feed) = None
  ∧ request_interceptor
      (response_error_interceptor (mkAxiosError (Some 401) (Some "/post/all"))
         signed_in_on_feed) ∅ = ∅.
Proof.
  pose proof (unauthorized_response_signs_out_without_redirect
                (mkAxiosError (Some 401) (Some "/post/all")) signed_in_on_feed ∅ "feed"
                eq_refl eq_refl) as (_ & _ & _ & Hnav & _ & Hreq).
  split; [exact Hnav | exact Hreq].
Defined.

(** X24: a 404 signs the user out only when it answers the request for the
    own profile.  For the URL [getProfile] builds without a user id the
    token and the stored user are removed; for the URL it builds with a
    user id, and for every other URL below [/user/profile/], the browser
    state is left as it is. *)
Theorem profile_404_signs_out_only_for_own_profile (userId : scalar) (b : Browser) :
  let err := mkAxiosError (Some 404) (Some (getProfile_url userId)) in
  (truthy_scalar userId = true → response_error_interceptor err b = b)
  ∧ (truthy_scalar userId = false →
     localStorage (response_error_interceptor err b)
     = delete "user" (delete "token" (localStorage b)))
  ∧ (∀ tail, response_error_interceptor
               (mkAxiosError (Some 404) (Some ("/user/profile/" +:+ tail))) b = b).
Proof.
  cbv zeta.
  assert (Hother : ∀ tail, response_error_interceptor
                     (mkAxiosError (Some 404) (Some ("/user/profile/" +:+ tail))) b = b).
  { intros tail. unfold response_error_interceptor. cbn [status url].
    rewrite (bool_decide_eq_false_2 (Some 404 = Some 401)) by (intros H; inversion H).
    unfold url_includes. rewrite (str_includes_prefix "/user/profile/" tail).
    rewrite andb_false_r. reflexivity. }
  split; [|split; [|exact Hother]].
  - intros Ht. unfold getProfile_url. rewrite Ht. apply Hother.
  - intros Hf. unfold getProfile_url. rewrite Hf.
    unfold response_error_interceptor. cbn [status url].
    rewrite (bool_decide_eq_false_2 (Some 404 = Some 401)) by (intros H; inversion H).
    rewrite bool_decide_eq_true_2 by reflexivity.
    change (url_includes (Some "/user/profile") "/user/profile") with true.
    change (url_includes (Some "/user/profile") "/user/profile/") with false.
    simpl. apply sign_out_storage.
Qed.

(** ** Follow state *)

(** X25: [toggleFollow] changes the following set only when the backend
    reports success.  Then the membership of the target flips (a second
    successful call restores the set) and a [followNotification] goes out
    exactly when the target was not followed before and the socket is set;
    when the call throws or reports no success the following set is what it
    was.  In every case no other user's membership changes and the target
    is no longer marked as processing. *)
Theorem toggleFollow_flips_membership_on_success_only
    (user : gmap string scalar) (env : follow_env) (socket_set : bool) (st : FollowState) :
  let userId := if truthy_scalar (sfield user "id") then sfield user "id"
                else sfield user "_id" in
  let r := toggleFollow user env socket_set st in
  let ok := fo_success (snd r) in
  (ok = true ↔ ∃ data, env = FollowDone data ∧ truthy_scalar (sfield data "success") = true)
  ∧ (userId ∈ followingUsers (fst r)
     ↔ if ok then userId ∉ followingUsers st else userId ∈ followingUsers st)
  ∧ (∀ v, v ≠ userId → v ∈ followingUsers (fst r) ↔ v ∈ followingUsers st)
  ∧ (ok = false → followingUsers (fst r) = followingUsers st)
  ∧ (ok = true →
     followingUsers (fst (toggleFollow user env socket_set (fst r))) = followingUsers st)
  ∧ processingUsers (fst r) = processingUsers st ∖ {[userId]}
  ∧ followNotifications (fst r)
    = if ok && negb (isFollowing st userId) && socket_set
      then followNotifications st ++ [follow_notification user userId]
      else followNotifications st.
Proof.
  cbv zeta. unfold toggleFollow, isFollowing.
  set (userId := if truthy_scalar (sfield user "id") then sfield user "id"
                 else sfield user "_id").
  assert (Hfailed :
    ∀ w, w = bool_decide (userId ∈ followingUsers st) →
         untoggle_member w userId (toggle_member w userId (followingUsers st))
         = followingUsers st).
  { intros w ->. unfold untoggle_member, toggle_member.
    destruct (decide (userId ∈ followingUsers st)) as [Hin|Hout].
    - rewrite (bool_decide_eq_true_2 _ Hin). apply set_eq. intros x.
      rewrite elem_of_union, elem_of_difference, elem_of_singleton.
      destruct (decide (x = userId)) as [->|]; tauto.
    - rewrite (bool_decide_eq_false_2 _ Hout). apply set_eq. intros x.
      rewrite elem_of_difference, elem_of_union, elem_of_singleton.
      destruct (decide (x = userId)) as [->|]; tauto. }
  assert (Hprocessing : ({[userId]} ∪ processingUsers st) ∖ {[userId]}
                        = processingUsers st ∖ {[userId]}).
  { apply set_eq. intros x.
    rewrite !elem_of_difference, elem_of_union, elem_of_singleton. tauto. }
  destruct env as [|data]; [|destruct (truthy_scalar (sfield data "success")) eqn:Hok];
    cbn [fst snd fo_success followingUsers processingUsers followNotifications].
  - rewrite (Hfailed _ eq_refl), Hprocessing.
    split; [split; [discriminate | intros (d & Hd & _); discriminate]|].
    repeat split; try tauto; discriminate.
  - split; [split; [intros _; exists data; auto | reflexivity]|].
    destruct (decide (userId ∈ followingUsers st)) as [Hin|Hout].
    + rewrite (bool_decide_eq_true_2 _ Hin). unfold toggle_member.
      assert (Hgone : userId ∉ followingUsers st ∖ {[userId]}).
      { rewrite elem_of_difference, elem_of_singleton. tauto. }
      rewrite (bool_decide_eq_false_2 _ Hgone).
      split; [tauto|]. split.
      { intros v Hv. rewrite elem_of_difference, elem_of_singleton. tauto. }
      split; [discriminate|]. split.
      { intros _. apply set_eq. intros x.
        rewrite elem_of_union, elem_of_difference, elem_of_singleton.
        destruct (decide (x = userId)) as [->|]; tauto. }
      split; [exact Hprocessing | reflexivity].
    + rewrite (bool_decide_eq_false_2 _ Hout). unfold toggle_member.
      assert (Hthere : userId ∈ ({[userId]} ∪ followingUsers st : gset scalar)).
      { rewrite elem_of_union, elem_of_singleton. tauto. }
      rewrite (bool_decide_eq_true_2 _ Hthere).
      split; [tauto|]. split.
      { intros v Hv. rewrite elem_of_union, elem_of_singleton. tauto. }
      split; [discriminate|]. split.
      { intros _. apply set_eq. intros x.
        rewrite elem_of_difference, elem_of_union, elem_of_singleton.
        destruct (decide (x = userId)) as [->|]; tauto. }
      split; [exact Hprocessing | reflexivity].
  - rewrite (Hfailed _ eq_refl), Hprocessing.
    split; [split; [discriminate | intros (d & Hd & Hs); congruence]|].
    repeat split; try tauto; discriminate.
Qed.

Lemma sfield_insert_eq (c : gmap string scalar) (k : string) (v : scalar) :
  sfield (<[k := v]> c) k = v.
Proof. unfold sfield. rewrite lookup_insert_eq. reflexivity. Qed.

Lemma sfield_insert_ne (c : gmap string scalar) (k k' : string) (v : scalar) :
  k ≠ k' → sfield (<[k := v]> c) k' = sfield c k'.
Proof. intros H. unfold sfield. rewrite lookup_insert_ne by exact H. reflexivity. Qed.

Lemma sfield_singleton (k : string) (v : scalar) :
  sfield ({[ k := v ]} : gmap string scalar) k = v.
Proof. unfold sfield. rewrite lookup_singleton_eq. reflexivity. Qed.

Lemma or_zero_num (n : Z) : or_zero (Num n) = Num n.
Proof.
  unfold or_zero. simpl. destruct (Z.eqb_spec n 0) as [->|]; reflexivity.
Qed.

(** X26: for a target that carries an [id], the two keys of the counts
    update are one key and the second entry replaces the first.  The
    follower count shown for the target therefore never moves with the
    action: a successful call leaves it as it was, whatever count the
    server reports, and moves the target's following count by two; a failed
    call moves the follower count against the action and leaves the
    following count off by one.  No other entry of the counts changes. *)
Theorem toggleFollow_counts_of_a_target_with_id
    (user : gmap string scalar) (env : follow_env) (socket_set : bool) (st : FollowState)
    (u : scalar) (c : counts) (f g : Z)
    (Hid : sfield user "id" = u) (Htruthy : truthy_scalar u = true)
    (Hentry : followCounts st !! to_string u = Some c)
    (Hf : sfield c "followers" = Num f) (Hg : sfield c "following" = Num g) :
  let r := toggleFollow user env socket_set st in
  let k := if isFollowing st u then (-1) else 1 in
  sfield (getFollowCounts (fst r) u) "followers"
  = Num (if fo_success (snd r) then f else f - k)
  ∧ sfield (getFollowCounts (fst r) u) "following"
    = Num (if fo_success (snd r) then g + 2 * k else g + k)
  ∧ (∀ key, key ≠ to_string u → followCounts (fst r) !! key = followCounts st !! key).
Proof.
  cbv zeta. unfold toggleFollow, isFollowing. rewrite Hid, Htruthy.
  set (w := bool_decide (u ∈ followingUsers st)).
  assert (Hopt : optimistic_counts user u w (followCounts st) !! to_string u
                 = Some {[ "followers" := Num f;
                           "following" := Num (g + (if w then (-1) else 1)) ]}).
  { unfold optimistic_counts. rewrite Hid, lookup_insert_eq.
    unfold count_field. rewrite Hentry, Hf, Hg, or_zero_num. reflexivity. }
  assert (Hkeep : ∀ key, key ≠ to_string u →
                  optimistic_counts user u w (followCounts st) !! key
                  = followCounts st !! key).
  { intros key Hkey. unfold optimistic_counts. rewrite Hid.
    rewrite !lookup_insert_ne by congruence. reflexivity. }
  assert (Hfailed :
    sfield (default {[ "followers" := Num 0; "following" := Num 0 ]}
              (reverted_counts u w (optimistic_counts user u w (followCounts st))
               !! to_string u)) "followers"
    = Num (f - (if w then (-1) else 1))
    ∧ sfield (default {[ "followers" := Num 0; "following" := Num 0 ]}
                (reverted_counts u w (optimistic_counts user u w (followCounts st))
                 !! to_string u)) "following"
      = Num (g + (if w then (-1) else 1))
    ∧ ∀ key, key ≠ to_string u →
             reverted_counts u w (optimistic_counts user u w (followCounts st)) !! key
             = followCounts st !! key).
  { unfold reverted_counts, count_field, counts_of. rewrite Hopt.
    rewrite lookup_insert_eq. simpl default.
    split; [|split].
    - rewrite sfield_insert_eq, sfield_insert_eq. simpl.
      destruct w; f_equal; lia.
    - rewrite sfield_insert_ne by discriminate.
      rewrite sfield_insert_ne by discriminate. reflexivity.
    - intros key Hkey. rewrite lookup_insert_ne by congruence. apply Hkeep, Hkey. }
  unfold getFollowCounts.
  destruct env as [|data]; [|destruct (truthy_scalar (sfield data "success"))];
    cbn [fst snd fo_success followCounts]; try exact Hfailed.
  unfold confirmed_counts, count_field. rewrite Hid, lookup_insert_eq.
  rewrite Hopt. simpl default.
  split; [|split].
  - rewrite !sfield_insert_eq. apply or_zero_num.
  - rewrite sfield_insert_ne by discriminate.
    rewrite sfield_insert_ne by discriminate.
    rewrite !sfield_singleton. simpl. destruct w; f_equal; lia.
  - intros key Hkey. rewrite !lookup_insert_ne by congruence. apply Hkeep, Hkey.
Qed.

Lemma toggleFollow_counts_of_a_target_with_id_witness :
  sfield (getFollowCounts (fst (toggleFollow bob follow_accepted true bob_known))
            (Str "u2")) "followers" = Num 10
  ∧ sfield (getFollowCounts (fst (toggleFollow bob follow_accepted true bob_known))
              (Str "u2")) "following" = Num 5.
Proof.
  pose proof (toggleFollow_counts_of_a_target_with_id bob follow_accepted true bob_known
                (Str "u2") {[ "followers" := Num 10; "following" := Num 3 ]} 10 3
                eq_refl eq_refl eq_refl eq_refl eq_refl) as (Hf & Hg & _).
  split; [exact Hf | exact Hg].
Defined.

Lemma foldl_zero_counts_lookup (ids : list scalar) (m : gmap string counts)
    (key : string) :
  foldl (fun prev id =>
           <[to_string id := {[ "followers" := Num 0; "following" := Num 0 ]}]> prev)
        m ids !! key
  = if bool_decide (key ∈ map to_string ids)
    then Some {[ "followers" := Num 0; "following" := Num 0 ]}
    else m !! key.
Proof.
  revert m. induction ids as [|id ids IH]; intros m; [reflexivity|].
  simpl foldl. rewrite IH. simpl map.
  destruct (decide (key ∈ map to_string ids)) as [Hin|Hout].
  - rewrite (bool_decide_eq_true_2 _ Hin).
    rewrite bool_decide_eq_true_2 by (right; exact Hin). reflexivity.
  - rewrite (bool_decide_eq_false_2 _ Hout).
    destruct (decide (key = to_string id)) as [->|Hne].
    + rewrite lookup_insert_eq. rewrite bool_decide_eq_true_2 by left. reflexivity.
    + rewrite lookup_insert_ne by congruence.
      rewrite bool_decide_eq_false_2; [reflexivity|].
      intros H. apply elem_of_cons in H as [H|H]; contradiction.
Qed.

(** X27: loading the follow state replaces the following set by the ids
    the backend returned, whatever the set held.  With a user in the
    profile answer the counts of every returned user are reset to zero and
    the current user's own counts are the lengths of the profile's lists,
    unless the current user is among the returned users (ids whose text is
    the decimal one); a profile answer without data replaces the set all
    the same and leaves the counts; a profile answer whose data holds no
    user makes the count updater throw while React renders, and the
    provider is gone; when the requests throw nothing changes. *)
Theorem loadFollowState_replaces_the_following_set
    (currentUserId : scalar) (following : list scalar)
    (profile : profile_answer) (st : FollowState) :
  let r := loadFollowState currentUserId (LoadFollowDone following profile) st in
  (profile = ProfileNoUser → r = None)
  ∧ (profile ≠ ProfileNoUser →
     ∃ st', r = Some st'
     ∧ (∀ v, isFollowing st' v = true ↔ v ∈ following)
     ∧ processingUsers st' = processingUsers st
     ∧ (profile = ProfileNoData → followCounts st' = followCounts st)
     ∧ (∀ id, profile ≠ ProfileNoData → id ∈ following →
              getFollowCounts st' id = {[ "followers" := Num 0; "following" := Num 0 ]})
     ∧ (∀ fl fg, profile = ProfileUser fl fg →
                 printable currentUserId →
                 (∀ id, id ∈ following →
                        printable id ∧ to_string id ≠ to_string currentUserId) →
                 getFollowCounts st' currentUserId
                 = {[ "followers" := length_or_zero fl;
                      "following" := length_or_zero fg ]}))
  ∧ loadFollowState currentUserId LoadFollowThrows st = Some st.
Proof.
  cbv zeta. split; [intros ->; reflexivity|]. split; [|reflexivity].
  intros Huser. destruct profile as [| |fl fg]; [|contradiction|].
  - eexists. split; [reflexivity|]. split.
    { intros v. unfold isFollowing. cbn [followingUsers].
      rewrite bool_decide_eq_true. apply elem_of_list_to_set. }
    split; [reflexivity|]. split; [reflexivity|].
    split; [intros id Hno; contradiction|]. intros fl fg Heq. discriminate Heq.
  - eexists. split; [reflexivity|]. split.
    { intros v. unfold isFollowing. cbn [followingUsers].
      rewrite bool_decide_eq_true. apply elem_of_list_to_set. }
    split; [reflexivity|]. split; [intros Heq; discriminate Heq|].
    split.
    { intros id _ Hid. unfold getFollowCounts.
      cbn [followCounts]. rewrite foldl_zero_counts_lookup.
      rewrite bool_decide_eq_true_2; [reflexivity|].
      apply list_elem_of_fmap. exists id. split; [reflexivity | exact Hid]. }
    intros fl' fg' Heq _ Hother. inversion Heq; subst fl' fg'.
    unfold getFollowCounts. cbn [followCounts]. rewrite foldl_zero_counts_lookup.
    rewrite bool_decide_eq_false_2.
    + rewrite lookup_insert_eq. reflexivity.
    + intros H. apply list_elem_of_fmap in H as (id & Heq' & Hid).
      apply (proj2 (Hother id Hid)). congruence.
Qed.
